(** * CGM_Python: frame decoders, configuration loading, filters, CV cycles

    A shallow embedding of the parts of the serial biosensor monitor that its
    specification makes checkable statements about:

    - [BinaryFrame]  : [DataDecoders.BinaryFrameDecoder.feed] and
                       [SerialPage.process_binary_buffer];
    - [JsonFrame]    : [DataDecoders.JsonFrameDecoder.feed] and
                       [SerialPage.process_json_buffer];
    - [LearnConfig]  : [01_Learn/config.py];
    - [MonitorConfig]: the configuration classes embedded in
                       [03_ModifyCGMPage/01_ReadSerial.py];
    - [Filters]      : [DataMonitorPage._apply_filter] and [KalmanFilter];
    - [CVCycles]     : [DataMonitorPage._build_cv_cycles];
    - [Worker]       : [SerialWorker.read_data].

    and, over the same definitions, what the code does on whole streams and
    runs: [BinaryStream], [JsonStream], [FilterHistory], [LearnConfigFile],
    [MonitorConfigFile], [CVStretches], [Ingestion] ([parse_frame],
    [frame_to_engineering]), [Pending] ([update_data],
    [_flush_pending_data]), [WorkerRuns] and [MonitorPage]
    ([_process_single_data]).

    Python [int] is [Z], Python [float] is the kernel's binary64 [float],
    [bytes]/[bytearray] are [list byte], [str] is [string]. *)

From Stdlib Require Import ZArith Lia Floats Uint63.
From Stdlib Require Reals Lra.
From Stdlib.Strings Require Import Byte Ascii.
From stdpp Require Import base list strings gmap.

Local Open Scope Z_scope.
Set Warnings "-inexact-float,-register-all".

(** ** Python numbers *)

(** [int -> float]: the nearest binary64 value, ties to even (an infinity
    when the integer is out of range, which callers turn into
    [OverflowError]). *)
Definition float_of_int (z : Z) : float :=
  SF2Prim (SpecFloat.binary_normalize prec emax z 0 false).

(** The value of a byte as the [int] that indexing a [bytearray] returns. *)
Definition b2z (b : byte) : Z := Z.of_N (Byte.to_N b).

Lemma b2z_range (b : byte) : 0 <= b2z b < 256.
Proof.
  unfold b2z. pose proof (Byte.to_N_bounded b). lia.
Qed.

Lemma b2z_inj (a b : byte) : b2z a = b2z b -> a = b.
Proof.
  unfold b2z. intros H. apply N2Z.inj in H.
  pose proof (Byte.of_to_N a) as Ha. pose proof (Byte.of_to_N b) as Hb.
  rewrite H in Ha. congruence.
Qed.

Global Opaque b2z.

(** [l[a:b]] for [0 <= a <= b] *)
Definition slice {A} (a b : nat) (l : list A) : list A := take (b - a) (drop a l).

(** ** Python exceptions *)

Inductive exn : Type :=
| KeyError | IndexError | ValueError | TypeError | AttributeError | OverflowError
| ZeroDivisionError.

Inductive result (A : Type) : Type :=
| Ok : A -> result A
| Raise : exn -> result A.
Arguments Ok {A} _.
Arguments Raise {A} _.

(** Sequencing: an exception raised by the first statement propagates. *)
Global Instance result_bind : MBind result := fun A B k r =>
  match r with
  | Ok a => k a
  | Raise e => Raise e
  end.

(** A function applied to what the statement returns. *)
Global Instance result_fmap : FMap result := fun A B f r =>
  match r with
  | Ok a => Ok (f a)
  | Raise e => Raise e
  end.

(** [try: r  except Exception: handler] *)
Definition try_except {A} (r : result A) (handler : A) : A :=
  match r with
  | Ok a => a
  | Raise _ => handler
  end.

(** ** The filter-type enumeration

    Both configuration modules declare the same four members. *)

Inductive FilterType : Type := NONE | MOVING_AVG | MEDIAN | KALMAN.

Global Instance FilterType_eq_dec : EqDecision FilterType.
Proof. solve_decision. Defined.

Definition FilterType_members : list FilterType := [NONE; MOVING_AVG; MEDIAN; KALMAN].

(** [ft.value] *)
Definition FilterType_value (ft : FilterType) : string :=
  match ft with
  | NONE => "无滤波"
  | MOVING_AVG => "滑动平均"
  | MEDIAN => "中值滤波"
  | KALMAN => "卡尔曼滤波"
  end.

(** [ft.name] *)
Definition FilterType_name (ft : FilterType) : string :=
  match ft with
  | NONE => "NONE"
  | MOVING_AVG => "MOVING_AVG"
  | MEDIAN => "MEDIAN"
  | KALMAN => "KALMAN"
  end.

(** ** Python values

    What [json.loads] returns (numbers, strings, lists, dictionaries keyed by
    strings, [None], booleans), and enumeration members, which the fields of
    a configuration object may also hold. *)

Inductive pyval : Type :=
| VNone
| VBool (b : bool)
| VInt (z : Z)
| VFloat (f : float)
| VStr (s : string)
| VList (l : list pyval)
| VDict (d : gmap string pyval)
| VEnum (ft : FilterType).

(** [d.get(key, default)] *)
Definition dict_get (d : gmap string pyval) (key : string) (dflt : pyval) : pyval :=
  default dflt (d !! key).

(** [int(f)] for a float: truncation toward zero. *)
Definition int_of_float (f : float) : result Z :=
  match Prim2SF f with
  | S754_zero _ => Ok 0
  | S754_infinity _ => Raise OverflowError
  | S754_nan => Raise ValueError
  | S754_finite sign m e =>
      let magnitude := if 0 <=? e then Z.pos m * 2 ^ e else Z.pos m / 2 ^ (- e) in
      Ok (if sign then - magnitude else magnitude)
  end.

(** The contents of the configuration file, as [json.loads(p.read_text())]
    sees them: text on which reading or parsing raises, or text that parses
    to a value. *)
Inductive file_content : Type :=
| Malformed (txt : string)
| Json (raw : pyval).

(** * Binary frame decoder *)

Module BinaryFrame.

Definition FRAME_LEN : nat := 15.
Definition HEAD : Z := 0xA5.
Definition TAIL : Z := 0x5A.

(** [sum(payload)] over a slice of a [bytearray]. *)
Definition sum_bytes (l : list byte) : Z := foldr (fun b acc => b2z b + acc) 0 l.

(** [buf[i]] for an index the caller has checked to be in range. *)
Definition byte_at (buf : list byte) (i : nat) : Z :=
  from_option b2z 0 (buf !! i).

(** Little-endian unsigned integers, as [struct.unpack] reads them. *)
Fixpoint le_uint (l : list byte) : Z :=
  match l with
  | [] => 0
  | b :: r => b2z b + 256 * le_uint r
  end.

(** [struct.unpack("<IHHHH", payload)] on a 12-byte payload. *)
Definition unpack_IHHHH (payload : list byte) : Z * Z * Z * Z * Z :=
  (le_uint (slice 0 4 payload),
   le_uint (slice 4 6 payload),
   le_uint (slice 6 8 payload),
   le_uint (slice 8 10 payload),
   le_uint (slice 10 12 payload)).

(** [(code12 / 4095.0) * 3.3] *)
Definition voltage_of_code12 (code12 : Z) : float :=
  (float_of_int code12 / 4095 * 3.3)%float.

(** One pass through the body of [while len(buffer) >= FRAME_LEN]. *)
Inductive iteration (F : Type) : Type :=
| Stop : iteration F                       (* loop condition false *)
| Drop : list byte -> iteration F          (* [buffer.pop(0)] *)
| Emit : F -> list byte -> iteration F.    (* callback, [del buffer[:15]] *)
Arguments Stop {F}.
Arguments Drop {F} _.
Arguments Emit {F} _ _.

Section Scan.
(** The dictionary built from the unpacked payload differs between the two
    decoders; the scan itself is the same code. *)
Context {F : Type} (decode : list byte -> F).

Definition scan_step (buf : list byte) : iteration F :=
  if (length buf <? FRAME_LEN)%nat then Stop
  else if negb (byte_at buf 0 =? HEAD) then Drop (drop 1 buf)
  else if negb (byte_at buf (FRAME_LEN - 1) =? TAIL) then Drop (drop 1 buf)
  else
    let frame := take FRAME_LEN buf in
    let payload := slice 1 13 frame in
    let calc_sum := Z.land (sum_bytes payload) 0xFF in
    let recv_sum := byte_at frame 13 in
    if calc_sum =? recv_sum
    then Emit (decode payload) (drop FRAME_LEN buf)
    else Drop (drop 1 buf).

(** The [while] loop, bounded by a number of iterations. [None] means the
    bound was reached with the loop condition still true. *)
Fixpoint scan_loop (fuel : nat) (buf : list byte) : option (list F * list byte) :=
  match scan_step buf with
  | Stop => Some ([], buf)
  | Drop buf' =>
      match fuel with
      | O => None
      | S fuel' => scan_loop fuel' buf'
      end
  | Emit f buf' =>
      match fuel with
      | O => None
      | S fuel' =>
          match scan_loop fuel' buf' with
          | Some (fs, rest) => Some (f :: fs, rest)
          | None => None
          end
      end
  end.

(** [feed]: extend the buffer, then scan. The result is the frames handed
    to the callback, in order, and the buffer left behind. *)
Definition feed_with (buffer data : list byte) : option (list F * list byte) :=
  let buffer := buffer ++ data in
  scan_loop (length buffer) buffer.
End Scan.

(** [DataDecoders.BinaryFrameDecoder]: the decoded dictionary
    [{"t": ms, "voltage": ..., "uric": ..., "ascorbic": ..., "glucose": ...}]. *)
Record frame : Type := Frame {
  t : Z;
  voltage : float;
  uric : Z;
  ascorbic : Z;
  glucose : Z
}.

Definition decode (payload : list byte) : frame :=
  let '(ms, uric_raw, ascorbic_raw, glucose_raw, code12) := unpack_IHHHH payload in
  {| t := ms;
     voltage := voltage_of_code12 code12;
     uric := uric_raw;
     ascorbic := ascorbic_raw;
     glucose := glucose_raw |}.

Definition feed : list byte -> list byte -> option (list frame * list byte) :=
  feed_with decode.

(** [SerialPage.process_binary_buffer]: the same scan; the dictionary carries
    the time in seconds and the local receive time. *)
Record page_frame : Type := PageFrame {
  pt : float;
  pvoltage : float;
  puric : Z;
  pascorbic : Z;
  pglucose : Z;
  receive_time : string
}.

Definition page_decode (now : string) (payload : list byte) : page_frame :=
  let '(ms, uric_raw, ascorbic_raw, glucose_raw, code12) := unpack_IHHHH payload in
  {| pt := (float_of_int ms / 1000)%float;
     pvoltage := voltage_of_code12 code12;
     puric := uric_raw;
     pascorbic := ascorbic_raw;
     pglucose := glucose_raw;
     receive_time := now |}.

Definition process_binary_buffer (now : string) (binary_buffer : list byte)
  : option (list page_frame * list byte) :=
  scan_loop (page_decode now) (length binary_buffer) binary_buffer.

(** ** Forward progress and termination of the scan *)

Lemma scan_step_progress {F} (decode : list byte -> F) (buf : list byte) :
  match scan_step decode buf with
  | Stop => (length buf < FRAME_LEN)%nat
  | Drop buf' =>
      buf' = drop 1 buf /\ length buf = S (length buf') /\ (FRAME_LEN <= length buf)%nat
  | Emit f buf' =>
      f = decode (slice 1 13 buf) /\ buf' = drop FRAME_LEN buf /\
      length buf = (FRAME_LEN + length buf')%nat
  end.
Proof.
  unfold scan_step.
  destruct (Nat.ltb_spec (length buf) FRAME_LEN) as [Hlt | Hge]; [exact Hlt|].
  assert (Hdrop : length buf = S (length (drop 1 buf))).
  { rewrite length_drop. unfold FRAME_LEN in Hge. lia. }
  destruct (byte_at buf 0 =? HEAD); cbn [negb]; [|by repeat split].
  destruct (byte_at buf (FRAME_LEN - 1) =? TAIL); cbn [negb]; [|by repeat split].
  destruct (_ =? _); [|by repeat split].
  split; [|split].
  - unfold slice, FRAME_LEN. change 15%nat with (1 + 14)%nat.
    rewrite <- take_drop_commute, take_take. reflexivity.
  - reflexivity.
  - rewrite length_drop. lia.
Qed.

Lemma scan_loop_enough {F} (decode : list byte -> F) (fuel : nat) :
  forall buf : list byte,
    (length buf <= fuel)%nat ->
    exists frames rest,
      scan_loop decode fuel buf = Some (frames, rest) /\
      (length rest < FRAME_LEN)%nat /\
      (FRAME_LEN * length frames + length rest <= length buf)%nat.
Proof.
  induction fuel as [|fuel IH]; intros buf Hlen.
  - exists [], buf. destruct buf; [|cbn in Hlen; lia].
    cbn. repeat split; unfold FRAME_LEN; cbn; lia.
  - pose proof (scan_step_progress decode buf) as Hstep.
    cbn [scan_loop]. destruct (scan_step decode buf) as [|buf'|f buf'].
    + exists [], buf. repeat split; [exact Hstep | cbn; lia].
    + destruct Hstep as (_ & Hl & _).
      destruct (IH buf') as (fs & rest & -> & Hr & Hle); [lia|].
      exists fs, rest. repeat split; [exact Hr | lia].
    + destruct Hstep as (_ & _ & Hl). unfold FRAME_LEN in Hl.
      destruct (IH buf') as (fs & rest & -> & Hr & Hle); [lia|].
      exists (f :: fs), rest. repeat split; [exact Hr|].
      unfold FRAME_LEN in *. cbn [length]. lia.
Qed.

(** What one iteration does to the buffer: the loop is left with fewer than
    15 bytes buffered, or exactly one byte is popped from the front, or a
    frame is handed over and exactly 15 bytes are deleted. *)
Definition iteration_progress {F} (decode : list byte -> F) (buf : list byte) : Prop :=
  (scan_step decode buf = Stop /\ (length buf < FRAME_LEN)%nat) \/
  (scan_step decode buf = Drop (drop 1 buf) /\
     (FRAME_LEN <= length buf)%nat /\ length (drop 1 buf) = (length buf - 1)%nat) \/
  (scan_step decode buf = Emit (decode (slice 1 13 buf)) (drop FRAME_LEN buf) /\
     (FRAME_LEN <= length buf)%nat /\
     length (drop FRAME_LEN buf) = (length buf - FRAME_LEN)%nat).

Lemma scan_step_cases {F} (decode : list byte -> F) (buf : list byte) :
  iteration_progress decode buf.
Proof.
  pose proof (scan_step_progress decode buf) as H. unfold iteration_progress.
  destruct (scan_step decode buf) as [|buf'|f buf'].
  - left. by split.
  - right; left. destruct H as (-> & Hl & Hge).
    repeat split; [exact Hge | rewrite length_drop; lia].
  - right; right. destruct H as (-> & -> & Hl).
    repeat split; [lia | rewrite length_drop; lia].
Qed.

(** C8. Every call of the binary decoder's [feed] (and of the monitor's
    [process_binary_buffer]) terminates: an iteration of the scan loop either
    hands over a frame and deletes exactly 15 bytes or pops exactly one byte,
    and after at most [len(buffer)] iterations fewer than 15 bytes remain. *)
Theorem feed_terminates (buffer data : list byte) :
  (forall buf, iteration_progress decode buf) /\
  (exists frames rest,
      feed buffer data = Some (frames, rest) /\ (length rest < FRAME_LEN)%nat) /\
  (forall now, exists frames rest,
      process_binary_buffer now (buffer ++ data) = Some (frames, rest) /\
      (length rest < FRAME_LEN)%nat).
Proof.
  split; [apply scan_step_cases|]. split.
  - destruct (scan_loop_enough decode (length (buffer ++ data)) (buffer ++ data))
      as (fs & rest & Hrun & Hr & _); [lia|].
    exists fs, rest. by split.
  - intros now.
    destruct (scan_loop_enough (page_decode now) (length (buffer ++ data)) (buffer ++ data))
      as (fs & rest & Hrun & Hr & _); [lia|].
    exists fs, rest. by split.
Qed.

(** ** A valid frame, and a frame with one corrupted payload byte *)

Lemma land_0xFF (z : Z) : Z.land z 0xFF = z mod 256.
Proof. change 0xFF with (Z.ones 8). rewrite Z.land_ones by lia. reflexivity. Qed.

Lemma byte_at_range (buf : list byte) (i : nat) : 0 <= byte_at buf i < 256.
Proof.
  unfold byte_at. destruct (buf !! i); cbn; [apply b2z_range | lia].
Qed.

Lemma sum_bytes_insert (l : list byte) (j : nat) (b' : byte) :
  (j < length l)%nat ->
  sum_bytes (<[j := b']> l) = sum_bytes l - byte_at l j + b2z b'.
Proof.
  revert j. induction l as [|a l IH]; intros j Hj; [cbn in Hj; lia|].
  destruct j as [|j].
  - cbn. unfold byte_at; cbn. fold (sum_bytes l). lia.
  - cbn in Hj. change (<[S j:=b']> (a :: l)) with (a :: <[j:=b']> l).
    change (sum_bytes (a :: <[j:=b']> l)) with (b2z a + sum_bytes (<[j:=b']> l)).
    change (sum_bytes (a :: l)) with (b2z a + sum_bytes l).
    change (byte_at (a :: l) (S j)) with (byte_at l j).
    rewrite IH by lia. lia.
Qed.

Lemma scan_step_short {F} (decode : list byte -> F) (buf : list byte) :
  (length buf < FRAME_LEN)%nat -> scan_step decode buf = Stop.
Proof.
  intros H. unfold scan_step.
  destruct (Nat.ltb_spec (length buf) FRAME_LEN); [reflexivity | lia].
Qed.

Lemma scan_loop_stop {F} (decode : list byte -> F) (fuel : nat) (buf : list byte) :
  scan_step decode buf = Stop -> scan_loop decode fuel buf = Some ([], buf).
Proof. intros H. destruct fuel; cbn [scan_loop]; rewrite H; reflexivity. Qed.

Lemma scan_loop_drop {F} (decode : list byte -> F) (fuel : nat) (buf buf' : list byte) :
  scan_step decode buf = Drop buf' ->
  scan_loop decode (S fuel) buf = scan_loop decode fuel buf'.
Proof. intros H. cbn [scan_loop]. rewrite H. reflexivity. Qed.

Lemma scan_loop_emit {F} (decode : list byte -> F) (fuel : nat) (buf buf' : list byte) (f : F) :
  scan_step decode buf = Emit f buf' ->
  scan_loop decode (S fuel) buf =
    match scan_loop decode fuel buf' with
    | Some (fs, rest) => Some (f :: fs, rest)
    | None => None
    end.
Proof. intros H. cbn [scan_loop]. rewrite H. reflexivity. Qed.

Section OneFrame.
Context {F : Type} (decode : list byte -> F).
Variable input : list byte.
Hypothesis Hlen : length input = FRAME_LEN.
Hypothesis Hhead : byte_at input 0 = HEAD.
Hypothesis Htail : byte_at input 14 = TAIL.
Hypothesis Hsum : byte_at input 13 = sum_bytes (slice 1 13 input) mod 256.

Lemma scan_valid :
  scan_loop decode FRAME_LEN input = Some ([decode (slice 1 13 input)], []).
Proof using Hlen Hhead Htail Hsum.
  assert (Hstep : scan_step decode input = Emit (decode (slice 1 13 input)) []).
  { unfold scan_step. rewrite Hlen, Nat.ltb_irrefl.
    change (FRAME_LEN - 1)%nat with 14%nat.
    rewrite Hhead, Htail, !Z.eqb_refl. cbn [negb].
    rewrite (take_ge input) by lia. rewrite (drop_ge input) by lia.
    rewrite land_0xFF, Hsum, Z.eqb_refl. reflexivity. }
  change FRAME_LEN with (S 14) at 1. rewrite (scan_loop_emit _ _ _ _ _ Hstep).
  rewrite scan_loop_stop; [reflexivity|].
  apply scan_step_short. unfold FRAME_LEN; cbn; lia.
Qed.

Lemma scan_corrupt (i : nat) (b' : byte) :
  (1 <= i <= 12)%nat -> input !! i <> Some b' ->
  scan_loop decode FRAME_LEN (<[i := b']> input) = Some ([], drop 1 (<[i := b']> input)).
Proof using Hlen Hhead Htail Hsum.
  intros Hi Hne. unfold FRAME_LEN in Hlen.
  assert (Hb : exists b, input !! i = Some b /\ b <> b').
  { destruct (input !! i) as [b|] eqn:E.
    - exists b. split; [reflexivity | congruence].
    - apply lookup_ge_None in E. lia. }
  destruct Hb as (b & Hb & Hbb').
  assert (Hdiff : b2z b <> b2z b') by (intros E; apply Hbb', b2z_inj, E).
  assert (Hstep : scan_step decode (<[i := b']> input) = Drop (drop 1 (<[i := b']> input))).
  { unfold scan_step. rewrite length_insert, Hlen. change (15 <? FRAME_LEN)%nat with false.
    change (FRAME_LEN - 1)%nat with 14%nat. unfold byte_at at 1 2.
    rewrite !list_lookup_insert_ne by lia.
    fold (byte_at input 0) (byte_at input 14).
    rewrite Hhead, Htail, !Z.eqb_refl. cbn [negb].
    rewrite (take_ge (<[i:=b']> input)) by (rewrite length_insert; unfold FRAME_LEN; lia).
    unfold byte_at at 1. rewrite list_lookup_insert_ne by lia. fold (byte_at input 13).
    unfold slice. rewrite drop_insert_ge, take_insert_lt by lia.
    rewrite sum_bytes_insert by (rewrite length_take, length_drop; lia).
    replace (byte_at (take (13 - 1) (drop 1 input)) (i - 1)) with (b2z b).
    2:{ unfold byte_at. rewrite lookup_take_lt, lookup_drop by lia.
        replace (1 + (i - 1))%nat with i by lia. rewrite Hb. reflexivity. }
    rewrite land_0xFF, Hsum. unfold slice.
    pose proof (b2z_range b). pose proof (b2z_range b').
    destruct (Z.eqb_spec ((sum_bytes (take (13 - 1) (drop 1 input)) - b2z b + b2z b') mod 256)
                (sum_bytes (take (13 - 1) (drop 1 input)) mod 256)) as [E|_];
      [exfalso | reflexivity].
    revert E. generalize (sum_bytes (take (13 - 1) (drop 1 input))). intros s E.
    Z.div_mod_to_equations. lia. }
  change FRAME_LEN with (S 14) at 1. rewrite (scan_loop_drop _ _ _ _ Hstep).
  apply scan_loop_stop, scan_step_short.
  rewrite length_drop, length_insert. unfold FRAME_LEN. lia.
Qed.

End OneFrame.

Lemma le_uint_pair (a b : byte) : le_uint [a; b] = b2z a + 256 * b2z b.
Proof. cbn [le_uint]. lia. Qed.

(** C1. A 15-byte input with head [0xA5], tail [0x5A] and byte 13 equal to
    the sum of bytes 1..12 modulo 256, fed to an empty decoder, yields exactly
    one frame, whose [uric], [ascorbic] and [glucose] are the little-endian
    16-bit integers at offsets 5, 7 and 9 and whose [voltage] is
    [code12 / 4095.0 * 3.3]; the same input with one payload byte replaced by
    a different value yields no frame. *)
Theorem valid_frame_round_trip (input : list byte) :
  length input = FRAME_LEN ->
  byte_at input 0 = HEAD ->
  byte_at input 14 = TAIL ->
  byte_at input 13 = sum_bytes (slice 1 13 input) mod 256 ->
  (exists f : frame,
      feed [] input = Some ([f], []) /\
      uric f = byte_at input 5 + 256 * byte_at input 6 /\
      ascorbic f = byte_at input 7 + 256 * byte_at input 8 /\
      glucose f = byte_at input 9 + 256 * byte_at input 10 /\
      voltage f =
        (float_of_int (byte_at input 11 + 256 * byte_at input 12) / 4095 * 3.3)%float) /\
  (forall (i : nat) (b' : byte),
      (1 <= i <= 12)%nat -> input !! i <> Some b' ->
      exists rest, feed [] (<[i := b']> input) = Some ([], rest)).
Proof.
  intros Hlen Hhead Htail Hsum. split.
  - exists (decode (slice 1 13 input)). split.
    + unfold feed, feed_with. rewrite app_nil_l, Hlen.
      by apply scan_valid.
    + clear Hhead Htail Hsum.
      do 15 (destruct input as [|? input]; [discriminate Hlen|]).
      destruct input; [|discriminate Hlen].
      unfold decode, unpack_IHHHH, slice, byte_at.
      cbn [drop take Nat.sub lookup list_lookup from_option].
      rewrite !le_uint_pair.
      cbn [uric ascorbic glucose voltage]. unfold voltage_of_code12.
      repeat split; reflexivity.
  - intros i b' Hi Hne. eexists. unfold feed, feed_with.
    rewrite app_nil_l, length_insert, Hlen. by apply scan_corrupt.
Qed.

(** The bytes [A5 | 10 27 00 00 | 34 12 | 78 56 | BC 9A | FF 0F | cs | 5A]. *)
Definition sample_frame : list byte :=
  [xa5; x10; x27; x00; x00; x34; x12; x78; x56; xbc; x9a; xff; x0f; xaf; x5a].

Lemma valid_frame_round_trip_witness :
  (exists f : frame,
      feed [] sample_frame = Some ([f], []) /\
      uric f = byte_at sample_frame 5 + 256 * byte_at sample_frame 6 /\
      ascorbic f = byte_at sample_frame 7 + 256 * byte_at sample_frame 8 /\
      glucose f = byte_at sample_frame 9 + 256 * byte_at sample_frame 10 /\
      voltage f =
        (float_of_int (byte_at sample_frame 11 + 256 * byte_at sample_frame 12)
           / 4095 * 3.3)%float) /\
  (forall (i : nat) (b' : byte),
      (1 <= i <= 12)%nat -> sample_frame !! i <> Some b' ->
      exists rest, feed [] (<[i := b']> sample_frame) = Some ([], rest)).
Proof.
  apply (valid_frame_round_trip sample_frame); vm_compute; reflexivity.
Defined.

Example sample_frame_decoded :
  feed [] sample_frame =
    Some ([{| t := 10000; voltage := voltage_of_code12 4095;
              uric := 0x1234; ascorbic := 0x5678; glucose := 0x9abc |}], []).
Proof. vm_compute. reflexivity. Qed.

(** The monitor's [process_binary_buffer] treats the same input the same way. *)
Lemma page_valid_frame (now : string) (input : list byte) :
  length input = FRAME_LEN ->
  byte_at input 0 = HEAD ->
  byte_at input 14 = TAIL ->
  byte_at input 13 = sum_bytes (slice 1 13 input) mod 256 ->
  process_binary_buffer now input = Some ([page_decode now (slice 1 13 input)], []).
Proof.
  intros Hlen Hhead Htail Hsum. unfold process_binary_buffer. rewrite Hlen.
  by apply scan_valid.
Qed.

End BinaryFrame.

(** * JSON frame decoders *)

Module JsonFrame.

(** The text buffer, a sequence of characters. *)
Definition text : Type := list ascii.

Definition is_char (c ch : ascii) : bool := Ascii.eqb ch c.

(** The double quote and the backslash. *)
Definition dquote : ascii := "034"%char.
Definition backslash : ascii := "092"%char.

(** [c in buffer] *)
Definition contains (c : ascii) (buffer : text) : bool := existsb (is_char c) buffer.

(** [buffer.find(c)]; [None] stands for -1. *)
Fixpoint find (c : ascii) (buffer : text) : option nat :=
  match buffer with
  | [] => None
  | ch :: rest => if is_char c ch then Some 0%nat else S <$> find c rest
  end.

(** [buffer.rfind(c)]; [None] stands for -1. *)
Fixpoint rfind (c : ascii) (buffer : text) : option nat :=
  match buffer with
  | [] => None
  | ch :: rest =>
      match rfind c rest with
      | Some i => Some (S i)
      | None => if is_char c ch then Some 0%nat else None
      end
  end.

(** What [json.loads] does with a candidate span: it returns the parsed
    value, raises [JSONDecodeError], or raises another exception
    ([ValueError] on a number of more than 4300 digits, [RecursionError] on
    nesting that is too deep). *)
Inductive loaded (Obj : Type) : Type :=
| Parsed (obj : Obj)
| DecodeError
| OtherError.
Arguments Parsed {Obj} _.
Arguments DecodeError {Obj}.
Arguments OtherError {Obj}.

Section Decoders.
Context {Obj : Type} (json_loads : text -> loaded Obj).

(** ** [DataDecoders.JsonFrameDecoder] *)

(** The inner [for i in range(start, len(buffer))] of [feed], entered at
    index [i] with the characters from there on: the [end] it finds. *)
Fixpoint match_end (depth : Z) (i : nat) (rest : text) : option nat :=
  match rest with
  | [] => None
  | ch :: rest' =>
      let depth := if is_char "{" ch then depth + 1
                   else if is_char "}" ch then depth - 1
                   else depth in
      if depth =? 0 then Some i else match_end depth (S i) rest'
  end.

(** The [while "}" in self.buffer] loop, bounded by a number of iterations;
    [None] means the bound was reached. A [JSONDecodeError] is passed over;
    any other exception of [json.loads] reaches the outer [except], which
    empties the buffer and leaves the loop. *)
Fixpoint feed_loop (fuel : nat) (buffer : text) : option (list Obj * text) :=
  if negb (contains "}" buffer) then Some ([], buffer)
  else
    match fuel with
    | O => None
    | S fuel' =>
        match find "{" buffer with
        | None => Some ([], [])
        | Some start =>
            match match_end 0 start (drop start buffer) with
            | Some end_ =>
                let json_str := slice start (end_ + 1) buffer in
                let buffer' := drop (end_ + 1) buffer in
                match json_loads json_str with
                | Parsed obj =>
                    '(objs, rest) ← feed_loop fuel' buffer';
                    Some (obj :: objs, rest)
                | DecodeError => feed_loop fuel' buffer'
                | OtherError => Some ([], [])
                end
            | None => Some ([], buffer)
            end
        end
    end.

(** [JsonFrameDecoder.feed] on the decoded text of a chunk: the objects
    handed to the callback, in order, and the buffer left behind. *)
Definition feed (buffer data : text) : option (list Obj * text) :=
  let buffer := buffer ++ data in
  feed_loop (length buffer) buffer.

(** ** [SerialPage.process_json_buffer] *)

(** The local variables of the scan over [enumerate(buf)]. *)
Record scan : Type := {
  start : option nat;
  depth : Z;
  in_str : bool;
  esc : bool;
  objs : list (nat * nat)
}.

Definition scan_init : scan :=
  {| start := None; depth := 0; in_str := false; esc := false; objs := [] |}.

(** The body of the scan at index [i], character [ch]. *)
Definition scan_char (st : scan) (i : nat) (ch : ascii) : scan :=
  if in_str st then
    if esc st then
      {| start := start st; depth := depth st; in_str := true; esc := false; objs := objs st |}
    else if is_char backslash ch then
      {| start := start st; depth := depth st; in_str := true; esc := true; objs := objs st |}
    else if is_char dquote ch then
      {| start := start st; depth := depth st; in_str := false; esc := esc st; objs := objs st |}
    else st
  else if is_char dquote ch then
    {| start := start st; depth := depth st; in_str := true; esc := esc st; objs := objs st |}
  else if is_char "{" ch then
    {| start := if depth st =? 0 then Some i else start st;
       depth := depth st + 1; in_str := in_str st; esc := esc st; objs := objs st |}
  else if is_char "}" ch then
    if depth st >? 0 then
      let depth' := depth st - 1 in
      {| start := start st; depth := depth'; in_str := in_str st; esc := esc st;
         objs := match start st with
                 | Some s => if depth' =? 0 then objs st ++ [(s, i)] else objs st
                 | None => objs st
                 end |}
    else st
  else st.

Fixpoint scan_from (st : scan) (i : nat) (rest : text) : scan :=
  match rest with
  | [] => st
  | ch :: rest' => scan_from (scan_char st i ch) (S i) rest'
  end.

(** [d["receive_time"] = datetime.now()...] on a parsed object. *)
Variable stamp : Obj -> Obj.

(** The loop [for s, e in objs]: the dictionaries emitted, in order, and
    whether [json.loads] raised something other than the [JSONDecodeError]
    that the loop catches, which ends the loop. *)
Fixpoint emit_spans (buf : text) (found : list (nat * nat)) : list Obj * bool :=
  match found with
  | [] => ([], false)
  | (s, e) :: found' =>
      match json_loads (slice s (e + 1) buf) with
      | Parsed d =>
          let '(emitted, raised) := emit_spans buf found' in (stamp d :: emitted, raised)
      | DecodeError => emit_spans buf found'
      | OtherError => ([], true)
      end
  end.

(** [process_json_buffer]: the dictionaries emitted, in order, and
    [self.json_buffer] after the call. An exception that leaves the loop
    leaves the function before the buffer is assigned. *)
Definition process_json_buffer (buf : text) : list Obj * text :=
  match buf with
  | [] => ([], buf)
  | _ =>
      let found := objs (scan_from scan_init 0 buf) in
      let '(emitted, raised) := emit_spans buf found in
      let rest :=
        match last found with
        | Some (_, last_consumed) => drop (last_consumed + 1) buf
        | None =>
            match rfind "{" buf with
            | Some idx => drop idx buf
            | None => []
            end
        end in
      (emitted, if raised then buf else rest)
  end.

(** The JSON path of [handle_data] on the decoded text of a chunk; its
    [except Exception] catches what [process_json_buffer] lets through. *)
Definition handle_json (json_buffer data : text) : list Obj * text :=
  process_json_buffer (json_buffer ++ data).

End Decoders.

(** ** The texts the decoders are fed *)

(** The inside of a quoted string: ordinary characters and backslash
    escapes, each escape taking the character after it. *)
Inductive str_body : text -> Prop :=
| sb_nil : str_body []
| sb_char c r : c <> dquote -> c <> backslash -> str_body r -> str_body (c :: r)
| sb_escape c r : str_body r -> str_body (backslash :: c :: r).

(** A run of JSON text in which every quoted string is closed and every
    brace outside a string is matched; braces inside strings are free. The
    members of any valid JSON object form such a run. *)
Inductive balanced : text -> Prop :=
| bal_nil : balanced []
| bal_char c r :
    c <> dquote -> c <> "{"%char -> c <> "}"%char -> balanced r -> balanced (c :: r)
| bal_str s r : str_body s -> balanced r -> balanced (dquote :: s ++ dquote :: r)
| bal_obj b r : balanced b -> balanced r -> balanced ("{"%char :: b ++ "}"%char :: r).

(** The text of one complete object. *)
Definition object_text (t : text) : Prop :=
  exists b, balanced b /\ t = "{"%char :: b ++ ["}"%char].

(** A run in which the braces match when quotes are not looked at. *)
Inductive nested : text -> Prop :=
| nest_nil : nested []
| nest_char c r : c <> "{"%char -> c <> "}"%char -> nested r -> nested (c :: r)
| nest_obj b r : nested b -> nested r -> nested ("{"%char :: b ++ "}"%char :: r).

(** The text of one object whose braces match without regard to quotes. *)
Definition plain_object_text (t : text) : Prop :=
  exists b, nested b /\ t = "{"%char :: b ++ ["}"%char].

Lemma is_char_ne (c ch : ascii) : ch <> c -> is_char c ch = false.
Proof. intros H. unfold is_char. by apply Ascii.eqb_neq. Qed.

Lemma is_char_eq (c : ascii) : is_char c c = true.
Proof. unfold is_char. apply Ascii.eqb_refl. Qed.

(** *** The quote-aware scan of [process_json_buffer] *)

Lemma scan_str_body (s : text) :
  str_body s ->
  forall (s0 : option nat) (d : Z) (o : list (nat * nat)) (i : nat) (r : text),
    scan_from {| start := s0; depth := d; in_str := true; esc := false; objs := o |}
              i (s ++ r)
    = scan_from {| start := s0; depth := d; in_str := true; esc := false; objs := o |}
                (i + length s) r.
Proof.
  induction 1 as [|c r' Hq Hb _ IH | c r' _ IH]; intros s0 d o i r.
  - cbn. by rewrite Nat.add_0_r.
  - cbn [app scan_from length]. unfold scan_char. cbn [in_str esc].
    rewrite (is_char_ne backslash c Hb), (is_char_ne dquote c Hq), IH.
    f_equal. lia.
  - cbn [app scan_from length].
    change (scan_char {| start := s0; depth := d; in_str := true; esc := false; objs := o |}
                      i backslash)
      with {| start := s0; depth := d; in_str := true; esc := true; objs := o |}.
    change (scan_char {| start := s0; depth := d; in_str := true; esc := true; objs := o |}
                      (S i) c)
      with {| start := s0; depth := d; in_str := true; esc := false; objs := o |}.
    rewrite IH. f_equal. lia.
Qed.

Lemma scan_balanced (b : text) :
  balanced b ->
  forall (s0 : option nat) (d : Z) (o : list (nat * nat)) (i : nat) (r : text),
    1 <= d ->
    scan_from {| start := s0; depth := d; in_str := false; esc := false; objs := o |}
              i (b ++ r)
    = scan_from {| start := s0; depth := d; in_str := false; esc := false; objs := o |}
                (i + length b) r.
Proof.
  induction 1 as [|c r' Hq Ho Hc _ IH | s r' Hs _ IH | b r' _ IHb _ IHr];
    intros s0 d o i r Hd.
  - cbn. by rewrite Nat.add_0_r.
  - cbn [app scan_from length]. unfold scan_char. cbn [in_str].
    rewrite (is_char_ne dquote c Hq), (is_char_ne "{" c Ho), (is_char_ne "}" c Hc), IH by lia.
    f_equal. lia.
  - cbn [app scan_from length]. unfold scan_char at 1. cbn [in_str esc start depth objs].
    rewrite is_char_eq, <- app_assoc, scan_str_body by assumption.
    cbn [app scan_from]. unfold scan_char at 1. cbn [in_str esc start depth objs].
    change (is_char backslash dquote) with false. rewrite is_char_eq, IH by lia.
    f_equal. rewrite length_app. cbn [length]. lia.
  - cbn [app scan_from length]. unfold scan_char at 1. cbn [in_str esc start depth objs].
    change (is_char dquote "{") with false. rewrite is_char_eq.
    replace (d =? 0) with false by (symmetry; apply Z.eqb_neq; lia).
    rewrite <- app_assoc, IHb by lia.
    cbn [app scan_from]. unfold scan_char at 1. cbn [in_str esc start depth objs].
    change (is_char dquote "}") with false. change (is_char "{" "}") with false.
    rewrite is_char_eq.
    replace (d + 1 >? 0) with true by (symmetry; apply Z.gtb_lt; lia).
    replace (d + 1 - 1) with d by lia.
    replace (d =? 0) with false by (symmetry; apply Z.eqb_neq; lia).
    replace (match s0 with Some _ => o | None => o end) with o by (by destruct s0).
    rewrite IHr by lia. f_equal. rewrite length_app. cbn [length]. lia.
Qed.

Lemma scan_object_text (b : text) :
  balanced b ->
  objs (scan_from scan_init 0 ("{"%char :: b ++ ["}"%char])) = [(0%nat, S (length b))].
Proof.
  intros Hb. cbn [scan_from]. unfold scan_init, scan_char at 1.
  cbn [in_str esc start depth objs].
  change (is_char dquote "{") with false. rewrite is_char_eq.
  change (0 =? 0) with true. change (0 + 1) with 1.
  rewrite scan_balanced by (assumption || lia).
  cbn [scan_from]. unfold scan_char. cbn [in_str esc start depth objs].
  change (is_char dquote "}") with false. change (is_char "{" "}") with false.
  rewrite is_char_eq. reflexivity.
Qed.

(** *** The brace count of [JsonFrameDecoder.feed] *)

Lemma match_end_nested (b : text) :
  nested b ->
  forall (d : Z) (i : nat) (r : text),
    1 <= d -> match_end d i (b ++ r) = match_end d (i + length b) r.
Proof.
  induction 1 as [|c r' Ho Hc _ IH | b r' _ IHb _ IHr]; intros d i r Hd.
  - cbn. by rewrite Nat.add_0_r.
  - cbn [app match_end length].
    rewrite (is_char_ne "{" c Ho), (is_char_ne "}" c Hc).
    replace (d =? 0) with false by (symmetry; apply Z.eqb_neq; lia).
    rewrite IH by lia. f_equal. lia.
  - cbn [app match_end length]. rewrite is_char_eq.
    replace (d + 1 =? 0) with false by (symmetry; apply Z.eqb_neq; lia).
    rewrite <- app_assoc, IHb by lia.
    cbn [app match_end]. change (is_char "{" "}") with false. rewrite is_char_eq.
    replace (d + 1 - 1) with d by lia.
    replace (d =? 0) with false by (symmetry; apply Z.eqb_neq; lia).
    rewrite IHr by lia. f_equal. rewrite length_app. cbn [length]. lia.
Qed.

(** Every call of [JsonFrameDecoder.feed] returns: each pass of its loop
    that does not leave it removes the span it found from the buffer. *)
Lemma feed_loop_total {Obj} (json_loads : text -> loaded Obj) (fuel : nat) :
  forall buffer : text,
    (length buffer <= fuel)%nat ->
    exists result, feed_loop json_loads fuel buffer = Some result.
Proof.
  induction fuel as [|fuel IH]; intros buffer Hlen.
  - destruct buffer; [|cbn in Hlen; lia]. by eexists.
  - cbn [feed_loop]. destruct (negb (contains "}" buffer)); [by eexists|].
    destruct (find "{" buffer) as [start_|]; [|by eexists].
    destruct (match_end 0 start_ (drop start_ buffer)) as [end_|]; [|by eexists].
    destruct (IH (drop (end_ + 1) buffer)) as [[objs_ rest] E].
    + rewrite length_drop. lia.
    + destruct (json_loads _); rewrite ?E; by eexists.
Qed.

Lemma feed_total {Obj} (json_loads : text -> loaded Obj) (buffer data : text) :
  exists result, feed json_loads buffer data = Some result.
Proof. unfold feed. by apply feed_loop_total. Qed.

Lemma contains_closing (b : text) : contains "}" (b ++ ["}"%char]) = true.
Proof.
  unfold contains. rewrite existsb_app. cbn. by rewrite orb_true_r.
Qed.

Lemma process_object_text {Obj} (json_loads : text -> loaded Obj) (stamp : Obj -> Obj)
    (t : text) (d : Obj) :
  object_text t -> json_loads t = Parsed d ->
  handle_json json_loads stamp [] t = ([stamp d], []).
Proof.
  intros (b & Hb & ->) Hd. unfold handle_json. rewrite app_nil_l.
  cbv beta iota delta [process_json_buffer].
  rewrite (scan_object_text b Hb). cbn [emit_spans last].
  replace (slice 0 (S (length b) + 1) ("{"%char :: b ++ ["}"%char]))
    with ("{"%char :: b ++ ["}"%char]).
  2:{ unfold slice. rewrite drop_0, take_ge; [reflexivity|].
      cbn [length]. rewrite length_app. cbn [length]. lia. }
  rewrite Hd. cbn. f_equal. apply drop_ge.
  cbn [length]. rewrite length_app. cbn [length]. lia.
Qed.

Lemma feed_plain_object_text {Obj} (json_loads : text -> loaded Obj) (t : text) (d : Obj) :
  plain_object_text t -> json_loads t = Parsed d ->
  feed json_loads [] t = Some ([d], []).
Proof.
  intros (b & Hb & ->) Hd. unfold feed. rewrite app_nil_l.
  assert (Hlen : length ("{"%char :: b ++ ["}"%char]) = S (S (length b))).
  { cbn [length]. rewrite length_app. cbn [length]. lia. }
  rewrite Hlen. cbn [feed_loop].
  change (contains "}" ("{"%char :: b ++ ["}"%char])) with (contains "}" (b ++ ["}"%char])).
  rewrite contains_closing. cbn [negb find]. change (is_char "{" "{") with true.
  cbv iota. rewrite drop_0. cbn [match_end]. change (is_char "{" "{") with true.
  cbv iota. change (0 + 1 =? 0) with false. cbv iota.
  rewrite (match_end_nested b Hb) by lia.
  cbn [match_end]. change (is_char "{" "}") with false. change (is_char "}" "}") with true.
  cbv iota. change (0 + 1 - 1 =? 0) with true. cbv iota.
  replace (slice 0 (1 + length b + 1) ("{"%char :: b ++ ["}"%char]))
    with ("{"%char :: b ++ ["}"%char])
    by (unfold slice; rewrite drop_0, take_ge; [reflexivity | rewrite Hlen; lia]).
  rewrite (drop_ge ("{"%char :: b ++ ["}"%char])) by (rewrite Hlen; lia).
  rewrite Hd. destruct (length b); reflexivity.
Qed.

(** For the text of a complete JSON object that [json.loads] parses: the
    monitor's [process_json_buffer], whose scan skips quoted strings and
    honours backslash escapes, emits exactly that object and empties the
    buffer, whatever braces the strings hold; the [JsonFrameDecoder] of
    [DataDecoders], which counts every brace, emits it when the braces of
    the text match without regard to quotes. *)
Lemma json_object_emitted {Obj} (json_loads : text -> loaded Obj) (stamp : Obj -> Obj)
    (t : text) (d : Obj) :
  json_loads t = Parsed d ->
  (object_text t -> handle_json json_loads stamp [] t = ([stamp d], [])) /\
  (plain_object_text t -> feed json_loads [] t = Some ([d], [])).
Proof.
  intros Hd. split; intros Ht.
  - by apply process_object_text.
  - by apply feed_plain_object_text.
Qed.

(** The text of the object with the one member [a], whose value is the
    string made of a closing brace. *)
Definition brace_in_string : text :=
  ["{"; dquote; "a"; dquote; ":"; dquote; "}"; dquote; "}"]%char.

(** The text of an object whose member [a] is the object with member [b]
    equal to 1. *)
Definition nested_object : text :=
  ["{"; dquote; "a"; dquote; ":"; "{"; dquote; "b"; dquote; ":"; "1"; "}"; "}"]%char.

Lemma brace_in_string_object : object_text brace_in_string.
Proof.
  exists [dquote; "a"; dquote; ":"; dquote; "}"; dquote]%char. split; [|reflexivity].
  apply (bal_str ["a"%char]); [by repeat constructor|].
  apply bal_char; [done..|].
  apply (bal_str ["}"%char] []); [by repeat constructor | constructor].
Qed.

Lemma nested_object_plain : plain_object_text nested_object /\ object_text nested_object.
Proof.
  split.
  - exists [dquote; "a"; dquote; ":"; "{"; dquote; "b"; dquote; ":"; "1"; "}"]%char.
    split; [|reflexivity].
    do 4 (apply nest_char; [done..|]).
    apply (nest_obj [dquote; "b"; dquote; ":"; "1"]%char []); [|constructor].
    by repeat (apply nest_char; [done..|]); constructor.
  - exists [dquote; "a"; dquote; ":"; "{"; dquote; "b"; dquote; ":"; "1"; "}"]%char.
    split; [|reflexivity].
    apply (bal_str ["a"%char]); [by repeat constructor|].
    apply bal_char; [done..|].
    apply (bal_obj [dquote; "b"; dquote; ":"; "1"]%char []); [|constructor].
    apply (bal_str ["b"%char]); [by repeat constructor|].
    by repeat (apply bal_char; [done..|]); constructor.
Qed.

(** [json.loads] on the two texts above and on their pieces, with the
    texts themselves standing for the parsed objects. *)
Definition sample_loads (t : text) : loaded text :=
  if decide (t = brace_in_string \/ t = nested_object) then Parsed t else DecodeError.

Example nested_object_emitted :
  handle_json sample_loads id [] nested_object = ([nested_object], []) /\
  feed sample_loads [] nested_object = Some ([nested_object], []).
Proof.
  split; apply (json_object_emitted sample_loads id nested_object nested_object);
    reflexivity || apply nested_object_plain.
Qed.

(** C4. An object whose string value holds a closing brace, the text
    [brace_in_string], which [json.loads] parses while it rejects the first
    7 characters of it. The monitor's [process_json_buffer] skips the quoted
    brace and emits the object, as the specification has it. The brace count
    of [JsonFrameDecoder.feed] stops at the brace inside the string and hands
    those 7 characters to [json.loads]; nothing is emitted and the rest of
    the text is dropped from the buffer. *)
Theorem frame_decoder_stops_at_quoted_brace {Obj} (json_loads : text -> loaded Obj)
    (stamp : Obj -> Obj) (d : Obj) :
  json_loads brace_in_string = Parsed d ->
  json_loads (take 7 brace_in_string) = DecodeError ->
  object_text brace_in_string /\
  handle_json json_loads stamp [] brace_in_string = ([stamp d], []) /\
  match_end 0 0 brace_in_string = Some 6%nat /\
  feed json_loads [] brace_in_string = Some ([], []).
Proof.
  intros Hd Hbad. split; [apply brace_in_string_object|]. split; [|split].
  - apply process_object_text; [apply brace_in_string_object | exact Hd].
  - reflexivity.
  - vm_compute in Hbad |- *. by rewrite Hbad.
Qed.

Lemma frame_decoder_stops_at_quoted_brace_witness :
  object_text brace_in_string /\
  handle_json sample_loads id [] brace_in_string = ([brace_in_string], []) /\
  match_end 0 0 brace_in_string = Some 6%nat /\
  feed sample_loads [] brace_in_string = Some ([], []).
Proof.
  apply (frame_decoder_stops_at_quoted_brace sample_loads id brace_in_string);
    vm_compute; reflexivity.
Defined.

End JsonFrame.

(** * Serial receive worker *)

Module Worker.

(** The fields of [SerialWorker] that [read_data] reads and writes. *)
Record worker : Type := {
  is_bluetooth : bool;
  base_interval : Z;
  current_interval : Z;
  running : bool
}.

(** [SerialWorker.__init__] *)
Definition init (is_bluetooth : bool) : worker :=
  let base := if is_bluetooth then 20 else 5 in
  {| is_bluetooth := is_bluetooth;
     base_interval := base;
     current_interval := base;
     running := false |}.

(** What one poll of the port finds: bytes waiting, nothing waiting, or an
    exception raised by the port. *)
Inductive poll : Type := Data | Empty | ReadError.

(** One iteration of the loop of [read_data]: the new state and the argument
    of [QThread.msleep], if the iteration reaches it. *)
Definition poll_once (w : worker) (p : poll) : worker * option Z :=
  match p with
  | Data =>
      let w' := {| is_bluetooth := is_bluetooth w; base_interval := base_interval w;
                   current_interval := base_interval w; running := running w |} in
      (w', Some (current_interval w'))
  | Empty =>
      let w' := {| is_bluetooth := is_bluetooth w; base_interval := base_interval w;
                   current_interval := Z.min (current_interval w * 2) 500;
                   running := running w |} in
      (w', Some (current_interval w'))
  | ReadError =>
      ({| is_bluetooth := is_bluetooth w; base_interval := base_interval w;
          current_interval := current_interval w; running := false |}, None)
  end.

(** [read_data] over the outcomes of the successive polls; the loop is left
    when [running] is false. The result is the final state and the sleeps. *)
Fixpoint read_data (w : worker) (polls : list poll) : worker * list Z :=
  match polls with
  | [] => (w, [])
  | p :: rest =>
      if running w then
        let '(w', slept) := poll_once w p in
        let '(w'', sleeps) := read_data w' rest in
        (w'', from_option (fun s => [s]) [] slept ++ sleeps)
      else (w, [])
  end.

(** [start] *)
Definition start (w : worker) (polls : list poll) : worker * list Z :=
  read_data {| is_bluetooth := is_bluetooth w; base_interval := base_interval w;
               current_interval := current_interval w; running := true |} polls.

Definition interval_ok (w : worker) : Prop :=
  base_interval w = (if is_bluetooth w then 20 else 5) /\
  base_interval w <= current_interval w <= 500.

Lemma init_ok (bt : bool) : interval_ok (init bt).
Proof. unfold interval_ok, init; cbn. destruct bt; lia. Qed.

Lemma poll_once_ok (w : worker) (p : poll) :
  interval_ok w ->
  interval_ok (poll_once w p).1 /\
  forall s, (poll_once w p).2 = Some s -> base_interval w <= s <= 500.
Proof.
  unfold interval_ok. intros [Hb Hc].
  destruct p; cbn; (split; [split; [assumption|] | intros s Hs; inversion Hs; subst s]);
    destruct (is_bluetooth w); lia.
Qed.

Lemma read_data_ok (polls : list poll) :
  forall w, interval_ok w ->
    interval_ok (read_data w polls).1 /\
    base_interval (read_data w polls).1 = base_interval w /\
    Forall (fun s => base_interval w <= s <= 500) (read_data w polls).2.
Proof.
  induction polls as [|p rest IH]; intros w Hw; cbn [read_data].
  - cbn. split; [exact Hw|]. split; [reflexivity | constructor].
  - destruct (running w); [|cbn; split; [exact Hw|]; split; [reflexivity | constructor]].
    destruct (poll_once_ok w p Hw) as [Hw' Hs].
    assert (Hbase : base_interval (poll_once w p).1 = base_interval w) by (by destruct p).
    destruct (poll_once w p) as [w' slept]. cbn [fst snd] in *.
    specialize (IH w' Hw'). destruct (read_data w' rest) as [w'' sleeps].
    cbn [fst snd] in *. destruct IH as (Hok & Hb & Hall). rewrite Hbase in *.
    repeat split; try apply Hok; [assumption|].
    apply Forall_app. split; [|assumption].
    destruct slept as [s|]; cbn; [|constructor].
    constructor; [by apply Hs | constructor].
Qed.

(** C9. Whatever the polls find, the polling interval of the receive worker
    stays between its base value (20 ms for a Bluetooth link, 5 ms for a wired
    one) and 500 ms: so does every sleep of the loop and the interval the
    loop ends with; a poll that finds nothing doubles the interval up to
    500 ms, and a poll that reads data sets it back to the base value. *)
Theorem polling_interval_bounded (bt : bool) (polls : list poll) :
  let base := if bt then 20 else 5 in
  base_interval (init bt) = base /\
  (forall w, current_interval (poll_once w Empty).1 = Z.min (current_interval w * 2) 500) /\
  (forall w, current_interval (poll_once w Data).1 = base_interval w) /\
  base <= current_interval (start (init bt) polls).1 <= 500 /\
  Forall (fun s => base <= s <= 500) (start (init bt) polls).2.
Proof.
  cbn zeta. split; [reflexivity|]. split; [reflexivity|]. split; [reflexivity|].
  unfold start.
  set (w0 := {| is_bluetooth := _; base_interval := _; current_interval := _; running := true |}).
  assert (H0 : interval_ok w0) by (unfold interval_ok, w0; cbn; destruct bt; lia).
  destruct (read_data_ok polls w0 H0) as ((_ & Hc) & Hb & Hall).
  rewrite Hb in Hc. split; [exact Hc | exact Hall].
Qed.

Example backoff_trace :
  (start (init false) [Empty; Empty; Empty; Empty; Empty; Empty; Empty; Data; Empty]).2
  = [10; 20; 40; 80; 160; 320; 500; 5; 10].
Proof. reflexivity. Qed.

End Worker.

(** * Filtering pipeline of the data-monitoring page *)

Module Filters.

(** ** [DataMonitorPage.KalmanFilter] *)

Record KalmanFilter : Type := {
  Q : float;
  R : float;
  x : option float;
  P : float
}.

(** The covariance that [update] computes from the second observation on,
    over any arithmetic: the floats of the code, or the real numbers. *)
Definition covariance_update {num : Type} (add sub mul div : num -> num -> num) (one : num)
    (Q R P : num) : num :=
  let P_pred := add P Q in
  let K := div P_pred (add P_pred R) in
  mul (sub one K) P_pred.

(** [KalmanFilter.__init__] *)
Definition kalman_init (Q R : float) : KalmanFilter :=
  {| Q := Q; R := R; x := None; P := 0.1 |}.

(** [KalmanFilter.update]: the new state and the returned estimate, or the
    [ZeroDivisionError] of the division by [P_pred + R] when that is zero;
    nothing is written before the division. *)
Definition update (k : KalmanFilter) (z : float) : result (KalmanFilter * float) :=
  match x k with
  | None => Ok ({| Q := Q k; R := R k; x := Some z; P := P k |}, z)
  | Some x0 =>
      let P_pred := (P k + Q k)%float in
      if (P_pred + R k =? 0)%float then Raise ZeroDivisionError
      else
        let K := (P_pred / (P_pred + R k))%float in
        let x1 := (x0 + K * (z - x0))%float in
        let P1 := ((1 - K) * P_pred)%float in
        Ok ({| Q := Q k; R := R k; x := Some x1; P := P1 |}, x1)
  end.

Lemma update_covariance (k : KalmanFilter) (z x0 : float) :
  x k = Some x0 ->
  (P k + Q k + R k =? 0)%float = false ->
  (fun r : KalmanFilter * float => P r.1) <$> update k z
  = Ok (covariance_update PrimFloat.add PrimFloat.sub PrimFloat.mul PrimFloat.div 1%float
          (Q k) (R k) (P k)).
Proof. intros H Hz. unfold update. rewrite H. cbv zeta. rewrite Hz. reflexivity. Qed.

(** The filter after [n] calls of [update] with the same observation, if
    none of them raised. *)
Fixpoint fed (n : nat) (z : float) (k : KalmanFilter) : result KalmanFilter :=
  match n with
  | O => Ok k
  | S n' => k' ← fed n' z k; fst <$> update k' z
  end.

(** ** [DataMonitorPage._apply_filter] *)

(** The state of the page that [_apply_filter] reads and writes. *)
Record page : Type := {
  filter_type : FilterType;
  window_size : Z;
  kalman_Q : float;
  kalman_R : float;
  filter_buffers : gmap string (list float);
  kalman_filters : gmap string KalmanFilter
}.

Definition channels : list string := ["uric"; "ascorbic"; "glucose"; "voltage"].

(** [_init_kalman_filters] *)
Definition _init_kalman_filters (pg : page) : page :=
  {| filter_type := filter_type pg; window_size := window_size pg;
     kalman_Q := kalman_Q pg; kalman_R := kalman_R pg;
     filter_buffers := filter_buffers pg;
     kalman_filters :=
       list_to_map ((fun key => (key, kalman_init (kalman_Q pg) (kalman_R pg))) <$> channels) |}.

(** The filter state set up by [DataMonitorPage.__init__]. *)
Definition page_init (ft : FilterType) (window_size : Z) (kalman_Q kalman_R : float) : page :=
  let pg := {| filter_type := ft; window_size := window_size;
               kalman_Q := kalman_Q; kalman_R := kalman_R;
               filter_buffers := list_to_map ((fun key => (key, [])) <$> channels);
               kalman_filters := ∅ |} in
  if decide (ft = KALMAN) then _init_kalman_filters pg else pg.

(** [sorted] on a list of floats without NaN: a stable insertion sort on
    [<], which gives what every stable sort gives on values that [<] orders.
    On a list that holds a NaN, the order that Python's [sorted] leaves
    depends on the comparisons its merge sort happens to make, which this
    definition does not follow: there only the length and the elements of
    the result are those of Python's. *)
Fixpoint insert_sorted (v : float) (l : list float) : list float :=
  match l with
  | [] => [v]
  | y :: r => if (v <? y)%float then v :: y :: r else y :: insert_sorted v r
  end.

Definition sorted (l : list float) : list float :=
  foldl (fun acc v => insert_sorted v acc) [] l.

(** [buf[-w:]] for [0 < w <= len(buf)] *)
Definition last_n {A} (w : nat) (buf : list A) : list A := drop (length buf - w) buf.

Section ApplyFilter.
(** The built-in [sum] over a list of floats; how it rounds is the
    interpreter's business (plain left-to-right addition, or compensated
    summation in recent interpreters). *)
Variable fsum : list float -> float.

Definition with_buffer (pg : page) (key : string) (buf : list float) : page :=
  {| filter_type := filter_type pg; window_size := window_size pg;
     kalman_Q := kalman_Q pg; kalman_R := kalman_R pg;
     filter_buffers := <[key := buf]> (filter_buffers pg);
     kalman_filters := kalman_filters pg |}.

Definition with_kalman (pg : page) (key : string) (k : KalmanFilter) : page :=
  {| filter_type := filter_type pg; window_size := window_size pg;
     kalman_Q := kalman_Q pg; kalman_R := kalman_R pg;
     filter_buffers := filter_buffers pg;
     kalman_filters := <[key := k]> (kalman_filters pg) |}.

Definition _apply_filter (pg : page) (key : string) (raw_value : float)
  : result (page * float) :=
  let ft := filter_type pg in
  if decide (ft = KALMAN) then
    let pg := if decide (is_Some (kalman_filters pg !! key)) then pg
              else _init_kalman_filters pg in
    match kalman_filters pg !! key with
    | None => Raise KeyError
    | Some k => '(k', out) ← update k raw_value; Ok (with_kalman pg key k', out)
    end
  else
    match filter_buffers pg !! key with
    | None => Raise KeyError
    | Some buf =>
        let buf := buf ++ [raw_value] in
        let max_buf := window_size pg * 2 in
        let buf := if Z.of_nat (length buf) >? max_buf
                   then drop (Z.to_nat (Z.of_nat (length buf) - max_buf)) buf
                   else buf in
        let pg := with_buffer pg key buf in
        if decide (ft = NONE) then Ok (pg, raw_value)
        else
          let w := Z.min (window_size pg) (Z.of_nat (length buf)) in
          if w <=? 0 then Ok (pg, raw_value)
          else
            let window := last_n (Z.to_nat w) buf in
            match ft with
            | MOVING_AVG => Ok (pg, (fsum window / float_of_int w)%float)
            | MEDIAN =>
                let s := sorted window in
                match s !! (length s / 2)%nat with
                | Some m => Ok (pg, m)
                | None => Raise IndexError
                end
            | _ => Ok (pg, raw_value)
            end
    end.

(** One channel fed a sequence of values: the successive outputs. *)
Fixpoint filter_all (pg : page) (key : string) (values : list float)
  : result (page * list float) :=
  match values with
  | [] => Ok (pg, [])
  | v :: rest =>
      '(pg1, out) ← _apply_filter pg key v;
      '(pg2, outs) ← filter_all pg1 key rest;
      Ok (pg2, out :: outs)
  end.

End ApplyFilter.

(** The outputs of a run, when no exception was raised. *)
Definition outputs_of (r : result (page * list float)) : option (list float) :=
  match r with
  | Ok (_, outs) => Some outs
  | Raise _ => None
  end.

(** [KalmanFilter()] with the default [Q=0.01], [R=0.1]. *)
Definition kalman_default : KalmanFilter := kalman_init 0.01 0.1.

(** The covariance at which the filter fed a constant observation settles in
    binary64 arithmetic. *)
Definition P_settled : float := 0.027015621187164243%float.

(** ** Median filter on the sequence 5, 1, 9, 2, 8 *)

(** Two floats are different when one of them equals itself and does not
    compare equal to the other. *)
Lemma float_discr (a b : float) :
  (a =? a)%float = true -> (a =? b)%float = false -> a <> b.
Proof. intros Ha Hb E. subst b. congruence. Qed.

Definition median_run (fsum : list float -> float) (kQ kR : float) (key : string)
  : option (list float) :=
  outputs_of (filter_all fsum (page_init MEDIAN 3 kQ kR) key [5; 1; 9; 2; 8]%float).

(** C3, as the code has it. From an empty history, the MEDIAN filter with
    [window_size = 3] fed 5, 1, 9, 2, 8 returns 5, 5, 5, 2, 8 on every
    channel: each output is the element at index [len(s) // 2] of the sorted
    window of the (up to) 3 most recent values, the middle one of three and
    the upper one of two. *)
Theorem median_window3_outputs (fsum : list float -> float) (kQ kR : float) :
  Forall (fun key => median_run fsum kQ kR key = Some [5; 5; 5; 2; 8]%float) channels /\
  sorted [5]%float = [5]%float /\
  sorted [5; 1]%float = [1; 5]%float /\
  sorted [5; 1; 9]%float = [1; 5; 9]%float /\
  sorted [1; 9; 2]%float = [1; 2; 9]%float /\
  sorted [9; 2; 8]%float = [2; 8; 9]%float.
Proof.
  split; [|repeat split; vm_compute; reflexivity].
  repeat constructor; vm_compute; reflexivity.
Qed.

(** C3, as the specification words it: the outputs are not 5, 1, 5, 1, 8. *)
Lemma median_window3_not_as_specified :
  (forall fsum kQ kR, median_run fsum kQ kR "glucose" = Some [5; 5; 5; 2; 8]%float) /\
  (forall fsum kQ kR, median_run fsum kQ kR "glucose" <> Some [5; 1; 5; 1; 8]%float).
Proof.
  assert (H : forall fsum kQ kR,
             median_run fsum kQ kR "glucose" = Some [5; 5; 5; 2; 8]%float)
    by (intros; vm_compute; reflexivity).
  split; [exact H|]. intros fsum kQ kR E. rewrite H in E.
  pose proof (f_equal (fun o => match o with
                                | Some (_ :: second :: _) => second
                                | _ => 0%float
                                end) E) as E2.
  cbn beta iota in E2. revert E2. by apply float_discr.
Qed.

(** ** Kalman filter fed the constant observation 100 *)

(** What holds of the filter after [n] observations: no call has raised,
    from the first observation on the estimate is 100, and the covariance is
    positive. *)
Definition observed_ok (n : nat) : Prop :=
  x <$> fed (S n) 100 kalman_default = Ok (Some 100%float) /\
  exists p, P <$> fed n 100 kalman_default = Ok p /\ (0 <? p)%float = true.

(** The covariance after observation [n + 1] is below the one before it. *)
Definition decreases_at (n : nat) : Prop :=
  exists p q,
    P <$> fed (S n) 100 kalman_default = Ok p /\
    P <$> fed n 100 kalman_default = Ok q /\
    (p <? q)%float = true.

Lemma transient_checked :
  Forall observed_ok (seq 0 61) /\ Forall decreases_at (seq 1 59).
Proof.
  split.
  - repeat (constructor;
            [split; [vm_compute; reflexivity | eexists; split; vm_compute; reflexivity]|]);
      constructor.
  - repeat (constructor;
            [eexists _, _; split; [|split]; vm_compute; reflexivity|]);
      constructor.
Qed.

(** The state in which the filter settles. *)
Definition settled : KalmanFilter :=
  {| Q := 0.01; R := 0.1; x := Some 100%float; P := P_settled |}.

Lemma settled_fixed_point :
  fed 60 100 kalman_default = Ok settled /\
  update settled 100 = Ok (settled, 100%float).
Proof. split; vm_compute; reflexivity. Qed.

Lemma fed_S (n : nat) (z : float) (k : KalmanFilter) :
  fed (S n) z k = (k' ← fed n z k; fst <$> update k' z).
Proof. reflexivity. Qed.

Lemma fed_settled (n : nat) :
  fed (60 + n) 100 kalman_default = Ok settled.
Proof.
  induction n as [|n IH]; [rewrite Nat.add_0_r; exact (proj1 settled_fixed_point)|].
  rewrite Nat.add_succ_r, fed_S, IH. cbn [mbind result_bind].
  rewrite (proj2 settled_fixed_point). reflexivity.
Qed.

Lemma observed_always (n : nat) : observed_ok n.
Proof.
  destruct (le_lt_dec n 60) as [Hle | Hgt].
  - destruct transient_checked as [H _]. rewrite Forall_forall in H.
    apply H, list_elem_of_In, in_seq. lia.
  - replace n with (60 + (n - 60))%nat by lia. unfold observed_ok.
    rewrite <- Nat.add_succ_r, !fed_settled.
    split; [reflexivity|]. exists P_settled. split; [reflexivity | vm_compute; reflexivity].
Qed.

(** C6, as the code has it. With [Q = 0.01], [R = 0.1] and the constant
    observation 100, no call of [update] raises; the first observation sets
    the estimate to 100 and leaves [P] at 0.1; the estimate is exactly 100
    after every observation; [P] is positive after every observation; each
    of the observations 2 to 60 makes [P] strictly smaller; and from
    observation 60 on [P] keeps the one value [P_settled], the fixed point of
    the update in binary64. *)
Theorem kalman_constant_observation :
  x <$> fed 1 100 kalman_default = Ok (Some 100%float) /\
  P <$> fed 1 100 kalman_default = Ok (P kalman_default) /\
  (forall n, x <$> fed (S n) 100 kalman_default = Ok (Some 100%float)) /\
  (forall n, exists p, P <$> fed n 100 kalman_default = Ok p /\ (0 <? p)%float = true) /\
  Forall decreases_at (seq 1 59) /\
  (forall n, P <$> fed (60 + n) 100 kalman_default = Ok P_settled).
Proof.
  split; [reflexivity|]. split; [reflexivity|].
  split; [intros n; apply (observed_always n)|].
  split; [intros n; apply (observed_always n)|].
  split; [apply transient_checked|].
  intros n. rewrite fed_settled. reflexivity.
Qed.

(** C6, as the specification words it: the covariance does not strictly
    decrease on every update. Observation 61 leaves it where observation 60
    put it. *)
Lemma kalman_covariance_stalls :
  P <$> fed 60 100 kalman_default = Ok P_settled /\
  P <$> fed 61 100 kalman_default = Ok P_settled /\
  (P_settled <? P_settled)%float = false.
Proof. repeat split; vm_compute; reflexivity. Qed.

End Filters.

(** * The covariance of the Kalman filter in exact arithmetic

    Over the real numbers the covariance update with [Q = 0.01], [R = 0.1]
    started at 0.1 decreases strictly at every step and stays positive: that
    the covariance of the code stops decreasing is the rounding of binary64,
    where the update has a fixed point that the covariance reaches. *)

Module IdealKalman.

Import Stdlib.Reals.Reals Stdlib.micromega.Lra.
Local Open Scope R_scope.

Definition covariance_step (p : R) : R :=
  Filters.covariance_update Rplus Rminus Rmult Rdiv 1 (1 / 100) (1 / 10) p.

(** The covariance after [n] updates that follow the first observation. *)
Fixpoint covariance (n : nat) : R :=
  match n with
  | O => 1 / 10
  | S n' => covariance_step (covariance n')
  end.

(** The covariances above the positive fixed point of the step, the root of
    [p * p + p / 100 = 1 / 1000]. *)
Definition above_fixed_point (p : R) : Prop :=
  0 < p /\ 1 / 1000 < p * p + p / 100.

Lemma step_decreases (p : R) :
  above_fixed_point p ->
  covariance_step p < p /\ above_fixed_point (covariance_step p).
Proof.
  intros [Hp Hq]. unfold covariance_step, Filters.covariance_update. cbv zeta.
  assert (E : (1 - (p + 1 / 100) / (p + 1 / 100 + 1 / 10)) * (p + 1 / 100)
              = (p + 1 / 100) / 10 / (p + 1 / 100 + 1 / 10)) by (field; lra).
  rewrite E. clear E.
  set (a := p + 1 / 100) in *.
  assert (Ha : 0 < a) by (unfold a; lra).
  split.
  - apply Rmult_lt_reg_r with (a + 1 / 10); [lra|].
    unfold Rdiv at 1. rewrite Rmult_assoc, Rinv_l by lra. unfold a in *. nra.
  - unfold above_fixed_point. split.
    + apply Rdiv_lt_0_compat; lra.
    + assert (Hsq : 0 < (a + 1 / 10) * (a + 1 / 10)) by nra.
      apply Rmult_lt_reg_r with ((a + 1 / 10) * (a + 1 / 10)); [exact Hsq|].
      replace ((a / 10 / (a + 1 / 10) * (a / 10 / (a + 1 / 10)) + a / 10 / (a + 1 / 10) / 100)
               * ((a + 1 / 10) * (a + 1 / 10)))
        with (a / 10 * (a / 10) + a / 10 / 100 * (a + 1 / 10)) by (field; lra).
      unfold a in *. nra.
Qed.

Lemma covariance_above (n : nat) : above_fixed_point (covariance n).
Proof.
  induction n as [|n IH]; [unfold above_fixed_point; cbn; lra|].
  cbn [covariance]. by apply step_decreases.
Qed.

Lemma covariance_strictly_decreasing (n : nat) :
  covariance (S n) < covariance n /\ 0 < covariance (S n).
Proof.
  cbn [covariance].
  destruct (step_decreases _ (covariance_above n)) as [Hlt [Hpos _]]. by split.
Qed.

End IdealKalman.

(** * CV-cycle segmentation of the voltage-glucose buffer *)

Module CVCycles.

(** An element [(v, g)] of [self.voltage_glucose_data]. *)
Definition point : Type := float * float.

(** The local variables of [_build_cv_cycles] that live across iterations. *)
Record walk : Type := {
  cycles : list (list point);
  current_cycle : list point;
  prev : point;
  current_dir : option Z
}.

(** The body of [for i in range(1, len(data))] at the point [data[i]]. *)
Definition visit (dv_threshold : float) (min_points : nat) (st : walk) (p : point) : walk :=
  let dv := (p.1 - (prev st).1)%float in
  if (abs dv <? dv_threshold)%float then
    {| cycles := cycles st; current_cycle := current_cycle st ++ [p];
       prev := p; current_dir := current_dir st |}
  else
    let step_dir := if (0 <? dv)%float then 1 else -1 in
    match current_dir st with
    | None =>
        {| cycles := cycles st; current_cycle := current_cycle st ++ [p];
           prev := p; current_dir := Some step_dir |}
    | Some dir =>
        if step_dir =? dir then
          {| cycles := cycles st; current_cycle := current_cycle st ++ [p];
             prev := p; current_dir := current_dir st |}
        else
          {| cycles := if (min_points <=? length (current_cycle st))%nat
                       then cycles st ++ [current_cycle st] else cycles st;
             current_cycle := [prev st; p];
             prev := p; current_dir := Some step_dir |}
    end.

Definition _build_cv_cycles (dv_threshold : float) (min_points : nat) (data : list point)
  : list (list point) :=
  match data with
  | [] | [_] => []
  | first :: rest =>
      let st := foldl (visit dv_threshold min_points)
                      {| cycles := []; current_cycle := [first];
                         prev := first; current_dir := None |} rest in
      if (min_points <=? length (current_cycle st))%nat
      then cycles st ++ [current_cycle st] else cycles st
  end.

(** ** A sweep in one direction followed by a sweep in the other *)

(** The direction the loop reads off a voltage difference. *)
Definition step_dir_of (dv : float) : Z := if (0 <? dv)%float then 1 else -1.

(** From [p] to [q] the voltage moves by at least the threshold, in
    direction [dir]. *)
Definition moves (dv_threshold : float) (dir : Z) (p q : point) : Prop :=
  (abs (q.1 - p.1) <? dv_threshold)%float = false /\ step_dir_of (q.1 - p.1)%float = dir.

(** Every step of the points [l], entered from [p], moves in direction [dir]. *)
Inductive run (dv_threshold : float) (dir : Z) : point -> list point -> Prop :=
| run_nil p : run dv_threshold dir p []
| run_cons p q l :
    moves dv_threshold dir p q -> run dv_threshold dir q l ->
    run dv_threshold dir p (q :: l).

Lemma visit_same_dir (dv_threshold : float) (min_points : nat) (dir : Z)
    (cs : list (list point)) (cur : list point) (p q : point) :
  moves dv_threshold dir p q ->
  visit dv_threshold min_points
        {| cycles := cs; current_cycle := cur; prev := p; current_dir := Some dir |} q
  = {| cycles := cs; current_cycle := cur ++ [q]; prev := q; current_dir := Some dir |}.
Proof.
  intros [Hbig Hdir]. unfold visit. cbn [prev current_dir cycles current_cycle].
  rewrite Hbig. fold (step_dir_of (q.1 - p.1)). rewrite Hdir, Z.eqb_refl. reflexivity.
Qed.

Lemma visit_first_dir (dv_threshold : float) (min_points : nat) (dir : Z)
    (cs : list (list point)) (cur : list point) (p q : point) :
  moves dv_threshold dir p q ->
  visit dv_threshold min_points
        {| cycles := cs; current_cycle := cur; prev := p; current_dir := None |} q
  = {| cycles := cs; current_cycle := cur ++ [q]; prev := q; current_dir := Some dir |}.
Proof.
  intros [Hbig Hdir]. unfold visit. cbn [prev current_dir cycles current_cycle].
  rewrite Hbig. fold (step_dir_of (q.1 - p.1)). rewrite Hdir. reflexivity.
Qed.

Lemma visit_reversal (dv_threshold : float) (min_points : nat) (dir dir' : Z)
    (cs : list (list point)) (cur : list point) (p q : point) :
  dir' <> dir ->
  moves dv_threshold dir' p q ->
  visit dv_threshold min_points
        {| cycles := cs; current_cycle := cur; prev := p; current_dir := Some dir |} q
  = {| cycles := if (min_points <=? length cur)%nat then cs ++ [cur] else cs;
       current_cycle := [p; q]; prev := q; current_dir := Some dir' |}.
Proof.
  intros Hne [Hbig Hdir]. unfold visit. cbn [prev current_dir cycles current_cycle].
  rewrite Hbig. fold (step_dir_of (q.1 - p.1)). rewrite Hdir.
  destruct (Z.eqb_spec dir' dir); [contradiction | reflexivity].
Qed.

(** A run in the current direction is appended to the current cycle. *)
Lemma foldl_visit_run (dv_threshold : float) (min_points : nat) (dir : Z) (l : list point) :
  forall (cs : list (list point)) (cur : list point) (p : point),
    run dv_threshold dir p l ->
    foldl (visit dv_threshold min_points)
          {| cycles := cs; current_cycle := cur; prev := p; current_dir := Some dir |} l
    = {| cycles := cs; current_cycle := cur ++ l;
         prev := default p (last l); current_dir := Some dir |}.
Proof.
  induction l as [|q l IH]; intros cs cur p Hrun.
  - cbn. by rewrite app_nil_r.
  - inversion Hrun as [|? ? ? Hmove Hrest]; subst.
    cbn [foldl]. rewrite (visit_same_dir _ _ _ _ _ _ _ Hmove), (IH _ _ _ Hrest).
    rewrite <- app_assoc. cbn [app]. f_equal.
    destruct l as [|q' l']; [reflexivity|]. rewrite last_cons_cons.
    destruct (last (q' :: l')) eqn:E; [reflexivity|].
    apply last_None in E. discriminate E.
Qed.

(** A sweep of at least [min_points] points in one direction followed by a
    sweep of at least [min_points - 1] further points in another direction
    is cut into two cycles; the second starts with the last point of the
    first. *)
Lemma two_sweeps (dv_threshold : float) (min_points : nat) (dir dir' : Z)
    (first q : point) (up : list point) (r : point) (down : list point) :
  dir' <> dir ->
  run dv_threshold dir first (q :: up) ->
  run dv_threshold dir' (default q (last (q :: up))) (r :: down) ->
  (min_points <= 2 + length up)%nat ->
  (min_points <= 2 + length down)%nat ->
  _build_cv_cycles dv_threshold min_points (first :: q :: up ++ r :: down)
  = [first :: q :: up; default q (last (q :: up)) :: r :: down].
Proof.
  intros Hne Hup Hdown Hlen_up Hlen_down.
  inversion Hup as [|? ? ? Hmove Hup']; subst.
  inversion Hdown as [|? ? ? Hmove' Hdown']; subst.
  unfold _build_cv_cycles. cbn [foldl app].
  rewrite (visit_first_dir _ _ _ _ _ _ _ Hmove), foldl_app.
  rewrite (foldl_visit_run _ _ _ _ _ _ _ Hup'). cbn [foldl app].
  assert (Hlast : default q (last up) = default q (last (q :: up))).
  { destruct up as [|q' up']; [reflexivity|]. by rewrite last_cons_cons. }
  rewrite Hlast.
  rewrite (visit_reversal _ _ _ _ _ _ _ _ Hne Hmove').
  rewrite (foldl_visit_run _ _ _ _ _ _ _ Hdown').
  cbn [cycles current_cycle app length].
  replace (min_points <=? S (S (length down)))%nat with true
    by (symmetry; apply Nat.leb_le; lia).
  replace (min_points <=? S (S (length up)))%nat with true
    by (symmetry; apply Nat.leb_le; rewrite ?length_app; cbn; lia).
  reflexivity.
Qed.

(** The voltages 0.0, 0.1, ..., 1.0, 0.9, ..., 0.0. *)
Definition sweep_volts : list float :=
  [0.0; 0.1; 0.2; 0.3; 0.4; 0.5; 0.6; 0.7; 0.8; 0.9; 1.0;
   0.9; 0.8; 0.7; 0.6; 0.5; 0.4; 0.3; 0.2; 0.1; 0.0]%float.

(** The sweep paired with glucose values. *)
Definition sweep (glucose : list float) : list point := zip sweep_volts glucose.

(** C5. Whatever glucose values the 21 samples of the sweep carry,
    segmentation with threshold 0.002 V and at least 10 points gives exactly
    two cycles: the samples 0..10 (the rising run) and the samples 10..20 (the
    falling run), 11 points each. Sample 10, the 1.0 V turning point, ends
    the first and starts the second; dropping it from the second leaves the
    two cycles covering every sample once. *)
Theorem sweep_two_cycles (glucose : list float) :
  length glucose = 21%nat ->
  let data := sweep glucose in
  exists rising falling : list point,
    _build_cv_cycles 0.002 10 data = [rising; falling] /\
    rising = take 11 data /\
    falling = drop 10 data /\
    (10 <= length rising)%nat /\
    (10 <= length falling)%nat /\
    last rising = data !! 10%nat /\
    head falling = data !! 10%nat /\
    fst <$> data !! 10%nat = Some 1.0%float /\
    rising ++ drop 1 falling = data.
Proof.
  intros Hlen data. subst data.
  do 21 (destruct glucose as [|? glucose]; [discriminate Hlen|]).
  destruct glucose; [|discriminate Hlen].
  eexists _, _. split; [vm_compute; reflexivity|].
  repeat split; vm_compute; lia.
Qed.

Lemma sweep_two_cycles_witness :
  let data := sweep (replicate 21 0%float) in
  exists rising falling : list point,
    _build_cv_cycles 0.002 10 data = [rising; falling] /\
    rising = take 11 data /\
    falling = drop 10 data /\
    (10 <= length rising)%nat /\
    (10 <= length falling)%nat /\
    last rising = data !! 10%nat /\
    head falling = data !! 10%nat /\
    fst <$> data !! 10%nat = Some 1.0%float /\
    rising ++ drop 1 falling = data.
Proof.
  apply (sweep_two_cycles (replicate 21 0%float)). reflexivity.
Defined.

End CVCycles.

(** * Application configuration, [01_Learn/config.py] *)

Module LearnConfig.

(** [FilterType(s)]: the member whose value is [s]; [ValueError] if none. *)
Definition FilterType_call (s : string) : result FilterType :=
  match List.find (fun ft => String.eqb s (FilterType_value ft)) FilterType_members with
  | Some ft => Ok ft
  | None => Raise ValueError
  end.

(** A dataclass: its fields, in order, with their defaults. An instance is
    the mapping from field names to values that [asdict] returns; nothing
    checks the values against the annotated types. *)
Record dataclass : Type := { field_defaults : list (string * pyval) }.

Definition SerialConfig : dataclass :=
  {| field_defaults :=
       [("baudrate", VInt 115200); ("databits", VInt 8); ("stopbits", VStr "1");
        ("parity", VStr "None"); ("auto_reconnect", VBool false);
        ("bluetooth_force_9600", VBool false); ("bluetooth_baudrate", VInt 9600);
        ("is_bluetooth_hint", VBool true); ("poll_interval_bluetooth_ms", VInt 20);
        ("poll_interval_uart_ms", VInt 5)] |}.

Definition ProtocolConfig : dataclass :=
  {| field_defaults :=
       [("field_ms", VStr "Ms"); ("field_uric", VStr "Uric");
        ("field_ascorbic", VStr "Ascorbic"); ("field_glucose", VStr "Glucose");
        ("field_code12", VStr "Code12"); ("line_delimiter", VStr (String "010" ""))] |}.

Definition CalibrationConfig : dataclass :=
  {| field_defaults :=
       [("adc_value_per_volt", VFloat 1240.9091); ("ref_volt", VFloat 1.5);
        ("time_gain", VFloat 1000.0);
        ("uric_gain", VFloat (20400 / 1000000));
        ("ascorbic_gain", VFloat (4700 / 1000000));
        ("glucose_gain", VFloat (200 / 1000))] |}.

Definition FilterConfig : dataclass :=
  {| field_defaults :=
       [("filter_type", VEnum MOVING_AVG); ("window_size", VInt 5);
        ("kalman_Q", VFloat 0.01); ("kalman_R", VFloat 0.1)] |}.

Definition SaveConfig : dataclass :=
  {| field_defaults :=
       [("auto_save", VBool false); ("save_interval_ms", VInt 1000);
        ("save_path", VStr "./serial_data")] |}.

Definition UIConfig : dataclass :=
  {| field_defaults :=
       [("max_table_rows", VInt 2000); ("ui_update_interval_ms", VInt 50)] |}.

Definition field_names (cls : dataclass) : list string := (field_defaults cls).*1.

(** [cls_type()] *)
Definition new (cls : dataclass) : gmap string pyval := list_to_map (field_defaults cls).

(** [cls_type] called with the keyword arguments [kwargs]: [TypeError] on a
    keyword that is no field; a field not given takes its default. *)
Definition construct (cls : dataclass) (kwargs : gmap string pyval)
  : result (gmap string pyval) :=
  if decide (dom kwargs ⊆ list_to_set (field_names cls))
  then Ok (kwargs ∪ new cls)
  else Raise TypeError.

Definition _safe_dataclass_update (current_obj : gmap string pyval) (patch : pyval)
    (cls_type : dataclass) : gmap string pyval :=
  match patch with
  | VDict patch =>
      let allowed := field_names cls_type in
      let clean := filter (fun kv => kv.1 ∈ allowed) patch in
      (* base = asdict(current_obj); base.update(clean) *)
      let base := clean ∪ current_obj in
      try_except (construct cls_type base) current_obj
  | _ => current_obj
  end.

Record AppConfig : Type := {
  serial : gmap string pyval;
  protocol : gmap string pyval;
  calib : gmap string pyval;
  filt : gmap string pyval;
  save : gmap string pyval;
  ui : gmap string pyval
}.

(** [AppConfig()] *)
Definition defaults : AppConfig :=
  {| serial := new SerialConfig; protocol := new ProtocolConfig;
     calib := new CalibrationConfig; filt := new FilterConfig;
     save := new SaveConfig; ui := new UIConfig |}.

(** [obj.name] for a field of an instance. *)
Definition attribute (obj : gmap string pyval) (name : string) : pyval :=
  default VNone (obj !! name).

(** [isinstance(v, str)]; the members of [FilterType(str, Enum)] are strings. *)
Definition is_str (v : pyval) : bool :=
  match v with
  | VStr _ | VEnum _ => true
  | _ => false
  end.

(** [FilterType(ft)] for an [ft] that is a string. *)
Definition coerce_filter_type (ft : pyval) : result FilterType :=
  match ft with
  | VStr s => FilterType_call s
  | VEnum m => Ok m
  | _ => Raise ValueError
  end.

(** The lines of [_merge_inplace] that prepare [filt_raw]: the enumeration
    is coerced when the section is a dictionary whose [filter_type] is a
    string. *)
Definition coerce_filt_raw (self : AppConfig) (filt_raw : pyval) : pyval :=
  match filt_raw with
  | VDict d =>
      let ft := dict_get d "filter_type" VNone in
      if is_str ft then
        VDict (<["filter_type" :=
                  match coerce_filter_type ft with
                  | Ok member => VEnum member
                  | Raise _ => attribute (filt self) "filter_type"
                  end]> d)
      else VDict d
  | other => other
  end.

Definition _merge_inplace (self : AppConfig) (raw : gmap string pyval) : AppConfig :=
  let serial' := _safe_dataclass_update (serial self) (dict_get raw "serial" (VDict ∅)) SerialConfig in
  let protocol' :=
    _safe_dataclass_update (protocol self) (dict_get raw "protocol" (VDict ∅)) ProtocolConfig in
  let calib' :=
    _safe_dataclass_update (calib self) (dict_get raw "calib" (VDict ∅)) CalibrationConfig in
  let filt_raw := coerce_filt_raw self (dict_get raw "filt" (VDict ∅)) in
  let filt' := _safe_dataclass_update (filt self) filt_raw FilterConfig in
  let save' := _safe_dataclass_update (save self) (dict_get raw "save" (VDict ∅)) SaveConfig in
  let ui' := _safe_dataclass_update (ui self) (dict_get raw "ui" (VDict ∅)) UIConfig in
  {| serial := serial'; protocol := protocol'; calib := calib';
     filt := filt'; save := save'; ui := ui' |}.

(** [AppConfig.load]: [file] is what is at the path, if anything. Every
    exception raised inside is caught inside. *)
Definition load (file : option file_content) : AppConfig :=
  match file with
  | None => defaults
  | Some (Malformed _) => defaults
  | Some (Json (VDict raw)) => _merge_inplace defaults raw
  | Some (Json _) => defaults
  end.

(** ** The merge of one section *)

Lemma new_dom (cls : dataclass) : dom (new cls) = list_to_set (field_names cls).
Proof. unfold new, field_names. apply dom_list_to_map_L. Qed.

Lemma clean_dom (cls : dataclass) (patch : gmap string pyval) :
  dom (filter (fun kv : string * pyval => kv.1 ∈ field_names cls) patch)
    ⊆ list_to_set (field_names cls).
Proof.
  intros k Hk. apply elem_of_dom in Hk as [v Hv].
  apply map_lookup_filter_Some in Hv as [_ Hin]. cbn in Hin.
  by apply elem_of_list_to_set.
Qed.

(** The constructor call inside [_safe_dataclass_update] receives field
    names only, so its [except] branch is never taken. *)
Lemma update_constructs (cls : dataclass) (current_obj patch : gmap string pyval) :
  dom current_obj ⊆ list_to_set (field_names cls) ->
  _safe_dataclass_update current_obj (VDict patch) cls
  = filter (fun kv : string * pyval => kv.1 ∈ field_names cls) patch ∪ current_obj ∪ new cls.
Proof.
  intros Hcur. unfold _safe_dataclass_update, construct. cbv zeta.
  destruct (decide _) as [_|Hno]; [reflexivity|].
  exfalso. apply Hno. rewrite dom_union_L.
  apply union_subseteq. split; [apply clean_dom | exact Hcur].
Qed.

Lemma update_takes_patch (cls : dataclass) (current_obj patch : gmap string pyval)
    (name : string) (v : pyval) :
  dom current_obj ⊆ list_to_set (field_names cls) ->
  name ∈ field_names cls ->
  patch !! name = Some v ->
  _safe_dataclass_update current_obj (VDict patch) cls !! name = Some v.
Proof.
  intros Hcur Hname Hv. rewrite update_constructs by assumption.
  apply lookup_union_Some_l, lookup_union_Some_l.
  apply map_lookup_filter_Some. by split.
Qed.

Lemma FilterType_call_unknown (s : string) :
  Forall (fun ft => s <> FilterType_value ft) FilterType_members ->
  FilterType_call s = Raise ValueError.
Proof.
  intros H. unfold FilterType_call.
  destruct (List.find _ _) as [ft|] eqn:E; [exfalso | reflexivity].
  apply find_some in E as [Hin Heq]. apply String.eqb_eq in Heq.
  rewrite Forall_forall in H. apply (H ft); [by apply list_elem_of_In | exact Heq].
Qed.

Lemma coerce_filt_raw_unknown (self : AppConfig) (d : gmap string pyval) (s : string) :
  d !! "filter_type" = Some (VStr s) ->
  Forall (fun ft => s <> FilterType_value ft) FilterType_members ->
  coerce_filt_raw self (VDict d)
  = VDict (<["filter_type" := attribute (filt self) "filter_type"]> d).
Proof.
  intros Hft Hs. unfold coerce_filt_raw, dict_get. rewrite Hft.
  cbn [from_option id is_str coerce_filter_type].
  by rewrite (FilterType_call_unknown s Hs).
Qed.

Lemma load_filt (raw : gmap string pyval) :
  filt (load (Some (Json (VDict raw))))
  = _safe_dataclass_update (filt defaults)
      (coerce_filt_raw defaults (dict_get raw "filt" (VDict ∅))) FilterConfig.
Proof. reflexivity. Qed.

(** A value of the wrong type is stored as it is: nothing in the merge looks
    at the annotated type of a field. *)
Example mistyped_value_kept :
  filt (load (Some (Json (VDict {[ "filt" := VDict {[ "window_size" := VStr "abc" ]} ]}))))
    !! "window_size" = Some (VStr "abc").
Proof. vm_compute. reflexivity. Qed.

End LearnConfig.

(** * Application configuration of the monitor, [03_ModifyCGMPage/01_ReadSerial.py] *)

Module MonitorConfig.

Record UIConfig : Type := {
  ui_update_interval_ms : Z;
  max_table_rows : Z
}.

Record FilterConfig : Type := {
  filter_type : FilterType;
  window_size : Z;
  kalman_Q : float;
  kalman_R : float
}.

Record SaveConfig : Type := {
  auto_save : bool;
  save_interval_ms : Z;
  save_path : string
}.

Record ProtocolConfig : Type := {
  time_keys : list string;
  voltage_keys : list string;
  uric_keys : list string;
  ascorbic_keys : list string;
  glucose_keys : list string;
  time_unit : string;
  voltage_scale : float;
  uric_scale : float;
  ascorbic_scale : float;
  glucose_scale : float
}.

Record AppConfig : Type := {
  ui : UIConfig;
  filt : FilterConfig;
  save : SaveConfig;
  proto : ProtocolConfig
}.

(** [AppConfig()] *)
Definition defaults : AppConfig :=
  {| ui := {| ui_update_interval_ms := 50; max_table_rows := 2000 |};
     filt := {| filter_type := MOVING_AVG; window_size := 5;
                kalman_Q := 0.01; kalman_R := 0.1 |};
     save := {| auto_save := false; save_interval_ms := 1000;
                save_path := "./serial_data" |};
     proto := {| time_keys := ["t"; "time"; "sec"; "seconds"; "timestamp"];
                 voltage_keys := ["voltage"; "V"; "v"];
                 uric_keys := ["uric"; "uric_uA"; "UA"; "uA_uric"];
                 ascorbic_keys := ["ascorbic"; "ascorbic_uA"; "AA"; "uA_ascorbic"];
                 glucose_keys := ["glucose"; "glucose_mA"; "GLU"; "mA_glucose"];
                 time_unit := "auto";
                 voltage_scale := 1.0; uric_scale := 1.0;
                 ascorbic_scale := 1.0; glucose_scale := 1.0 |} |}.

(** [_safe_filter_type]: the first member whose value or name equals [v]. *)
Definition _safe_filter_type (v : pyval) (default : FilterType) : FilterType :=
  match v with
  | VStr s =>
      match List.find (fun ft => String.eqb s (FilterType_value ft)
                                 || String.eqb s (FilterType_name ft))
                      FilterType_members with
      | Some ft => ft
      | None => default
      end
  | _ => default
  end.

(** [asdict(self)] with the filter type replaced by its value, as
    [json.loads] reads it back from the file [save_to] writes (tuples come
    back as lists). *)
Definition to_json (cfg : AppConfig) : pyval :=
  let strs (l : list string) := VList (VStr <$> l) in
  VDict {[
    "ui" := VDict {[
      "ui_update_interval_ms" := VInt (ui_update_interval_ms (ui cfg));
      "max_table_rows" := VInt (max_table_rows (ui cfg)) ]};
    "filt" := VDict {[
      "filter_type" := VStr (FilterType_value (filter_type (filt cfg)));
      "window_size" := VInt (window_size (filt cfg));
      "kalman_Q" := VFloat (kalman_Q (filt cfg));
      "kalman_R" := VFloat (kalman_R (filt cfg)) ]};
    "save" := VDict {[
      "auto_save" := VBool (auto_save (save cfg));
      "save_interval_ms" := VInt (save_interval_ms (save cfg));
      "save_path" := VStr (save_path (save cfg)) ]};
    "proto" := VDict {[
      "time_keys" := strs (time_keys (proto cfg));
      "voltage_keys" := strs (voltage_keys (proto cfg));
      "uric_keys" := strs (uric_keys (proto cfg));
      "ascorbic_keys" := strs (ascorbic_keys (proto cfg));
      "glucose_keys" := strs (glucose_keys (proto cfg));
      "time_unit" := VStr (time_unit (proto cfg));
      "voltage_scale" := VFloat (voltage_scale (proto cfg));
      "uric_scale" := VFloat (uric_scale (proto cfg));
      "ascorbic_scale" := VFloat (ascorbic_scale (proto cfg));
      "glucose_scale" := VFloat (glucose_scale (proto cfg)) ]} ]}.

(** [save_to]: the file after the call. *)
Definition save_to (cfg : AppConfig) : option file_content := Some (Json (to_json cfg)).

Section Load.
(** The interpreter's reading of a string as an integer or a float ([None]
    when [int(s)] or [float(s)] raises [ValueError]), and [str] of a value
    that is not a string. *)
Variable int_of_str : string -> option Z.
Variable float_of_str : string -> option float.
Variable repr : pyval -> string.

(** [int(v)] *)
Definition py_int (v : pyval) : result Z :=
  match v with
  | VBool b => Ok (if b then 1 else 0)
  | VInt z => Ok z
  | VFloat f => int_of_float f
  | VStr s => match int_of_str s with Some z => Ok z | None => Raise ValueError end
  | VNone | VList _ | VDict _ | VEnum _ => Raise TypeError
  end.

(** [float(v)] *)
Definition py_float (v : pyval) : result float :=
  match v with
  | VBool b => Ok (if b then 1.0 else 0.0)%float
  | VInt z =>
      let f := float_of_int z in
      if is_infinity f then Raise OverflowError else Ok f
  | VFloat f => Ok f
  | VStr s => match float_of_str s with Some f => Ok f | None => Raise ValueError end
  | VNone | VList _ | VDict _ | VEnum _ => Raise TypeError
  end.

(** [bool(v)] *)
Definition py_bool (v : pyval) : bool :=
  match v with
  | VNone => false
  | VBool b => b
  | VInt z => negb (z =? 0)
  | VFloat f => negb (f =? 0)%float
  | VStr s => negb (String.eqb s "")
  | VList l => negb (bool_decide (l = [])) 
  | VDict d => negb (bool_decide (dom d = ∅))
  | VEnum _ => true
  end.

(** [str(v)] *)
Definition py_str (v : pyval) : string :=
  match v with
  | VStr s => s
  | other => repr other
  end.

(** [v.get(key, default)]: only a dictionary has the method. *)
Definition get (v : pyval) (key : string) (dflt : pyval) : result pyval :=
  match v with
  | VDict d => Ok (dict_get d key dflt)
  | _ => Raise AttributeError
  end.

(** The part of [load] after [json.loads] has returned [raw]. *)
Definition from_raw (raw : pyval) : result AppConfig :=
  let cfg := defaults in
  (* ui *)
  ui_ ← get raw "ui" (VDict ∅);
  v ← get ui_ "ui_update_interval_ms" (VInt (ui_update_interval_ms (ui cfg)));
  ui_update_interval_ms' ← py_int v;
  v ← get ui_ "max_table_rows" (VInt (max_table_rows (ui cfg)));
  max_table_rows' ← py_int v;
  (* filt *)
  flt ← get raw "filt" (VDict ∅);
  ft ← get flt "filter_type" (VStr (FilterType_value (filter_type (filt cfg))));
  let filter_type' := _safe_filter_type ft (filter_type (filt cfg)) in
  v ← get flt "window_size" (VInt (window_size (filt cfg)));
  window_size' ← py_int v;
  v ← get flt "kalman_Q" (VFloat (kalman_Q (filt cfg)));
  kalman_Q' ← py_float v;
  v ← get flt "kalman_R" (VFloat (kalman_R (filt cfg)));
  kalman_R' ← py_float v;
  (* save *)
  sv ← get raw "save" (VDict ∅);
  v ← get sv "auto_save" (VBool (auto_save (save cfg)));
  let auto_save' := py_bool v in
  v ← get sv "save_interval_ms" (VInt (save_interval_ms (save cfg)));
  save_interval_ms' ← py_int v;
  v ← get sv "save_path" (VStr (save_path (save cfg)));
  let save_path' := py_str v in
  (* proto *)
  pr ← get raw "proto" (VDict ∅);
  v ← get pr "time_unit" (VStr (time_unit (proto cfg)));
  let time_unit' := py_str v in
  v ← get pr "voltage_scale" (VFloat (voltage_scale (proto cfg)));
  voltage_scale' ← py_float v;
  v ← get pr "uric_scale" (VFloat (uric_scale (proto cfg)));
  uric_scale' ← py_float v;
  v ← get pr "ascorbic_scale" (VFloat (ascorbic_scale (proto cfg)));
  ascorbic_scale' ← py_float v;
  v ← get pr "glucose_scale" (VFloat (glucose_scale (proto cfg)));
  glucose_scale' ← py_float v;
  Ok {| ui := {| ui_update_interval_ms := ui_update_interval_ms';
                 max_table_rows := max_table_rows' |};
        filt := {| filter_type := filter_type'; window_size := window_size';
                   kalman_Q := kalman_Q'; kalman_R := kalman_R' |};
        save := {| auto_save := auto_save'; save_interval_ms := save_interval_ms';
                   save_path := save_path' |};
        proto := {| time_keys := time_keys (proto cfg);
                    voltage_keys := voltage_keys (proto cfg);
                    uric_keys := uric_keys (proto cfg);
                    ascorbic_keys := ascorbic_keys (proto cfg);
                    glucose_keys := glucose_keys (proto cfg);
                    time_unit := time_unit';
                    voltage_scale := voltage_scale'; uric_scale := uric_scale';
                    ascorbic_scale := ascorbic_scale'; glucose_scale := glucose_scale' |} |}.

(** [AppConfig.load]: [file] is what is at the configuration path, if
    anything. The result is what the call returns or raises, and the file
    after the call. *)
Definition load (file : option file_content) : result AppConfig * option file_content :=
  match file with
  | None => (Ok defaults, save_to defaults)
  | Some (Malformed _) => (Ok defaults, save_to defaults)
  | Some (Json raw) => (from_raw raw, file)
  end.

End Load.

(** A reading of strings as integers for the examples: an optional minus
    sign and decimal digits. *)
Fixpoint digits_value (s : string) (acc : Z) : option Z :=
  match s with
  | EmptyString => Some acc
  | String c rest =>
      let n := Z.of_nat (nat_of_ascii c) in
      if (48 <=? n) && (n <=? 57) then digits_value rest (10 * acc + (n - 48)) else None
  end.

Definition decimal_int (s : string) : option Z :=
  match s with
  | EmptyString => None
  | String "-" EmptyString => None
  | String "-" rest => Z.opp <$> digits_value rest 0
  | _ => digits_value s 0
  end.

(** ** A configuration file that does not parse *)

(** C10. When the configuration file exists and cannot be read or parsed,
    [load] returns the defaults after [save_to] has replaced the file by the
    serialized defaults; the text that was there is gone. *)
Theorem malformed_file_overwritten
    (int_of_str : string -> option Z) (float_of_str : string -> option float)
    (repr : pyval -> string) (txt : string) :
  load int_of_str float_of_str repr (Some (Malformed txt))
    = (Ok defaults, Some (Json (to_json defaults))) /\
  (load int_of_str float_of_str repr (Some (Malformed txt))).2 <> Some (Malformed txt) /\
  save_to defaults = Some (Json (to_json defaults)).
Proof.
  split; [reflexivity|]. split; [|reflexivity].
  cbn. discriminate.
Qed.

(** The file written is a configuration that loads back as the defaults. *)
Lemma defaults_reload
    (int_of_str : string -> option Z) (float_of_str : string -> option float)
    (repr : pyval -> string) :
  load int_of_str float_of_str repr (save_to defaults) = (Ok defaults, save_to defaults).
Proof. vm_compute. reflexivity. Qed.

(** ** Values of the wrong type *)

(** The documents with the one section [ui] holding the one entry
    [max_table_rows]. *)
Definition ui_rows_document (v : pyval) : pyval :=
  VDict {[ "ui" := VDict {[ "max_table_rows" := v ]} ]}.

(** C2, on the monitor's loader. A document whose [max_table_rows] is a
    string that [int] rejects makes [load] raise [ValueError], one whose
    [max_table_rows] is [null] makes it raise [TypeError], and a document
    that is a JSON array makes it raise [AttributeError]; in each case no
    configuration is returned and the file is left as it was. *)
Theorem load_raises_on_mistyped_field
    (int_of_str : string -> option Z) (float_of_str : string -> option float)
    (repr : pyval -> string) :
  int_of_str "abc" = None ->
  load int_of_str float_of_str repr (Some (Json (ui_rows_document (VStr "abc"))))
    = (Raise ValueError, Some (Json (ui_rows_document (VStr "abc")))) /\
  load int_of_str float_of_str repr (Some (Json (ui_rows_document VNone)))
    = (Raise TypeError, Some (Json (ui_rows_document VNone))) /\
  load int_of_str float_of_str repr (Some (Json (VList [])))
    = (Raise AttributeError, Some (Json (VList []))).
Proof.
  intros Habc. split; [|split; reflexivity].
  unfold load. f_equal. vm_compute in Habc |- *. by rewrite Habc.
Qed.

Lemma load_raises_on_mistyped_field_witness :
  load decimal_int (fun _ => None) (fun _ => "") (Some (Json (ui_rows_document (VStr "abc"))))
    = (Raise ValueError, Some (Json (ui_rows_document (VStr "abc")))) /\
  load decimal_int (fun _ => None) (fun _ => "") (Some (Json (ui_rows_document VNone)))
    = (Raise TypeError, Some (Json (ui_rows_document VNone))) /\
  load decimal_int (fun _ => None) (fun _ => "") (Some (Json (VList [])))
    = (Raise AttributeError, Some (Json (VList []))).
Proof.
  apply (load_raises_on_mistyped_field decimal_int (fun _ => None) (fun _ => "")).
  reflexivity.
Defined.

End MonitorConfig.

(** * Tolerant merging of the [filt] section *)

Module ConfigMerge.

(** The strings that are the value of no filter type, and those that are
    neither the value nor the name of one. *)
Definition no_filter_value (s : string) : Prop :=
  Forall (fun ft => s <> FilterType_value ft) FilterType_members.

Definition no_filter_type (s : string) : Prop :=
  Forall (fun ft => s <> FilterType_value ft /\ s <> FilterType_name ft) FilterType_members.

(** The document whose only section is [filt], with the two entries
    [filter_type] and [window_size]. *)
Definition filt_document (ft window : pyval) : pyval :=
  VDict {[ "filt" := VDict {[ "filter_type" := ft; "window_size" := window ]} ]}.

Lemma _safe_filter_type_unknown (s : string) (default : FilterType) :
  no_filter_type s -> MonitorConfig._safe_filter_type (VStr s) default = default.
Proof.
  intros H. unfold MonitorConfig._safe_filter_type.
  destruct (List.find _ _) as [ft|] eqn:E; [exfalso | reflexivity].
  apply find_some in E as [Hin Heq]. unfold no_filter_type in H.
  rewrite Forall_forall in H. destruct (H ft) as [Hv Hn]; [by apply list_elem_of_In|].
  apply orb_true_iff in Heq as [Heq | Heq]; apply String.eqb_eq in Heq; contradiction.
Qed.

Lemma monitor_filt_document
    (int_of_str : string -> option Z) (float_of_str : string -> option float)
    (repr : pyval -> string) (ft : pyval) (n : Z) :
  MonitorConfig.from_raw int_of_str float_of_str repr (filt_document ft (VInt n))
  = Ok {| MonitorConfig.ui := MonitorConfig.ui MonitorConfig.defaults;
          MonitorConfig.filt :=
            {| MonitorConfig.filter_type := MonitorConfig._safe_filter_type ft MOVING_AVG;
               MonitorConfig.window_size := n;
               MonitorConfig.kalman_Q := 0.01; MonitorConfig.kalman_R := 0.1 |};
          MonitorConfig.save := MonitorConfig.save MonitorConfig.defaults;
          MonitorConfig.proto := MonitorConfig.proto MonitorConfig.defaults |}.
Proof. vm_compute. reflexivity. Qed.

(** What [config.py]'s [load] makes of the [filt] section of the document
    [raw]: the [filter_type] is the default, the [window_size] is [window]. *)
Definition learn_outcome (raw : gmap string pyval) (window : pyval) : Prop :=
  let cfg := LearnConfig.load (Some (Json (VDict raw))) in
  LearnConfig.filt cfg !! "filter_type"
    = LearnConfig.filt LearnConfig.defaults !! "filter_type" /\
  LearnConfig.filt cfg !! "filter_type" = Some (VEnum MOVING_AVG) /\
  LearnConfig.filt cfg !! "window_size" = Some window.

(** The document [raw] with the [filter_type] entry taken out of its [filt]
    section [filt_section]. *)
Definition without_filter_type (raw filt_section : gmap string pyval) : pyval :=
  VDict (<["filt" := VDict (delete "filter_type" filt_section)]> raw).

(** What the monitor's [load] makes of the document [raw], whose [filt]
    section is [filt_section] and gives [window_size] the value [window]:
    the file stays; [load] returns or raises exactly what it does on the
    document without the [filter_type] entry; and when it returns a
    configuration, its [filter_type] is the default and its [window_size] is
    what [int] makes of [window]. *)
Definition monitor_outcome (raw filt_section : gmap string pyval) (window : pyval) : Prop :=
  forall int_of_str float_of_str repr,
    let load := MonitorConfig.load int_of_str float_of_str repr in
    (load (Some (Json (VDict raw)))).2 = Some (Json (VDict raw)) /\
    (load (Some (Json (VDict raw)))).1
      = (load (Some (Json (without_filter_type raw filt_section)))).1 /\
    forall cfg,
      (load (Some (Json (VDict raw)))).1 = Ok cfg ->
      MonitorConfig.filter_type (MonitorConfig.filt cfg)
        = MonitorConfig.filter_type (MonitorConfig.filt MonitorConfig.defaults) /\
      MonitorConfig.py_int int_of_str window
        = Ok (MonitorConfig.window_size (MonitorConfig.filt cfg)).

(** A document with an unknown filter type, a window size, and a mistyped
    entry in another section. *)
Definition sample_filt : gmap string pyval :=
  {[ "filter_type" := VStr "bogus"; "window_size" := VInt 9 ]}.

Definition sample_raw : gmap string pyval :=
  {[ "filt" := VDict sample_filt; "ui" := VDict {[ "max_table_rows" := VStr "abc" ]} ]}.

(** The same without the mistyped entry. *)
Definition sample_clean : gmap string pyval := {[ "filt" := VDict sample_filt ]}.

Lemma dict_get_insert_eq (d : gmap string pyval) (k : string) (v dflt : pyval) :
  dict_get (<[k := v]> d) k dflt = v.
Proof. unfold dict_get. by rewrite lookup_insert_eq. Qed.

Lemma dict_get_insert_ne (d : gmap string pyval) (k k' : string) (v dflt : pyval) :
  k <> k' -> dict_get (<[k := v]> d) k' dflt = dict_get d k' dflt.
Proof. intros H. unfold dict_get. by rewrite lookup_insert_ne. Qed.

Lemma dict_get_delete_eq (d : gmap string pyval) (k : string) (dflt : pyval) :
  dict_get (delete k d) k dflt = dflt.
Proof. unfold dict_get. by rewrite lookup_delete_eq. Qed.

Lemma dict_get_delete_ne (d : gmap string pyval) (k k' : string) (dflt : pyval) :
  k <> k' -> dict_get (delete k d) k' dflt = dict_get d k' dflt.
Proof. intros H. unfold dict_get. by rewrite lookup_delete_ne. Qed.

Lemma dict_get_present (d : gmap string pyval) (k : string) (v dflt : pyval) :
  d !! k = Some v -> dict_get d k dflt = v.
Proof. intros H. unfold dict_get. by rewrite H. Qed.

(** The binds of [from_raw], one after the other, in a hypothesis that says
    the whole returned a configuration. *)
Ltac returned H :=
  repeat match type of H with
         | mbind _ ?e = Ok _ =>
             let E := fresh "E" in
             destruct e eqn:E; cbn [mbind result_bind] in H; [|discriminate H]
         end.

Lemma monitor_tolerates_filter_type (raw filt_section : gmap string pyval) (s : string)
    (window : pyval) :
  raw !! "filt" = Some (VDict filt_section) ->
  filt_section !! "filter_type" = Some (VStr s) ->
  filt_section !! "window_size" = Some window ->
  no_filter_type s ->
  monitor_outcome raw filt_section window.
Proof.
  intros Hfilt Hft Hw Hs int_of_str float_of_str repr. cbv zeta.
  unfold MonitorConfig.load. cbn [fst snd]. split; [reflexivity|].
  assert (Hsafe : MonitorConfig._safe_filter_type (VStr s) MOVING_AVG = MOVING_AVG)
    by (by apply _safe_filter_type_unknown).
  split.
  - unfold MonitorConfig.from_raw, without_filter_type. cbv zeta.
    cbn [MonitorConfig.get mbind result_bind].
    rewrite dict_get_insert_eq, !dict_get_insert_ne by done.
    rewrite (dict_get_present raw "filt" _ _ Hfilt).
    cbn [MonitorConfig.get mbind result_bind].
    rewrite dict_get_delete_eq, !dict_get_delete_ne by done.
    rewrite (dict_get_present filt_section "filter_type" _ _ Hft).
    cbn [MonitorConfig.filt MonitorConfig.filter_type MonitorConfig.defaults].
    rewrite Hsafe. reflexivity.
  - intros cfg H. unfold MonitorConfig.from_raw in H. cbv zeta in H.
    cbn [MonitorConfig.get mbind result_bind] in H.
    rewrite (dict_get_present raw "filt" _ _ Hfilt) in H.
    cbn [MonitorConfig.get mbind result_bind] in H.
    rewrite (dict_get_present filt_section "filter_type" _ _ Hft) in H.
    rewrite (dict_get_present filt_section "window_size" _ _ Hw) in H.
    cbn [MonitorConfig.filt MonitorConfig.filter_type MonitorConfig.defaults] in H.
    rewrite Hsafe in H.
    returned H.
    pose proof (f_equal (fun r : result MonitorConfig.AppConfig =>
                           match r with
                           | Ok c => Some (MonitorConfig.filter_type (MonitorConfig.filt c),
                                           MonitorConfig.window_size (MonitorConfig.filt c))
                           | Raise _ => None
                           end) H) as Hfields.
    cbn in Hfields. injection Hfields as <- <-. split; reflexivity.
Qed.

(** C7. A document whose [filt] section holds a [filter_type] string that is
    the value of no filter type, next to a [window_size]. [config.py]'s
    [load] returns a configuration whose [filter_type] is the default it had
    before the merge and whose [window_size] is the document's, whatever
    else the document holds. In the monitor the string, when it is no name
    of a filter type either, counts as little: [load] does on the document
    what it does on the document without the entry, and a configuration it
    returns has the default [filter_type] and the document's [window_size].
    But it does not always return one: on [sample_raw], whose [ui] section
    holds a string that [int] rejects, it raises [ValueError], while it
    returns a configuration on the same document without that entry. *)
Theorem invalid_filter_type_keeps_window_size
    (raw filt_section : gmap string pyval) (s : string) (window : pyval) :
  raw !! "filt" = Some (VDict filt_section) ->
  filt_section !! "filter_type" = Some (VStr s) ->
  filt_section !! "window_size" = Some window ->
  no_filter_value s ->
  learn_outcome raw window /\
  (no_filter_type s -> monitor_outcome raw filt_section window) /\
  learn_outcome sample_raw (VInt 9) /\
  (forall int_of_str float_of_str repr,
      int_of_str "abc" = None ->
      (MonitorConfig.load int_of_str float_of_str repr (Some (Json (VDict sample_raw)))).1
        = Raise ValueError /\
      exists cfg,
        (MonitorConfig.load int_of_str float_of_str repr
           (Some (Json (VDict sample_clean)))).1 = Ok cfg /\
        MonitorConfig.filter_type (MonitorConfig.filt cfg) = MOVING_AVG /\
        MonitorConfig.window_size (MonitorConfig.filt cfg) = 9).
Proof.
  assert (Hlearn : forall raw filt_section s window,
             raw !! "filt" = Some (VDict filt_section) ->
             filt_section !! "filter_type" = Some (VStr s) ->
             filt_section !! "window_size" = Some window ->
             no_filter_value s ->
             learn_outcome raw window).
  { clear. intros raw filt_section s window Hfilt Hft Hw Hs.
    unfold learn_outcome. cbv zeta. rewrite LearnConfig.load_filt. unfold dict_get.
    rewrite Hfilt. cbn [from_option id].
    rewrite (LearnConfig.coerce_filt_raw_unknown _ _ s Hft Hs).
    assert (Hdom : dom (LearnConfig.filt LearnConfig.defaults)
                   ⊆ list_to_set (LearnConfig.field_names LearnConfig.FilterConfig))
      by (cbn [LearnConfig.filt LearnConfig.defaults]; by rewrite LearnConfig.new_dom).
    assert (Hdefault : LearnConfig.attribute (LearnConfig.filt LearnConfig.defaults)
                         "filter_type" = VEnum MOVING_AVG) by reflexivity.
    rewrite Hdefault.
    split; [|split].
    + transitivity (Some (VEnum MOVING_AVG)); [|reflexivity].
      apply LearnConfig.update_takes_patch;
        [exact Hdom | by vm_compute; repeat constructor | apply lookup_insert_eq].
    + apply LearnConfig.update_takes_patch;
        [exact Hdom | by vm_compute; repeat constructor | apply lookup_insert_eq].
    + apply LearnConfig.update_takes_patch;
        [exact Hdom | by vm_compute; repeat constructor |].
      by rewrite lookup_insert_ne. }
  intros Hfilt Hft Hw Hs. split; [by eapply Hlearn|].
  split; [intros Hs'; by eapply monitor_tolerates_filter_type|].
  split.
  - apply (Hlearn sample_raw sample_filt "bogus" (VInt 9)); try reflexivity.
    repeat constructor; discriminate.
  - intros int_of_str float_of_str repr Habc. split.
    + unfold MonitorConfig.load. cbn [fst]. vm_compute in Habc |- *. by rewrite Habc.
    + eexists. split; [vm_compute; reflexivity|]. split; reflexivity.
Qed.

Lemma bogus_no_filter_type : no_filter_type "bogus" /\ no_filter_value "bogus".
Proof. split; repeat constructor; discriminate. Qed.

Lemma invalid_filter_type_keeps_window_size_witness :
  learn_outcome sample_raw (VInt 9) /\
  monitor_outcome sample_raw sample_filt (VInt 9) /\
  monitor_outcome sample_clean sample_filt (VInt 9) /\
  (MonitorConfig.load MonitorConfig.decimal_int (fun _ => None) (fun _ => "")
     (Some (Json (VDict sample_raw)))).1 = Raise ValueError /\
  exists cfg,
    (MonitorConfig.load MonitorConfig.decimal_int (fun _ => None) (fun _ => "")
       (Some (Json (VDict sample_clean)))).1 = Ok cfg /\
    MonitorConfig.filter_type (MonitorConfig.filt cfg) = MOVING_AVG /\
    MonitorConfig.window_size (MonitorConfig.filt cfg) = 9.
Proof.
  destruct (invalid_filter_type_keeps_window_size sample_raw sample_filt "bogus" (VInt 9))
    as (Hlearn & Hmonitor & _ & Hraise);
    [reflexivity | reflexivity | reflexivity | apply bogus_no_filter_type |].
  destruct (invalid_filter_type_keeps_window_size sample_clean sample_filt "bogus" (VInt 9))
    as (_ & Hclean & _);
    [reflexivity | reflexivity | reflexivity | apply bogus_no_filter_type |].
  split; [exact Hlearn|]. split; [apply Hmonitor, bogus_no_filter_type|].
  split; [apply Hclean, bogus_no_filter_type|].
  apply (Hraise MonitorConfig.decimal_int (fun _ => None) (fun _ => "")). reflexivity.
Defined.

End ConfigMerge.

(** * The binary decoder on a stream of bytes *)

Module BinaryStream.

Import BinaryFrame.

(** A window of 15 bytes that the scan accepts as a frame. *)
Definition well_framed (w : list byte) : Prop :=
  length w = FRAME_LEN /\
  byte_at w 0 = HEAD /\
  byte_at w 14 = TAIL /\
  byte_at w 13 = sum_bytes (slice 1 13 w) mod 256.

Lemma scan_step_garbage {F} (decode : list byte -> F) (buf : list byte) :
  (FRAME_LEN <= length buf)%nat -> byte_at buf 0 <> HEAD ->
  scan_step decode buf = Drop (drop 1 buf).
Proof.
  intros Hlen Hhead. unfold scan_step.
  destruct (Nat.ltb_spec (length buf) FRAME_LEN); [lia|].
  destruct (Z.eqb_spec (byte_at buf 0) HEAD); [contradiction | reflexivity].
Qed.

(** Bytes that are not the head marker, in any number, are skipped one by
    one until the frame that follows them is at the front of the buffer. *)
Lemma resync_with {F} (decode : list byte -> F) (garbage frame_bytes : list byte) :
  Forall (fun b => b2z b <> HEAD) garbage ->
  well_framed frame_bytes ->
  scan_loop decode (length (garbage ++ frame_bytes)) (garbage ++ frame_bytes)
  = Some ([decode (slice 1 13 frame_bytes)], []).
Proof.
  intros Hg (Hlen & Hhead & Htail & Hsum).
  induction Hg as [|b garbage Hb _ IH].
  - cbn [app]. rewrite Hlen. by apply scan_valid.
  - cbn [app length]. rewrite (scan_loop_drop decode _ _ (garbage ++ frame_bytes)); [exact IH|].
    rewrite scan_step_garbage; [reflexivity | | exact Hb].
    cbn [length]. rewrite length_app, Hlen. unfold FRAME_LEN. lia.
Qed.

(** ** Chunking *)

Lemma byte_at_app (buf more : list byte) (i : nat) :
  (i < length buf)%nat -> byte_at (buf ++ more) i = byte_at buf i.
Proof. intros H. unfold byte_at. by rewrite lookup_app_l. Qed.

(** With a whole window buffered, what the scan does next does not depend
    on the bytes behind the window. *)
Lemma scan_step_app {F} (decode : list byte -> F) (buf more : list byte) :
  (FRAME_LEN <= length buf)%nat ->
  scan_step decode (buf ++ more)
  = match scan_step decode buf with
    | Stop => Stop
    | Drop buf' => Drop (buf' ++ more)
    | Emit f buf' => Emit f (buf' ++ more)
    end.
Proof.
  intros Hlen. unfold scan_step, FRAME_LEN in *.
  rewrite length_app.
  destruct (Nat.ltb_spec (length buf + length more) 15); [lia|].
  destruct (Nat.ltb_spec (length buf) 15); [lia|].
  rewrite !byte_at_app by lia.
  rewrite (take_app_le buf more 15) by lia.
  rewrite !(drop_app_le buf more) by lia.
  destruct (byte_at buf 0 =? HEAD); cbn [negb]; [|reflexivity].
  destruct (byte_at buf (15 - 1) =? TAIL); cbn [negb]; [|reflexivity].
  destruct (_ =? _); reflexivity.
Qed.

Lemma scan_loop_more_fuel {F} (decode : list byte -> F) (fuel : nat) :
  forall (buf : list byte) (r : list F * list byte),
    scan_loop decode fuel buf = Some r -> scan_loop decode (S fuel) buf = Some r.
Proof.
  induction fuel as [|fuel IH]; intros buf r H.
  - cbn [scan_loop] in *. destruct (scan_step decode buf); [exact H | discriminate..].
  - remember (S fuel) as n eqn:En. cbn [scan_loop]. rewrite En in *. clear En n.
    cbn [scan_loop] in H. destruct (scan_step decode buf) as [|buf'|f buf']; [exact H| |].
    + by apply IH.
    + destruct (scan_loop decode fuel buf') as [[fs rest]|] eqn:E; [|discriminate].
      by rewrite (IH _ _ E).
Qed.

Lemma scan_loop_fuel_le {F} (decode : list byte -> F) (fuel fuel' : nat)
    (buf : list byte) (r : list F * list byte) :
  (fuel <= fuel')%nat ->
  scan_loop decode fuel buf = Some r -> scan_loop decode fuel' buf = Some r.
Proof.
  induction 1 as [|fuel' _ IH]; [done|]. intros H. by apply scan_loop_more_fuel, IH.
Qed.

Lemma scan_loop_app {F} (decode : list byte -> F) (more : list byte) (fuel : nat) :
  forall (buf : list byte) (fs : list F) (rest : list byte),
    scan_loop decode fuel buf = Some (fs, rest) ->
    forall (fuel2 : nat) (fs2 : list F) (rest2 : list byte),
      scan_loop decode fuel2 (rest ++ more) = Some (fs2, rest2) ->
      scan_loop decode (fuel + fuel2) (buf ++ more) = Some (fs ++ fs2, rest2).
Proof.
  induction fuel as [|fuel IH]; intros buf fs rest H fuel2 fs2 rest2 H2.
  - cbn [scan_loop] in H. destruct (scan_step decode buf) eqn:E; [|discriminate..].
    injection H as <- <-. exact H2.
  - pose proof (scan_step_progress decode buf) as Hp.
    cbn [scan_loop] in H. destruct (scan_step decode buf) as [|buf'|f buf'] eqn:E.
    + injection H as <- <-. cbn [app].
      apply (scan_loop_fuel_le decode fuel2); [lia | exact H2].
    + destruct Hp as (_ & _ & Hge).
      cbn [Nat.add]. rewrite (scan_loop_drop decode _ _ (buf' ++ more)).
      * by apply (IH _ _ _ H).
      * rewrite scan_step_app by exact Hge. by rewrite E.
    + destruct Hp as (_ & _ & Hl).
      destruct (scan_loop decode fuel buf') as [[fs' rest']|] eqn:E'; [|discriminate].
      injection H as <- <-.
      cbn [Nat.add]. rewrite (scan_loop_emit decode _ _ (buf' ++ more) f).
      * by rewrite (IH _ _ _ E' _ _ _ H2).
      * rewrite scan_step_app by (unfold FRAME_LEN in *; lia). by rewrite E.
Qed.

(** ** Frames between bytes that are no head marker *)

(** Frames, each after the bytes that precede it on the line. *)
Fixpoint stream (items : list (list byte * list byte)) : list byte :=
  match items with
  | [] => []
  | (garbage, frame_bytes) :: rest => (garbage ++ frame_bytes) ++ stream rest
  end.

Lemma scan_loop_stream {F} (decode : list byte -> F) (items : list (list byte * list byte)) :
  Forall (fun item : list byte * list byte =>
            Forall (fun b => b2z b <> HEAD) item.1 /\ well_framed item.2) items ->
  scan_loop decode (length (stream items)) (stream items)
  = Some ((fun item : list byte * list byte => decode (slice 1 13 item.2)) <$> items, []).
Proof.
  induction 1 as [|[garbage frame_bytes] items [Hg Hw] _ IH]; [reflexivity|].
  cbn [stream fst snd fmap list_fmap] in *. rewrite length_app.
  apply (scan_loop_app decode (stream items) _ (garbage ++ frame_bytes)
           [decode (slice 1 13 frame_bytes)] []).
  - by apply resync_with.
  - exact IH.
Qed.

(** X1. A line made of frames, each preceded by any number of bytes that are
    not the head marker 0xA5, is decoded completely: [feed] and
    [process_binary_buffer] hand over the payload of every frame, in order,
    and leave the buffer empty. *)
Theorem frames_between_garbage (items : list (list byte * list byte)) (now : string) :
  Forall (fun item : list byte * list byte =>
            Forall (fun b => b2z b <> HEAD) item.1 /\ well_framed item.2) items ->
  feed [] (stream items)
    = Some ((fun item : list byte * list byte => decode (slice 1 13 item.2)) <$> items, []) /\
  process_binary_buffer now (stream items)
    = Some ((fun item : list byte * list byte => page_decode now (slice 1 13 item.2))
              <$> items, []).
Proof.
  intros Hitems. split.
  - unfold feed, feed_with. rewrite app_nil_l. by apply scan_loop_stream.
  - unfold process_binary_buffer. by apply scan_loop_stream.
Qed.

Lemma sample_frame_well_framed : well_framed sample_frame.
Proof. repeat split; vm_compute; reflexivity. Qed.

(** Three stray bytes, a frame, one stray byte, the frame again. *)
Definition noisy_line : list (list byte * list byte) :=
  [([x00; xff; x5a], sample_frame); ([x5a], sample_frame)].

Lemma frames_between_garbage_witness :
  feed [] (stream noisy_line)
    = Some ((fun item : list byte * list byte => decode (slice 1 13 item.2))
              <$> noisy_line, []) /\
  process_binary_buffer "12:00:00.000" (stream noisy_line)
    = Some ((fun item : list byte * list byte =>
               page_decode "12:00:00.000" (slice 1 13 item.2)) <$> noisy_line, []).
Proof.
  apply (frames_between_garbage noisy_line "12:00:00.000").
  repeat (constructor; [split; [repeat constructor; vm_compute; discriminate
                               | apply sample_frame_well_framed]|]).
  constructor.
Defined.

(** X2. Splitting does not matter: feeding a chunk in two pieces gives the
    frames of the two calls, one after the other, and leaves the buffer that
    feeding the chunk whole leaves; all three calls return. *)
Theorem feed_chunks {F} (decode : list byte -> F) (buffer a b : list byte) :
  exists (frames1 frames2 : list F) (rest1 rest2 : list byte),
    feed_with decode buffer a = Some (frames1, rest1) /\
    feed_with decode rest1 b = Some (frames2, rest2) /\
    feed_with decode buffer (a ++ b) = Some (frames1 ++ frames2, rest2).
Proof.
  unfold feed_with.
  destruct (scan_loop_enough decode (length (buffer ++ a)) (buffer ++ a))
    as (fs1 & r1 & H1 & _); [lia|].
  destruct (scan_loop_enough decode (length (r1 ++ b)) (r1 ++ b))
    as (fs2 & r2 & H2 & _); [lia|].
  destruct (scan_loop_enough decode (length (buffer ++ a ++ b)) (buffer ++ a ++ b))
    as (fs & r & H & _); [lia|].
  exists fs1, fs2, r1, r2. split; [exact H1|]. split; [exact H2|].
  pose proof (scan_loop_app decode b _ _ _ _ H1 _ _ _ H2) as H12.
  rewrite <- app_assoc in H12.
  assert (E1 : scan_loop decode
                 (length (buffer ++ a) + length (r1 ++ b) + length (buffer ++ a ++ b))
                 (buffer ++ a ++ b) = Some (fs1 ++ fs2, r2))
    by (eapply scan_loop_fuel_le; [|exact H12]; lia).
  assert (E2 : scan_loop decode
                 (length (buffer ++ a) + length (r1 ++ b) + length (buffer ++ a ++ b))
                 (buffer ++ a ++ b) = Some (fs, r))
    by (eapply scan_loop_fuel_le; [|exact H]; lia).
  rewrite H. congruence.
Qed.

(** ** Soundness *)

Lemma emit_well_framed {F} (decode : list byte -> F) (buf buf' : list byte) (f : F) :
  scan_step decode buf = Emit f buf' -> well_framed (take FRAME_LEN buf).
Proof.
  unfold scan_step. intros H.
  destruct (Nat.ltb_spec (length buf) FRAME_LEN) as [|Hge]; [discriminate|].
  destruct (Z.eqb_spec (byte_at buf 0) HEAD) as [Hh|]; cbn [negb] in H; [|discriminate].
  destruct (Z.eqb_spec (byte_at buf (FRAME_LEN - 1)) TAIL) as [Ht|];
    cbn [negb] in H; [|discriminate].
  destruct (Z.eqb_spec (Z.land (sum_bytes (slice 1 13 (take FRAME_LEN buf))) 0xFF)
              (byte_at (take FRAME_LEN buf) 13)) as [Hs|]; [|discriminate].
  unfold well_framed, FRAME_LEN in *. repeat split.
  - rewrite length_take. lia.
  - unfold byte_at in *. by rewrite lookup_take_lt by lia.
  - unfold byte_at in *. by rewrite lookup_take_lt by lia.
  - by rewrite <- Hs, land_0xFF.
Qed.

(** The frame handed over at offset [k] of the bytes [input]. *)
Definition frame_at {F} (decode : list byte -> F) (input : list byte) (f : F) : Prop :=
  exists k : nat,
    well_framed (take FRAME_LEN (drop k input)) /\
    f = decode (slice 1 13 (take FRAME_LEN (drop k input))).

Lemma scan_loop_sound {F} (decode : list byte -> F) (fuel : nat) :
  forall (buf : list byte) (fs : list F) (rest : list byte),
    scan_loop decode fuel buf = Some (fs, rest) ->
    Forall (frame_at decode buf) fs /\ exists k, rest = drop k buf.
Proof.
  induction fuel as [|fuel IH]; intros buf fs rest H.
  - cbn [scan_loop] in H. destruct (scan_step decode buf); [|discriminate..].
    injection H as <- <-. split; [constructor | by exists 0%nat].
  - pose proof (scan_step_progress decode buf) as Hp.
    cbn [scan_loop] in H. destruct (scan_step decode buf) as [|buf'|f buf'] eqn:E.
    + injection H as <- <-. split; [constructor | by exists 0%nat].
    + destruct Hp as (-> & _ & _).
      destruct (IH _ _ _ H) as [Hall [k ->]]. split.
      * eapply Forall_impl; [exact Hall|]. intros f (j & Hw & ->).
        exists (1 + j)%nat. by rewrite <- drop_drop.
      * exists (1 + k)%nat. by rewrite drop_drop.
    + destruct Hp as (Hf & -> & _).
      destruct (scan_loop decode fuel (drop FRAME_LEN buf)) as [[fs' rest']|] eqn:E';
        [|discriminate].
      injection H as <- <-.
      destruct (IH _ _ _ E') as [Hall [k ->]]. split.
      * constructor.
        -- exists 0%nat. rewrite drop_0. split; [by eapply emit_well_framed|].
           rewrite Hf. f_equal. unfold slice, FRAME_LEN.
           change 15%nat with (1 + 14)%nat.
           by rewrite <- take_drop_commute, !take_take.
        -- eapply Forall_impl; [exact Hall|]. intros f' (j & Hw & ->).
           exists (FRAME_LEN + j)%nat. by rewrite <- drop_drop.
      * exists (FRAME_LEN + k)%nat. by rewrite drop_drop.
Qed.

(** X3. Nothing is invented: every frame [feed] hands over is decoded from
    15 consecutive bytes of the buffered input that start with 0xA5, end
    with 0x5A and carry the checksum of their payload; what stays in the
    buffer is a tail of that input, and the frames and the remainder together
    are no longer than it. *)
Theorem feed_sound {F} (decode : list byte -> F) (buffer data : list byte) :
  exists (frames : list F) (rest : list byte),
    feed_with decode buffer data = Some (frames, rest) /\
    Forall (frame_at decode (buffer ++ data)) frames /\
    (exists k, rest = drop k (buffer ++ data)) /\
    (FRAME_LEN * length frames + length rest <= length (buffer ++ data))%nat.
Proof.
  unfold feed_with.
  destruct (scan_loop_enough decode (length (buffer ++ data)) (buffer ++ data))
    as (fs & rest & H & _ & Hcount); [lia|].
  exists fs, rest. split; [exact H|].
  destruct (scan_loop_sound decode _ _ _ _ H) as [Hall Hk]. by repeat split.
Qed.

End BinaryStream.

(** * The JSON decoders on a stream of objects *)

Module JsonStream.

Import JsonFrame.

(** The text of the object with the members [b]. *)
Definition obj_text (b : text) : text := "{"%char :: b ++ ["}"%char].

(** Characters that are neither a quote nor a brace: separators between
    objects (newlines, spaces) and leading noise. *)
Definition plain (c : ascii) : Prop :=
  c <> dquote /\ c <> "{"%char /\ c <> "}"%char.

(** Objects, each followed by a separator. *)
Fixpoint stream (items : list (text * text)) : text :=
  match items with
  | [] => []
  | (b, sep) :: rest => obj_text b ++ sep ++ stream rest
  end.

(** The separator after the last object. *)
Definition trailing (items : list (text * text)) : text :=
  match last items with
  | Some (_, sep) => sep
  | None => []
  end.

(** What [json.loads] makes of the objects, taken in order: the values of
    those it parses, those it rejects with [JSONDecodeError] left out, up to
    the first object on which it raises another exception; and whether there
    is such an object. *)
Fixpoint parsed {Obj} (json_loads : text -> loaded Obj) (items : list (text * text))
  : list Obj * bool :=
  match items with
  | [] => ([], false)
  | (b, _) :: rest =>
      match json_loads (obj_text b) with
      | Parsed d => let '(ds, raised) := parsed json_loads rest in (d :: ds, raised)
      | DecodeError => parsed json_loads rest
      | OtherError => ([], true)
      end
  end.

(** The spans of the objects of a stream that starts at index [off]. *)
Fixpoint spans (off : nat) (items : list (text * text)) : list (nat * nat) :=
  match items with
  | [] => []
  | (b, sep) :: rest =>
      (off, off + S (length b))%nat :: spans (off + length (obj_text b) + length sep) rest
  end.

Lemma length_obj_text (b : text) : length (obj_text b) = S (S (length b)).
Proof. unfold obj_text. cbn [length]. rewrite length_app. cbn [length]. lia. Qed.

(** ** The scan of [process_json_buffer] *)

Lemma scan_plain (sep : text) :
  Forall plain sep ->
  forall (s0 : option nat) (d : Z) (o : list (nat * nat)) (i : nat) (r : text),
    scan_from {| start := s0; depth := d; in_str := false; esc := false; objs := o |}
              i (sep ++ r)
    = scan_from {| start := s0; depth := d; in_str := false; esc := false; objs := o |}
                (i + length sep) r.
Proof.
  induction 1 as [|c sep (Hq & Ho & Hc) _ IH]; intros s0 d o i r.
  - cbn. by rewrite Nat.add_0_r.
  - cbn [app scan_from length]. unfold scan_char. cbn [in_str].
    rewrite (is_char_ne dquote c Hq), (is_char_ne "{" c Ho), (is_char_ne "}" c Hc), IH.
    f_equal. lia.
Qed.

Lemma scan_object_at (b : text) :
  balanced b ->
  forall (s0 : option nat) (o : list (nat * nat)) (i : nat) (r : text),
    scan_from {| start := s0; depth := 0; in_str := false; esc := false; objs := o |}
              i (obj_text b ++ r)
    = scan_from {| start := Some i; depth := 0; in_str := false; esc := false;
                   objs := o ++ [(i, i + S (length b))%nat] |}
                (i + length (obj_text b)) r.
Proof.
  intros Hb s0 o i r. unfold obj_text. cbn [app scan_from].
  unfold scan_char at 1. cbn [in_str esc start depth objs].
  change (is_char dquote "{") with false. rewrite is_char_eq.
  change (0 =? 0) with true. change (0 + 1) with 1. cbv iota.
  rewrite <- app_assoc, scan_balanced by (assumption || lia).
  cbn [app scan_from]. unfold scan_char at 1. cbn [in_str esc start depth objs].
  change (is_char dquote "}") with false. change (is_char "{" "}") with false.
  rewrite is_char_eq. change (1 >? 0) with true. change (1 - 1 =? 0) with true. cbv iota.
  f_equal; [|cbn [length]; rewrite length_app; cbn [length]; lia].
  f_equal. f_equal. f_equal. f_equal. lia.
Qed.

Lemma scan_stream (items : list (text * text)) :
  Forall (fun item : text * text => balanced item.1 /\ Forall plain item.2) items ->
  forall (s0 : option nat) (o : list (nat * nat)) (off : nat),
    objs (scan_from {| start := s0; depth := 0; in_str := false; esc := false; objs := o |}
                    off (stream items))
    = o ++ spans off items.
Proof.
  induction 1 as [|[b sep] items [Hb Hsep] _ IH]; intros s0 o off.
  - cbn. by rewrite app_nil_r.
  - cbn [stream spans fst snd] in *.
    rewrite scan_object_at by exact Hb. rewrite scan_plain by exact Hsep.
    rewrite IH, <- app_assoc. reflexivity.
Qed.

Lemma process_unfold {Obj} (json_loads : text -> loaded Obj) (stamp : Obj -> Obj)
    (buf : text) :
  process_json_buffer json_loads stamp buf
  = let found := objs (scan_from scan_init 0 buf) in
    ((emit_spans json_loads stamp buf found).1,
     if (emit_spans json_loads stamp buf found).2 then buf
     else match last found with
          | Some (_, last_consumed) => drop (last_consumed + 1) buf
          | None => match rfind "{" buf with Some idx => drop idx buf | None => [] end
          end).
Proof.
  destruct buf as [|c buf]; [reflexivity|]. unfold process_json_buffer. cbv zeta.
  by destruct (emit_spans _ _ _ _) as [emitted [|]].
Qed.

Lemma rfind_absent (c : ascii) (buf : text) :
  Forall (fun ch => ch <> c) buf -> rfind c buf = None.
Proof.
  induction 1 as [|ch buf Hne _ IH]; [reflexivity|].
  cbn [rfind]. by rewrite IH, (is_char_ne c ch Hne).
Qed.

Lemma parsed_cons {Obj} (json_loads : text -> loaded Obj) (b sep : text)
    (items : list (text * text)) :
  parsed json_loads ((b, sep) :: items)
  = match json_loads (obj_text b) with
    | Parsed d => (d :: (parsed json_loads items).1, (parsed json_loads items).2)
    | DecodeError => parsed json_loads items
    | OtherError => ([], true)
    end.
Proof.
  cbn [parsed]. destruct (json_loads (obj_text b)); [|reflexivity..].
  by destruct (parsed json_loads items).
Qed.

Lemma emit_spans_cons {Obj} (json_loads : text -> loaded Obj) (stamp : Obj -> Obj)
    (buf : text) (s e : nat) (found : list (nat * nat)) :
  emit_spans json_loads stamp buf ((s, e) :: found)
  = match json_loads (slice s (e + 1) buf) with
    | Parsed d => (stamp d :: (emit_spans json_loads stamp buf found).1,
                   (emit_spans json_loads stamp buf found).2)
    | DecodeError => emit_spans json_loads stamp buf found
    | OtherError => ([], true)
    end.
Proof.
  cbn [emit_spans]. destruct (json_loads _); [|reflexivity..].
  by destruct (emit_spans json_loads stamp buf found).
Qed.

Lemma emitted_spans {Obj} (json_loads : text -> loaded Obj) (stamp : Obj -> Obj)
    (items : list (text * text)) :
  forall pre : text,
    emit_spans json_loads stamp (pre ++ stream items) (spans (length pre) items)
    = (stamp <$> (parsed json_loads items).1, (parsed json_loads items).2).
Proof.
  induction items as [|[b sep] items IH]; intros pre; [reflexivity|].
  rewrite parsed_cons. cbn [stream spans]. rewrite emit_spans_cons.
  assert (Hslice : slice (length pre) (length pre + S (length b) + 1)
                     (pre ++ obj_text b ++ sep ++ stream items) = obj_text b).
  { unfold slice. rewrite drop_app_length.
    apply take_app_length'. rewrite length_obj_text. lia. }
  rewrite Hslice.
  specialize (IH (pre ++ obj_text b ++ sep)).
  rewrite <- !app_assoc, !length_app in IH. rewrite Nat.add_assoc in IH.
  rewrite IH.
  destruct (json_loads (obj_text b)); reflexivity.
Qed.

Lemma rest_after_spans (items : list (text * text)) :
  items <> [] ->
  forall pre : text,
    match last (spans (length pre) items) with
    | Some (_, last_consumed) => drop (last_consumed + 1) (pre ++ stream items)
    | None => []
    end = trailing items.
Proof.
  induction items as [|[b sep] items IH]; [done|]. intros _ pre.
  destruct items as [|item items].
  - cbn [spans stream last]. unfold trailing. cbn [last].
    rewrite app_nil_r.
    replace (length pre + S (length b) + 1)%nat with (length (pre ++ obj_text b))
      by (rewrite length_app, length_obj_text; lia).
    by rewrite app_assoc, drop_app_length.
  - specialize (IH ltac:(done) (pre ++ obj_text b ++ sep)).
    rewrite <- !app_assoc, !length_app, Nat.add_assoc in IH.
    cbn [spans stream]. destruct item as [b' sep'].
    cbn [spans] in *. rewrite last_cons_cons. unfold trailing. rewrite last_cons_cons.
    exact IH.
Qed.

Lemma plain_no_open (sep : text) :
  Forall plain sep -> Forall (fun ch => ch <> "{"%char) sep.
Proof. intros H. eapply Forall_impl; [exact H|]. by intros c (_ & Ho & _). Qed.

(** X4. [process_json_buffer] on text that holds several objects: a lead of
    characters that are neither braces nor quotes, then objects with
    balanced braces and quotes, each followed by such characters. The
    objects are handed to [json.loads] in order. Every object it parses is
    emitted with its receive time, the ones it rejects with
    [JSONDecodeError] are skipped, and the buffer keeps what follows the last
    object. When [json.loads] raises another exception on an object, the
    objects parsed before it have been emitted, none after it is, and the
    buffer keeps the whole text. *)
Theorem objects_in_one_chunk {Obj} (json_loads : text -> loaded Obj) (stamp : Obj -> Obj)
    (lead : text) (items : list (text * text)) :
  Forall plain lead ->
  Forall (fun item : text * text => balanced item.1 /\ Forall plain item.2) items ->
  handle_json json_loads stamp [] (lead ++ stream items)
  = (stamp <$> (parsed json_loads items).1,
     if (parsed json_loads items).2 then lead ++ stream items else trailing items).
Proof.
  intros Hlead Hitems. unfold handle_json. rewrite app_nil_l, process_unfold. cbv zeta.
  assert (Hobjs : objs (scan_from scan_init 0 (lead ++ stream items))
                  = spans (length lead) items).
  { unfold scan_init. rewrite scan_plain by exact Hlead.
    by rewrite scan_stream by exact Hitems. }
  rewrite Hobjs, emitted_spans. cbn [fst snd]. f_equal.
  destruct (parsed json_loads items).2; [reflexivity|].
  destruct items as [|item items].
  - cbn [spans last stream]. rewrite app_nil_r.
    by rewrite rfind_absent by (by apply plain_no_open).
  - pose proof (rest_after_spans (item :: items) ltac:(done) lead) as Hrest.
    destruct (last (spans (length lead) (item :: items))) as [[s e]|] eqn:E; [exact Hrest|].
    apply last_None in E. destruct item. discriminate E.
Qed.

(** A number of 4301 digits. [json.loads] hands the digits to [int], which
    raises [ValueError] on more than 4300 of them. *)
Definition long_member : text :=
  [dquote; "n"; dquote; ":"]%char ++ repeat "9"%char 4301.

(** [json.loads] on the texts of the examples: [ValueError] on the object
    with the long number; on any other text the text itself, which stands
    for the parsed object. *)
Definition loads_sample (t : text) : loaded text :=
  if decide (t = obj_text long_member) then OtherError else Parsed t.

Definition first_member : text := [dquote; "a"; dquote; ":"; "1"]%char.
Definition last_member : text := [dquote; "b"; dquote; ":"; dquote; "}"; dquote]%char.

(** Three objects on three lines, the one with the long number in the
    middle; and a line of noise. *)
Definition three_lines : list (text * text) :=
  [(first_member, ["010"%char]); (long_member, ["010"%char]); (last_member, ["010"%char])].

Definition noise : text := ["o"; "k"; "010"]%char.

Lemma balanced_digits (n : nat) (r : text) :
  balanced r -> balanced (repeat "9"%char n ++ r).
Proof. intros Hr. induction n as [|n IH]; [exact Hr|]. by apply bal_char. Qed.

Lemma three_lines_ok :
  Forall plain noise /\
  Forall (fun item : text * text => balanced item.1 /\ Forall plain item.2) three_lines.
Proof.
  assert (Hnl : Forall plain ["010"%char]) by (by repeat constructor).
  split; [by repeat constructor|].
  repeat (constructor; [split; [|exact Hnl]|]); [| | |constructor]; cbn [fst].
  - apply (bal_str ["a"%char]); [by repeat constructor|].
    do 2 (apply bal_char; [done..|]). constructor.
  - apply (bal_str ["n"%char]); [by repeat constructor|].
    apply bal_char; [done..|].
    rewrite <- (app_nil_r (repeat _ _)). apply balanced_digits. constructor.
  - apply (bal_str ["b"%char]); [by repeat constructor|].
    apply bal_char; [done..|].
    apply (bal_str ["}"%char] []); [by repeat constructor | constructor].
Qed.

Lemma objects_in_one_chunk_witness :
  handle_json Parsed id [] (noise ++ stream three_lines)
    = ([obj_text first_member; obj_text long_member; obj_text last_member], ["010"%char])
  /\
  handle_json loads_sample id [] (noise ++ stream three_lines)
    = ([obj_text first_member], noise ++ stream three_lines).
Proof.
  split.
  - etransitivity;
      [apply (objects_in_one_chunk Parsed id noise three_lines); apply three_lines_ok|].
    reflexivity.
  - etransitivity;
      [apply (objects_in_one_chunk loads_sample id noise three_lines); apply three_lines_ok|].
    vm_compute. reflexivity.
Defined.

(** ** An object that arrives in two chunks *)

Lemma scan_no_close (buf : text) :
  Forall (fun ch => ch <> "}"%char) buf ->
  forall (st : scan) (i : nat), objs (scan_from st i buf) = objs st.
Proof.
  induction 1 as [|ch buf Hne _ IH]; intros st i; [reflexivity|].
  cbn [scan_from]. rewrite IH. unfold scan_char.
  rewrite (is_char_ne "}" ch Hne).
  destruct (in_str st), (esc st), (is_char backslash ch), (is_char dquote ch),
    (is_char "{" ch); reflexivity.
Qed.

Lemma rfind_first (c : ascii) (buf : text) :
  Forall (fun ch => ch <> c) buf -> rfind c (c :: buf) = Some 0%nat.
Proof. intros H. cbn [rfind]. by rewrite (rfind_absent c buf H), is_char_eq. Qed.

(** X5. An object without inner braces that arrives cut in two pieces: the
    first call of [handle_data] emits nothing and buffers the piece, the
    second emits the object and leaves the buffer empty. *)
Theorem object_in_two_chunks {Obj} (json_loads : text -> loaded Obj) (stamp : Obj -> Obj)
    (b chunk1 chunk2 : text) (d : Obj) :
  balanced b ->
  Forall (fun ch => ch <> "{"%char /\ ch <> "}"%char) b ->
  chunk1 ++ chunk2 = obj_text b ->
  chunk1 <> [] -> chunk2 <> [] ->
  json_loads (obj_text b) = Parsed d ->
  handle_json json_loads stamp [] chunk1 = ([], chunk1) /\
  handle_json json_loads stamp chunk1 chunk2 = ([stamp d], []).
Proof.
  intros Hb Hflat Hsplit Hne1 Hne2 Hd. split.
  - unfold handle_json. rewrite app_nil_l, process_unfold. cbv zeta.
    destruct chunk1 as [|c chunk1]; [done|].
    unfold obj_text in Hsplit. cbn [app] in Hsplit. injection Hsplit as -> Hrest.
    assert (Hprefix : chunk1 = take (length chunk1) b).
    { assert (Hlen : (length chunk1 <= length b)%nat).
      { apply (f_equal length) in Hrest. rewrite !length_app in Hrest. cbn in Hrest.
        destruct chunk2; [done|]. cbn in Hrest. lia. }
      apply (f_equal (take (length chunk1))) in Hrest.
      by rewrite take_app_length, take_app_le in Hrest by exact Hlen. }
    assert (Hc1 : Forall (fun ch => ch <> "{"%char /\ ch <> "}"%char) chunk1)
      by (rewrite Hprefix; by apply Forall_take).
    assert (Hobjs : objs (scan_from scan_init 0 ("{"%char :: chunk1)) = []).
    { apply scan_no_close. constructor; [done|].
      eapply Forall_impl; [exact Hc1|]. by intros ? [_ ?]. }
    rewrite Hobjs. cbn [emit_spans last fst snd].
    rewrite rfind_first; [by rewrite drop_0|].
    eapply Forall_impl; [exact Hc1|]. by intros ? [? _].
  - unfold handle_json. rewrite Hsplit.
    apply (process_object_text json_loads stamp (obj_text b) d); [|exact Hd].
    by exists b.
Qed.

Definition flat_members : text := [dquote; "M"; "s"; dquote; ":"; "1"]%char.

Lemma object_in_two_chunks_witness :
  handle_json Parsed id [] ["{"; dquote; "M"]%char = ([], ["{"; dquote; "M"]%char) /\
  handle_json Parsed id ["{"; dquote; "M"]%char ["s"; dquote; ":"; "1"; "}"]%char
    = ([obj_text flat_members], []).
Proof.
  apply (object_in_two_chunks Parsed id flat_members
           ["{"; dquote; "M"]%char ["s"; dquote; ":"; "1"; "}"]%char (obj_text flat_members));
    try done.
  - apply (bal_str ["M"; "s"]%char); [by repeat constructor|].
    do 2 (apply bal_char; [done..|]). constructor.
  - by repeat constructor.
Defined.

(** ** Text without an opening brace *)

Lemma scan_no_open (buf : text) :
  Forall (fun ch => ch <> "{"%char) buf ->
  forall (st : scan) (i : nat),
    start st = None -> objs (scan_from st i buf) = objs st.
Proof.
  induction 1 as [|ch buf Hne _ IH]; intros st i Hst; [reflexivity|].
  cbn [scan_from]. rewrite IH.
  - unfold scan_char. rewrite (is_char_ne "{" ch Hne), Hst.
    destruct (in_str st), (esc st), (is_char backslash ch), (is_char dquote ch),
      (is_char "}" ch), (depth st >? 0); reflexivity.
  - unfold scan_char. rewrite (is_char_ne "{" ch Hne).
    destruct (in_str st), (esc st), (is_char backslash ch), (is_char dquote ch),
      (is_char "}" ch), (depth st >? 0); exact Hst.
Qed.

Lemma contains_absent (c : ascii) (buf : text) :
  Forall (fun ch => ch <> c) buf -> contains c buf = false.
Proof.
  induction 1 as [|ch buf Hne _ IH]; [reflexivity|].
  unfold contains in *. cbn [existsb]. by rewrite IH, (is_char_ne c ch Hne).
Qed.

Lemma find_absent (c : ascii) (buf : text) :
  Forall (fun ch => ch <> c) buf -> find c buf = None.
Proof.
  induction 1 as [|ch buf Hne _ IH]; [reflexivity|].
  cbn [find]. by rewrite IH, (is_char_ne c ch Hne).
Qed.

(** X6. Text without an opening brace holds no object. [process_json_buffer]
    emits nothing and empties its buffer; [JsonFrameDecoder.feed] emits
    nothing and keeps the text, unless it contains a closing brace, in which
    case the text is discarded. *)
Theorem text_without_object {Obj} (json_loads : text -> loaded Obj) (stamp : Obj -> Obj)
    (buffer data : text) :
  Forall (fun ch => ch <> "{"%char) (buffer ++ data) ->
  handle_json json_loads stamp buffer data = ([], []) /\
  feed json_loads buffer data
    = Some ([], if contains "}" (buffer ++ data) then [] else buffer ++ data).
Proof.
  intros Hno. split.
  - unfold handle_json. rewrite process_unfold. cbv zeta.
    rewrite (scan_no_open _ Hno scan_init 0 eq_refl).
    cbn [objs scan_init emit_spans last fst snd].
    by rewrite (rfind_absent _ _ Hno).
  - unfold feed. cbv zeta. destruct (buffer ++ data) as [|c l] eqn:E; [reflexivity|].
    cbn [length feed_loop]. destruct (contains "}" (c :: l)); cbn [negb]; [|reflexivity].
    by rewrite (find_absent _ _ Hno).
Qed.

Lemma text_without_object_witness :
  handle_json (Obj := text) Parsed id ["o"; "k"]%char ["}"; "010"]%char = ([], []) /\
  feed (Obj := text) Parsed ["o"; "k"]%char ["}"; "010"]%char
    = Some ([], if contains "}" (["o"; "k"]%char ++ ["}"; "010"]%char)
                then [] else ["o"; "k"]%char ++ ["}"; "010"]%char).
Proof.
  apply (text_without_object Parsed id ["o"; "k"]%char ["}"; "010"]%char).
  by repeat constructor.
Defined.

(** ** The brace counter of [JsonFrameDecoder] on a stream *)

(** Characters that are not braces. *)
Definition no_brace (c : ascii) : Prop := c <> "{"%char /\ c <> "}"%char.

Lemma find_after (c : ascii) (lead r : text) :
  Forall (fun ch => ch <> c) lead -> find c (lead ++ c :: r) = Some (length lead).
Proof.
  induction 1 as [|ch lead Hne _ IH]; cbn [app find length].
  - by rewrite is_char_eq.
  - by rewrite (is_char_ne c ch Hne), IH.
Qed.

Lemma match_end_object (b r : text) (i : nat) :
  nested b -> match_end 0 i (obj_text b ++ r) = Some (i + S (length b))%nat.
Proof.
  intros Hb. unfold obj_text. cbn [app match_end]. rewrite is_char_eq.
  change (0 + 1 =? 0) with false. cbv iota.
  rewrite <- app_assoc, (match_end_nested b Hb) by lia.
  cbn [app match_end]. change (is_char "{" "}") with false. rewrite is_char_eq.
  change (0 + 1 - 1 =? 0) with true. cbv iota. f_equal. lia.
Qed.

Lemma feed_loop_stream {Obj} (json_loads : text -> loaded Obj) (items : list (text * text)) :
  Forall (fun item : text * text => nested item.1 /\ Forall no_brace item.2) items ->
  forall (lead : text) (fuel : nat),
    Forall no_brace lead ->
    (length (lead ++ stream items) <= fuel)%nat ->
    feed_loop json_loads fuel (lead ++ stream items)
    = Some ((parsed json_loads items).1,
            if (parsed json_loads items).2 then []
            else if items is [] then lead else trailing items).
Proof.
  induction 1 as [|[b sep] items [Hb Hsep] _ IH]; intros lead fuel Hlead Hfuel.
  - cbn [stream]. rewrite app_nil_r.
    destruct fuel; cbn [feed_loop];
      rewrite contains_absent by (eapply Forall_impl; [exact Hlead|]; by intros ? [_ ?]);
      reflexivity.
  - cbn [stream fst snd] in *.
    assert (Hlen : length (lead ++ obj_text b ++ sep ++ stream items)
                   = (length lead + S (S (length b)) + length (sep ++ stream items))%nat)
      by (rewrite !length_app, length_obj_text; lia).
    destruct fuel as [|fuel]; [lia|]. cbn [feed_loop].
    assert (Hc : contains "}" (lead ++ obj_text b ++ sep ++ stream items) = true).
    { unfold contains, obj_text. rewrite !existsb_app. cbn [existsb].
      rewrite existsb_app. cbn [existsb]. rewrite is_char_eq.
      by rewrite !orb_true_r. }
    rewrite Hc. cbn [negb].
    unfold obj_text at 1. cbn [app].
    rewrite find_after by (eapply Forall_impl; [exact Hlead|]; by intros ? [? _]).
    rewrite drop_app_length. fold (obj_text b).
    change ("{"%char :: b ++ ["}"%char]) with (obj_text b).
    change ("{"%char :: (b ++ ["}"%char]) ++ sep ++ stream items)
      with (obj_text b ++ sep ++ stream items).
    rewrite (match_end_object b _ _ Hb).
    assert (Hslice : slice (length lead) (length lead + S (length b) + 1)
                       (lead ++ obj_text b ++ sep ++ stream items) = obj_text b).
    { unfold slice. rewrite drop_app_length.
      apply take_app_length'. rewrite length_obj_text. lia. }
    assert (Hdrop : drop (length lead + S (length b) + 1)
                      (lead ++ obj_text b ++ sep ++ stream items) = sep ++ stream items).
    { replace (length lead + S (length b) + 1)%nat with (length (lead ++ obj_text b))
        by (rewrite length_app, length_obj_text; lia).
      by rewrite app_assoc, drop_app_length. }
    cbv zeta. rewrite Hslice, Hdrop, (IH sep fuel Hsep) by lia.
    rewrite parsed_cons.
    assert (Hrest : (if items is [] then sep else trailing items)
                    = trailing ((b, sep) :: items)).
    { destruct items as [|item items]; [reflexivity|].
      unfold trailing. by rewrite last_cons_cons. }
    rewrite <- Hrest. destruct (json_loads (obj_text b)); reflexivity.
Qed.

(** X7. [JsonFrameDecoder.feed] on text that holds several objects: a lead of
    characters that are no braces, then objects whose braces are nested
    properly, each followed by characters that are no braces. The objects
    are handed to [json.loads] in order. Every object it parses is handed
    over, the ones it rejects with [JSONDecodeError] are dropped, and the
    buffer keeps what follows the last object (the lead, when there is no
    object). When [json.loads] raises another exception on an object, the
    objects parsed before it have been handed over, none after it is, and
    the buffer is emptied. *)
Theorem feed_stream {Obj} (json_loads : text -> loaded Obj)
    (lead : text) (items : list (text * text)) :
  Forall no_brace lead ->
  Forall (fun item : text * text => nested item.1 /\ Forall no_brace item.2) items ->
  feed json_loads [] (lead ++ stream items)
  = Some ((parsed json_loads items).1,
          if (parsed json_loads items).2 then []
          else if items is [] then lead else trailing items).
Proof.
  intros Hlead Hitems. unfold feed. rewrite app_nil_l.
  by apply feed_loop_stream.
Qed.

Definition inner_member : text := [dquote; "b"; dquote; ":"; "{"; "}"]%char.

(** Three objects on three lines whose strings hold no brace. *)
Definition three_plain_lines : list (text * text) :=
  [(first_member, ["010"%char]); (long_member, ["010"%char]); (inner_member, ["010"%char])].

Lemma nested_digits (n : nat) (r : text) :
  nested r -> nested (repeat "9"%char n ++ r).
Proof. intros Hr. induction n as [|n IH]; [exact Hr|]. by apply nest_char. Qed.

Lemma three_plain_lines_ok :
  Forall no_brace noise /\
  Forall (fun item : text * text => nested item.1 /\ Forall no_brace item.2)
         three_plain_lines.
Proof.
  assert (Hnl : Forall no_brace ["010"%char]) by (by repeat constructor).
  split; [by repeat constructor|].
  repeat (constructor; [split; [|exact Hnl]|]); [| | |constructor]; cbn [fst].
  - do 5 (apply nest_char; [done..|]). constructor.
  - unfold long_member. cbn [app]. do 4 (apply nest_char; [done..|]).
    rewrite <- (app_nil_r (repeat _ _)). apply nested_digits. constructor.
  - do 4 (apply nest_char; [done..|]). apply (nest_obj [] []); constructor.
Qed.

Lemma feed_stream_witness :
  feed Parsed [] (noise ++ stream three_plain_lines)
    = Some ([obj_text first_member; obj_text long_member; obj_text inner_member],
            ["010"%char])
  /\
  feed loads_sample [] (noise ++ stream three_plain_lines)
    = Some ([obj_text first_member], []).
Proof.
  split.
  - etransitivity;
      [apply (feed_stream Parsed noise three_plain_lines); apply three_plain_lines_ok|].
    reflexivity.
  - etransitivity;
      [apply (feed_stream loads_sample noise three_plain_lines);
       apply three_plain_lines_ok|].
    vm_compute. reflexivity.
Defined.

End JsonStream.

(** * The filter histories of [DataMonitorPage] *)

Module FilterHistory.

Import Filters.

(** ** [sorted] rearranges *)

Lemma insert_sorted_perm (v : float) (l : list float) : insert_sorted v l ≡ₚ v :: l.
Proof.
  induction l as [|y r IH]; [reflexivity|].
  cbn [insert_sorted]. destruct (v <? y)%float; [reflexivity|].
  rewrite IH. apply Permutation_swap.
Qed.

Lemma sorted_perm (l : list float) : sorted l ≡ₚ l.
Proof.
  unfold sorted.
  enough (H : forall acc, foldl (fun acc v => insert_sorted v acc) acc l ≡ₚ acc ++ l)
    by apply (H []).
  induction l as [|v l IH]; intros acc; cbn [foldl].
  - by rewrite app_nil_r.
  - rewrite IH, insert_sorted_perm. cbn [app]. apply Permutation_middle.
Qed.

Lemma sorted_length (l : list float) : length (sorted l) = length l.
Proof. by rewrite sorted_perm. Qed.

(** ** One call of [_apply_filter] with a history filter *)

(** [buf.append(v)] followed by [del buf[:len(buf) - max_buf]] when the
    list is longer than [max_buf = 2 * window_size]. *)
Definition appended (window_size : Z) (buf : list float) (v : float) : list float :=
  let buf := buf ++ [v] in
  if Z.of_nat (length buf) >? window_size * 2
  then drop (Z.to_nat (Z.of_nat (length buf) - window_size * 2)) buf
  else buf.

Lemma apply_filter_history (fsum : list float -> float) (pg : page) (key : string)
    (raw_value : float) (buf : list float) :
  filter_type pg <> KALMAN ->
  filter_buffers pg !! key = Some buf ->
  exists out,
    _apply_filter fsum pg key raw_value
    = Ok (with_buffer pg key (appended (window_size pg) buf raw_value), out).
Proof.
  intros Hft Hbuf. unfold _apply_filter. cbv zeta.
  destruct (decide (filter_type pg = KALMAN)) as [|_]; [done|].
  rewrite Hbuf. fold (appended (window_size pg) buf raw_value).
  set (buf' := appended (window_size pg) buf raw_value).
  destruct (decide (filter_type pg = NONE)); [by eexists|].
  cbn [window_size with_buffer].
  destruct (Z.leb_spec (Z.min (window_size pg) (Z.of_nat (length buf'))) 0) as [|Hw];
    [by eexists|].
  destruct (filter_type pg); try by eexists.
  set (window := last_n _ buf').
  assert (Hlen : (0 < length window)%nat).
  { unfold window, last_n. rewrite length_drop. lia. }
  destruct (lookup_lt_is_Some_2 (sorted window) (length (sorted window) / 2))
    as [m Hm].
  { rewrite sorted_length. apply Nat.div_lt; lia. }
  rewrite Hm. by eexists.
Qed.

Lemma drop_same {A} (a c : nat) (l : list A) :
  a = c \/ (length l <= a /\ length l <= c)%nat -> drop a l = drop c l.
Proof. intros [->|[Ha Hc]]; [done|]. by rewrite !drop_ge. Qed.

Lemma appended_last_n (w : Z) (h : list float) (v : float) :
  appended w (last_n (Z.to_nat (w * 2)) h) v = last_n (Z.to_nat (w * 2)) (h ++ [v]).
Proof.
  unfold appended, last_n. cbv zeta.
  set (n := Z.to_nat (w * 2)).
  assert (Hpre : drop (length h - n) h ++ [v] = drop (length h - n) (h ++ [v]))
    by (rewrite drop_app_le by lia; done).
  rewrite Hpre, !length_drop, !length_app. cbn [length].
  destruct (Z.gtb_spec (Z.of_nat (length h + 1 - (length h - n))) (w * 2)).
  - rewrite drop_drop. apply drop_same. rewrite length_app. cbn [length]. lia.
  - apply drop_same. lia.
Qed.

(** ** A run on one channel *)

Lemma filter_all_history (fsum : list float -> float) (key : string) (values : list float) :
  forall (pg : page) (h : list float),
    filter_type pg <> KALMAN ->
    filter_buffers pg !! key = Some (last_n (Z.to_nat (window_size pg * 2)) h) ->
    exists pg' outs,
      filter_all fsum pg key values = Ok (pg', outs) /\
      length outs = length values /\
      filter_buffers pg' !! key
        = Some (last_n (Z.to_nat (window_size pg * 2)) (h ++ values)) /\
      (forall other, other <> key ->
         filter_buffers pg' !! other = filter_buffers pg !! other) /\
      kalman_filters pg' = kalman_filters pg.
Proof.
  induction values as [|v values IH]; intros pg h Hft Hbuf.
  - exists pg, []. by rewrite app_nil_r.
  - cbn [filter_all].
    destruct (apply_filter_history fsum pg key v _ Hft Hbuf) as [out ->].
    cbn [mbind result_bind].
    destruct (IH (with_buffer pg key
                    (appended (window_size pg) (last_n (Z.to_nat (window_size pg * 2)) h) v))
                 (h ++ [v]) Hft) as (pg' & outs & -> & Hlen & Hkey & Hother & Hk).
    { cbn [with_buffer filter_buffers window_size].
      by rewrite lookup_insert_eq, appended_last_n. }
    exists pg', (out :: outs). cbn [with_buffer window_size] in *.
    rewrite <- app_assoc in Hkey. cbn [app] in Hkey.
    repeat split; [by cbn; rewrite Hlen | exact Hkey | | exact Hk].
    intros other Hne. rewrite (Hother other Hne).
    cbn [filter_buffers with_buffer]. by rewrite lookup_insert_ne.
Qed.

Lemma page_init_buffer (ft : FilterType) (w : Z) (kQ kR : float) (key : string) :
  key ∈ channels -> filter_buffers (page_init ft w kQ kR) !! key = Some [].
Proof.
  intros Hkey. unfold page_init. cbv zeta.
  assert (H : (list_to_map ((fun key => (key, [])) <$> channels)
               : gmap string (list float)) !! key = Some []).
  { unfold channels in *. set_unfold.
    destruct Hkey as [->|[->|[->|[->|[]]]]]; reflexivity. }
  by destruct (decide (ft = KALMAN)).
Qed.

Lemma page_init_settings (ft : FilterType) (w : Z) (kQ kR : float) :
  filter_type (page_init ft w kQ kR) = ft /\ window_size (page_init ft w kQ kR) = w.
Proof. unfold page_init. cbv zeta. by destruct (decide (ft = KALMAN)). Qed.

(** X8. With a filter that keeps a history (none, moving average, median),
    feeding one channel of a new page any values raises nothing and returns
    one output per value; the history of the channel is then the last
    [2 * window_size] values fed (all of them when there are fewer), and the
    histories of the other channels are untouched. *)
Theorem history_is_recent_values (fsum : list float -> float) (ft : FilterType) (w : Z)
    (kQ kR : float) (key : string) (values : list float) :
  ft <> KALMAN -> key ∈ channels ->
  exists pg' outs,
    filter_all fsum (page_init ft w kQ kR) key values = Ok (pg', outs) /\
    length outs = length values /\
    filter_buffers pg' !! key = Some (last_n (Z.to_nat (w * 2)) values) /\
    (forall other, other <> key ->
       filter_buffers pg' !! other = filter_buffers (page_init ft w kQ kR) !! other).
Proof.
  intros Hft Hkey.
  destruct (page_init_settings ft w kQ kR) as [Eft Ew].
  destruct (filter_all_history fsum key values (page_init ft w kQ kR) [])
    as (pg' & outs & Hrun & Hlen & Hbuf & Hother & _).
  - by rewrite Eft.
  - rewrite page_init_buffer by exact Hkey. unfold last_n. by rewrite drop_nil.
  - exists pg', outs. rewrite Ew in Hbuf. by rewrite app_nil_l in Hbuf.
Qed.

Lemma history_is_recent_values_witness :
  exists pg' outs,
    filter_all (foldr PrimFloat.add 0%float) (page_init MOVING_AVG 1 0.01 0.1) "glucose"
               [1; 2; 3]%float = Ok (pg', outs) /\
    length outs = length [1; 2; 3]%float /\
    filter_buffers pg' !! "glucose" = Some (last_n (Z.to_nat (1 * 2)) [1; 2; 3]%float) /\
    (forall other, other <> "glucose" ->
       filter_buffers pg' !! other
       = filter_buffers (page_init MOVING_AVG 1 0.01 0.1) !! other).
Proof.
  apply (history_is_recent_values (foldr PrimFloat.add 0%float) MOVING_AVG 1 0.01 0.1
           "glucose" [1; 2; 3]%float); [done|].
  compute_done.
Defined.

(** ** The median is one of the recent values *)

Lemma last_n_drop {A} (k j : nat) (l : list A) :
  (k + j <= length l)%nat -> last_n k (drop j l) = last_n k l.
Proof.
  intros H. unfold last_n. rewrite length_drop, drop_drop. f_equal. lia.
Qed.

(** X9. With the median filter and a window of at least one value, on a
    channel that has a history, when neither the history nor the new value
    is a NaN: [_apply_filter] raises nothing, and what it returns is one of
    the last [window_size] values of that history with the new value
    appended (one of all of them when there are fewer). *)
Theorem median_is_recent_value (fsum : list float -> float) (pg : page) (key : string)
    (raw_value : float) (buf : list float) :
  filter_type pg = MEDIAN ->
  filter_buffers pg !! key = Some buf ->
  1 <= window_size pg ->
  Forall (fun v => (v =? v)%float = true) (buf ++ [raw_value]) ->
  exists pg' out,
    _apply_filter fsum pg key raw_value = Ok (pg', out) /\
    out ∈ last_n (Z.to_nat (Z.min (window_size pg) (Z.of_nat (length buf) + 1)))
                 (buf ++ [raw_value]).
Proof.
  intros Hft Hbuf Hw _. unfold _apply_filter. cbv zeta.
  rewrite Hft. destruct (decide (MEDIAN = KALMAN)) as [|_]; [done|].
  rewrite Hbuf. fold (appended (window_size pg) buf raw_value).
  set (buf' := appended (window_size pg) buf raw_value).
  destruct (decide (MEDIAN = NONE)) as [|_]; [done|].
  cbn [window_size with_buffer].
  assert (Hlen' : Z.of_nat (length buf')
                  = Z.min (Z.of_nat (length buf) + 1) (window_size pg * 2)).
  { unfold buf', appended. cbv zeta. rewrite length_app. cbn [length].
    destruct (Z.gtb_spec (Z.of_nat (length buf + 1)) (window_size pg * 2)); rewrite ?length_drop, ?length_app; cbn [length]; lia. }

  assert (Hmin : Z.min (window_size pg) (Z.of_nat (length buf'))
                 = Z.min (window_size pg) (Z.of_nat (length buf) + 1)) by lia.
  rewrite Hmin.
  set (w := Z.min (window_size pg) (Z.of_nat (length buf) + 1)).
  destruct (Z.leb_spec w 0) as [|_]; [lia|].
  assert (Hwin : last_n (Z.to_nat w) buf' = last_n (Z.to_nat w) (buf ++ [raw_value])).
  { unfold buf', appended. cbv zeta. rewrite length_app. cbn [length].
    destruct (Z.gtb_spec (Z.of_nat (length buf + 1)) (window_size pg * 2)); [|done].
    apply last_n_drop. rewrite length_app. cbn [length]. lia. }
  rewrite Hwin. set (window := last_n _ (buf ++ [raw_value])).
  assert (Hpos : (0 < length window)%nat).
  { unfold window, last_n. rewrite length_drop, length_app. cbn [length]. lia. }
  destruct (lookup_lt_is_Some_2 (sorted window) (length (sorted window) / 2))
    as [m Hm].
  { rewrite sorted_length. apply Nat.div_lt; lia. }
  rewrite Hm. eexists _, m. split; [reflexivity|].
  rewrite <- (sorted_perm window). by eapply list_elem_of_lookup_2.
Qed.

(** The page whose history of [uric] holds 5, 1, 9, 2. *)
Definition four_seen : page :=
  with_buffer (page_init MEDIAN 3 0.01 0.1) "uric" [5; 1; 9; 2]%float.

Lemma median_is_recent_value_witness :
  exists pg' out,
    _apply_filter (foldr PrimFloat.add 0%float) four_seen "uric" 8%float = Ok (pg', out) /\
    out ∈ last_n (Z.to_nat (Z.min (window_size four_seen)
                                  (Z.of_nat (length [5; 1; 9; 2]%float) + 1)))
                 ([5; 1; 9; 2] ++ [8])%float.
Proof.
  apply (median_is_recent_value (foldr PrimFloat.add 0%float) four_seen "uric" 8%float
           [5; 1; 9; 2]%float);
    [reflexivity | reflexivity | simpl; lia | repeat constructor].
Defined.

(** The same call, evaluated: the window is 9, 2, 8 and the output 8. *)
Example median_of_four_seen :
  (fun r => r.2) <$> _apply_filter (foldr PrimFloat.add 0%float) four_seen "uric" 8%float
    = Ok 8%float /\
  last_n (Z.to_nat (Z.min (window_size four_seen) (Z.of_nat (length [5; 1; 9; 2]%float) + 1)))
         ([5; 1; 9; 2] ++ [8])%float = [9; 2; 8]%float.
Proof. split; vm_compute; reflexivity. Qed.

(** ** Channels *)

Lemma page_init_kalman (w : Z) (kQ kR : float) (key : string) :
  kalman_filters (page_init KALMAN w kQ kR) !! key
  = if decide (key ∈ channels) then Some (kalman_init kQ kR) else None.
Proof.
  unfold page_init, _init_kalman_filters. cbv zeta.
  destruct (decide (KALMAN = KALMAN)); [|done]. cbn [kalman_filters kalman_Q kalman_R].
  destruct (decide (key ∈ channels)) as [Hin|Hout].
  - unfold channels in *. set_unfold.
    destruct Hin as [->|[->|[->|[->|[]]]]]; reflexivity.
  - apply not_elem_of_list_to_map_1. rewrite <- list_fmap_compose.
    by rewrite list_fmap_id.
Qed.

Lemma page_init_no_buffer (ft : FilterType) (w : Z) (kQ kR : float) (key : string) :
  key ∉ channels -> filter_buffers (page_init ft w kQ kR) !! key = None.
Proof.
  intros Hout. unfold page_init. cbv zeta.
  assert (H : (list_to_map ((fun key => (key, [])) <$> channels)
               : gmap string (list float)) !! key = None).
  { apply not_elem_of_list_to_map_1. rewrite <- list_fmap_compose.
    by rewrite list_fmap_id. }
  by destruct (decide (ft = KALMAN)).
Qed.

(** X10. On a new page, [_apply_filter] with a key that is none of the four
    channels raises [KeyError], whatever the filter type. *)
Theorem unknown_channel_raises (fsum : list float -> float) (ft : FilterType) (w : Z)
    (kQ kR : float) (key : string) (raw_value : float) :
  key ∉ channels ->
  _apply_filter fsum (page_init ft w kQ kR) key raw_value = Raise KeyError.
Proof.
  intros Hout. unfold _apply_filter. cbv zeta.
  destruct (page_init_settings ft w kQ kR) as [-> _].
  destruct (decide (ft = KALMAN)) as [->|Hft].
  - assert (Hnone : kalman_filters (page_init KALMAN w kQ kR) !! key = None)
      by (rewrite page_init_kalman; by destruct (decide (key ∈ channels))).
    destruct (decide (is_Some (kalman_filters (page_init KALMAN w kQ kR) !! key)))
      as [[k Hk]|_]; [congruence|].
    assert (Hinit : kalman_filters (_init_kalman_filters (page_init KALMAN w kQ kR)) !! key
                    = None).
    { unfold _init_kalman_filters. cbn [kalman_filters].
      apply not_elem_of_list_to_map_1. rewrite <- list_fmap_compose.
      by rewrite list_fmap_id. }
    by rewrite Hinit.
  - by rewrite page_init_no_buffer.
Qed.

Lemma unknown_channel_raises_witness :
  _apply_filter (foldr PrimFloat.add 0%float) (page_init KALMAN 5 0.01 0.1) "lactate" 1%float
  = Raise KeyError.
Proof.
  apply (unknown_channel_raises (foldr PrimFloat.add 0%float) KALMAN 5 0.01 0.1
           "lactate" 1%float).
  compute_done.
Defined.

(** ** The Kalman filter of a channel *)

(** The covariance of a filter made with [kQ] and [kR], after [n]
    observations beyond the first. It does not depend on what is observed. *)
Definition covariance_after (kQ kR : float) (n : nat) : float :=
  Nat.iter n
    (covariance_update PrimFloat.add PrimFloat.sub PrimFloat.mul PrimFloat.div 1%float kQ kR)
    0.1%float.

(** No observation makes [update] divide by zero. *)
Definition steady (kQ kR : float) : Prop :=
  forall n, (covariance_after kQ kR n + kQ + kR =? 0)%float = false.

(** A filter made with [kQ] and [kR] that has been fed some observations. *)
Definition tracks (kQ kR : float) (k : KalmanFilter) : Prop :=
  Q k = kQ /\ R k = kR /\ exists n, P k = covariance_after kQ kR n.

Lemma covariance_after_S (kQ kR : float) (n : nat) :
  covariance_after kQ kR (S n)
  = covariance_update PrimFloat.add PrimFloat.sub PrimFloat.mul PrimFloat.div 1%float kQ kR
      (covariance_after kQ kR n).
Proof. reflexivity. Qed.

Lemma kalman_init_tracks (kQ kR : float) : tracks kQ kR (kalman_init kQ kR).
Proof. split; [reflexivity|]. split; [reflexivity|]. by exists 0%nat. Qed.

Lemma update_outcome (k : KalmanFilter) (z : float) :
  update k z = Raise ZeroDivisionError \/
  exists k' out, update k z = Ok (k', out) /\ (x k = None -> out = z).
Proof.
  unfold update. destruct (x k) as [x0|]; [|right; by eexists _, _].
  cbv zeta. destruct (_ =? _)%float; [by left|]. right. by eexists _, _.
Qed.

Lemma update_tracks (kQ kR : float) (k : KalmanFilter) (z : float) :
  steady kQ kR -> tracks kQ kR k ->
  exists k' out,
    update k z = Ok (k', out) /\ tracks kQ kR k' /\ (x k = None -> out = z).
Proof.
  intros Hs (HQ & HR & n & HP). unfold update. destruct (x k) as [x0|].
  - cbv zeta. rewrite HP, HQ, HR, (Hs n). eexists _, _. split; [reflexivity|].
    split; [|done]. split; [reflexivity|]. split; [reflexivity|].
    exists (S n). by rewrite covariance_after_S.
  - eexists _, _. split; [reflexivity|]. split; [|done].
    split; [exact HQ|]. split; [exact HR|]. by exists n.
Qed.

Lemma divisors_checked :
  forallb (fun n => negb (covariance_after 0.01 0.1 n + 0.01 + 0.1 =? 0)%float) (seq 0 59)
  = true.
Proof. vm_compute. reflexivity. Qed.

Lemma covariance_settled :
  covariance_after 0.01 0.1 59 = P_settled /\
  covariance_update PrimFloat.add PrimFloat.sub PrimFloat.mul PrimFloat.div 1%float
    0.01%float 0.1%float P_settled = P_settled.
Proof. split; vm_compute; reflexivity. Qed.

Lemma covariance_settles (n : nat) : covariance_after 0.01 0.1 (59 + n) = P_settled.
Proof.
  induction n as [|n IH]; [rewrite Nat.add_0_r; exact (proj1 covariance_settled)|].
  rewrite Nat.add_succ_r, covariance_after_S, IH. exact (proj2 covariance_settled).
Qed.

(** With the default [Q = 0.01] and [R = 0.1] the divisor is never zero:
    the covariance takes 59 values and stays at the last. *)
Lemma steady_default : steady 0.01 0.1.
Proof.
  intros n. destruct (le_lt_dec 59 n) as [Hge|Hlt].
  - replace n with (59 + (n - 59))%nat by lia. rewrite covariance_settles.
    vm_compute. reflexivity.
  - pose proof divisors_checked as H. rewrite forallb_forall in H.
    apply negb_true_iff, H, in_seq. lia.
Qed.

Lemma kalman_step (fsum : list float -> float) (pg : page) (key : string)
    (raw_value : float) (k : KalmanFilter) :
  filter_type pg = KALMAN ->
  kalman_filters pg !! key = Some k ->
  _apply_filter fsum pg key raw_value
  = ('(k', out) ← update k raw_value; Ok (with_kalman pg key k', out)).
Proof.
  intros Hft Hk. unfold _apply_filter. cbv zeta.
  destruct (decide (filter_type pg = KALMAN)) as [_|]; [|done].
  destruct (decide (is_Some (kalman_filters pg !! key))) as [_|Hno];
    [|by destruct Hno; eexists].
  by rewrite Hk.
Qed.

(** A run on a channel that has its filter: it ends with the
    [ZeroDivisionError] of [update], or returns one estimate for each
    value. *)
Lemma kalman_run (fsum : list float -> float) (key : string) (values : list float) :
  forall (pg : page) (k : KalmanFilter),
    filter_type pg = KALMAN ->
    kalman_filters pg !! key = Some k ->
    filter_all fsum pg key values = Raise ZeroDivisionError \/
    exists pg' outs,
      filter_all fsum pg key values = Ok (pg', outs) /\
      length outs = length values /\
      (x k = None -> head outs = head values) /\
      filter_buffers pg' = filter_buffers pg.
Proof.
  induction values as [|v values IH]; intros pg k Hft Hk.
  - right. by exists pg, [].
  - cbn [filter_all]. rewrite (kalman_step fsum pg key v k Hft Hk).
    destruct (update_outcome k v) as [->|(k' & out & -> & Hout)]; [by left|].
    cbn [mbind result_bind].
    destruct (IH (with_kalman pg key k') k' Hft) as [->|(pg' & outs & -> & Hlen & _ & Hbufs)].
    + cbn [with_kalman kalman_filters]. by rewrite lookup_insert_eq.
    + by left.
    + right. exists pg', (out :: outs). cbn [mbind result_bind].
      split; [reflexivity|]. split; [by cbn; rewrite Hlen|].
      split; [|exact Hbufs]. intros Hx. cbn. by rewrite (Hout Hx).
Qed.

(** The same when no observation makes [update] divide by zero. *)
Lemma kalman_run_steady (fsum : list float -> float) (kQ kR : float) (key : string)
    (values : list float) :
  steady kQ kR ->
  forall (pg : page) (k : KalmanFilter),
    filter_type pg = KALMAN ->
    kalman_filters pg !! key = Some k ->
    tracks kQ kR k ->
    exists pg' outs,
      filter_all fsum pg key values = Ok (pg', outs) /\
      length outs = length values /\
      (x k = None -> head outs = head values) /\
      filter_buffers pg' = filter_buffers pg.
Proof.
  intros Hs. induction values as [|v values IH]; intros pg k Hft Hk Htr.
  - by exists pg, [].
  - cbn [filter_all]. rewrite (kalman_step fsum pg key v k Hft Hk).
    destruct (update_tracks kQ kR k v Hs Htr) as (k' & out & -> & Htr' & Hout).
    cbn [mbind result_bind].
    destruct (IH (with_kalman pg key k') k' Hft) as (pg' & outs & -> & Hlen & _ & Hbufs).
    + cbn [with_kalman kalman_filters]. by rewrite lookup_insert_eq.
    + exact Htr'.
    + exists pg', (out :: outs). cbn [mbind result_bind].
      split; [reflexivity|]. split; [by cbn; rewrite Hlen|].
      split; [|exact Hbufs]. intros Hx. cbn. by rewrite (Hout Hx).
Qed.

(** What a run on a channel returns: the first value as the first estimate,
    one estimate for each value, and the histories untouched. *)
Definition estimates (fsum : list float -> float) (pg : page) (key : string)
    (v : float) (values : list float) : Prop :=
  exists pg' outs,
    filter_all fsum pg key (v :: values) = Ok (pg', v :: outs) /\
    length outs = length values /\
    filter_buffers pg' = filter_buffers pg.

(** X11. The Kalman filter on a channel of a new page. One value comes back
    as its own estimate. A run of values ends with the [ZeroDivisionError]
    of [update], or returns one estimate for each value, the first being the
    first value, and writes no history. It returns when [kalman_Q] and
    [kalman_R] let no observation divide by zero, as the defaults 0.01 and
    0.1 do; with [kalman_Q = kalman_R = 0] the third value of any run raises
    [ZeroDivisionError]. *)
Theorem kalman_first_estimate (fsum : list float -> float) (w : Z) (kQ kR : float)
    (key : string) (v : float) (values : list float) :
  key ∈ channels ->
  estimates fsum (page_init KALMAN w kQ kR) key v [] /\
  (filter_all fsum (page_init KALMAN w kQ kR) key (v :: values) = Raise ZeroDivisionError \/
   estimates fsum (page_init KALMAN w kQ kR) key v values) /\
  (steady kQ kR -> estimates fsum (page_init KALMAN w kQ kR) key v values) /\
  estimates fsum (page_init KALMAN w 0.01 0.1) key v values /\
  (forall v2 v3,
     filter_all fsum (page_init KALMAN w 0 0) key [v; v2; v3] = Raise ZeroDivisionError).
Proof.
  intros Hkey.
  assert (Hft : forall q r, filter_type (page_init KALMAN w q r) = KALMAN)
    by (intros; apply page_init_settings).
  assert (Hk : forall q r, kalman_filters (page_init KALMAN w q r) !! key
                           = Some (kalman_init q r))
    by (intros; rewrite page_init_kalman; by destruct (decide (key ∈ channels))).
  assert (Hsteady : forall q r vs,
             steady q r -> estimates fsum (page_init KALMAN w q r) key v vs).
  { intros q r vs Hs.
    destruct (kalman_run_steady fsum q r key (v :: vs) Hs (page_init KALMAN w q r)
                (kalman_init q r) (Hft q r) (Hk q r) (kalman_init_tracks q r))
      as (pg' & outs & Hrun & Hlen & Hhead & Hbufs).
    destruct outs as [|out outs]; [done|].
    specialize (Hhead eq_refl). cbn in Hhead, Hlen. injection Hhead as ->.
    exists pg', outs. split; [exact Hrun|]. split; [lia | exact Hbufs]. }
  split; [|split; [|split; [|split]]].
  - destruct (kalman_run fsum key [v] (page_init KALMAN w kQ kR) (kalman_init kQ kR)
                (Hft kQ kR) (Hk kQ kR)) as [Hraise|(pg' & outs & Hrun & Hlen & Hhead & Hbufs)].
    + cbn [filter_all] in Hraise.
      rewrite (kalman_step fsum _ key v _ (Hft kQ kR) (Hk kQ kR)) in Hraise.
      discriminate Hraise.
    + destruct outs as [|out outs]; [done|].
      specialize (Hhead eq_refl). cbn in Hhead, Hlen. injection Hhead as ->.
      exists pg', outs. split; [exact Hrun|]. split; [cbn [length]; lia | exact Hbufs].
  - destruct (kalman_run fsum key (v :: values) (page_init KALMAN w kQ kR)
                (kalman_init kQ kR) (Hft kQ kR) (Hk kQ kR))
      as [Hraise|(pg' & outs & Hrun & Hlen & Hhead & Hbufs)]; [by left|]. right.
    destruct outs as [|out outs]; [done|].
    specialize (Hhead eq_refl). cbn in Hhead, Hlen. injection Hhead as ->.
    exists pg', outs. split; [exact Hrun|]. split; [lia | exact Hbufs].
  - apply Hsteady.
  - apply Hsteady, steady_default.
  - intros v2 v3. unfold channels in Hkey. set_unfold.
    destruct Hkey as [->|[->|[->|[->|[]]]]]; vm_compute; reflexivity.
Qed.

Lemma kalman_first_estimate_witness :
  estimates (foldr PrimFloat.add 0%float) (page_init KALMAN 5 0.01 0.1) "voltage"
            1.5%float [2.5; 3.5]%float /\
  filter_all (foldr PrimFloat.add 0%float) (page_init KALMAN 5 0 0) "voltage"
             [1.5; 2.5; 3.5]%float = Raise ZeroDivisionError.
Proof.
  destruct (kalman_first_estimate (foldr PrimFloat.add 0%float) 5 0.01 0.1 "voltage"
              1.5%float [2.5; 3.5]%float) as (_ & _ & _ & Hdefault & Hzero);
    [compute_done|].
  split; [exact Hdefault | apply Hzero].
Defined.

End FilterHistory.

(** * Saving and reloading a configuration *)

Module LearnConfigFile.

Import LearnConfig.

(** Every section holds exactly the fields of its class. *)
Definition has_class_fields (self : AppConfig) : Prop :=
  dom (serial self) = list_to_set (field_names SerialConfig) /\
  dom (protocol self) = list_to_set (field_names ProtocolConfig) /\
  dom (calib self) = list_to_set (field_names CalibrationConfig) /\
  dom (filt self) = list_to_set (field_names FilterConfig) /\
  dom (save self) = list_to_set (field_names SaveConfig) /\
  dom (ui self) = list_to_set (field_names UIConfig).

(** [save_to]: the dictionary handed to [json.dumps], or the exception that
    [self.filt.filter_type.value] raises when the field holds no member of
    the enumeration. *)
Definition save_to (self : AppConfig) : result (gmap string (gmap string pyval)) :=
  match attribute (filt self) "filter_type" with
  | VEnum member =>
      Ok {[ "serial" := serial self;
            "protocol" := protocol self;
            "calib" := calib self;
            "filt" := <["filter_type" := VStr (FilterType_value member)]> (filt self);
            "save" := save self;
            "ui" := ui self ]}
  | _ => Raise AttributeError
  end.

(** The document [json.loads] returns for a file holding the text that
    [json.dumps] makes of the dictionary [d], when the values of [d] are
    JSON values (after [save_to] has replaced the filter type by its value,
    no member of the enumeration is left in a configuration that was loaded
    from a file or is the default one). *)
Definition document (d : gmap string (gmap string pyval)) : file_content :=
  Json (VDict (VDict <$> d)).

(** ** The merge of one section *)

Lemma update_lookup (cls : dataclass) (current_obj patch : gmap string pyval)
    (name : string) :
  dom current_obj = list_to_set (field_names cls) ->
  _safe_dataclass_update current_obj (VDict patch) cls !! name
  = if decide (name ∈ field_names cls)
    then match patch !! name with
         | Some v => Some v
         | None => current_obj !! name
         end
    else None.
Proof.
  intros Hdom. rewrite update_constructs by (by rewrite Hdom).
  destruct (decide (name ∈ field_names cls)) as [Hin|Hout].
  - destruct (patch !! name) as [v|] eqn:Hp.
    + apply lookup_union_Some_l, lookup_union_Some_l.
      apply map_lookup_filter_Some. by split.
    + assert (Hclean : filter (fun kv : string * pyval => kv.1 ∈ field_names cls) patch
                       !! name = None)
        by (apply map_lookup_filter_None; left; exact Hp).
      assert (Hcur : is_Some (current_obj !! name)).
      { apply elem_of_dom. rewrite Hdom. by apply elem_of_list_to_set. }
      destruct Hcur as [v Hv]. rewrite Hv.
      apply lookup_union_Some_l. rewrite lookup_union_r by exact Hclean. exact Hv.
  - assert (Hno : name ∉ (list_to_set (field_names cls) : gset string))
      by (by rewrite elem_of_list_to_set).
    rewrite !lookup_union_None. repeat split.
    + apply map_lookup_filter_None. right. intros v _. exact Hout.
    + apply not_elem_of_dom. by rewrite Hdom.
    + apply not_elem_of_dom. by rewrite new_dom.
Qed.

Lemma update_dom (cls : dataclass) (current_obj : gmap string pyval) (patch : pyval) :
  dom current_obj = list_to_set (field_names cls) ->
  dom (_safe_dataclass_update current_obj patch cls) = list_to_set (field_names cls).
Proof.
  intros Hdom.
  destruct patch as [| | | | |l|d|]; try exact Hdom.
  rewrite update_constructs by (by rewrite Hdom).
  rewrite !dom_union_L, Hdom, new_dom.
  rewrite (subseteq_union_1_L _ _ (clean_dom cls d)). apply union_idemp_L.
Qed.

Lemma update_same (cls : dataclass) (section : gmap string pyval) :
  dom section = list_to_set (field_names cls) ->
  _safe_dataclass_update (new cls) (VDict section) cls = section.
Proof.
  intros Hdom. apply map_eq. intros name.
  rewrite update_lookup by apply new_dom.
  destruct (decide (name ∈ field_names cls)) as [Hin|Hout].
  - assert (Hsec : is_Some (section !! name)).
    { apply elem_of_dom. rewrite Hdom. by apply elem_of_list_to_set. }
    destruct Hsec as [v ->]. reflexivity.
  - symmetry. apply not_elem_of_dom. rewrite Hdom. by rewrite elem_of_list_to_set.
Qed.

(** X12. [_safe_dataclass_update] on an instance that has the fields of its
    class. The result has exactly those fields. When the patch is a
    dictionary, a field takes the value the patch gives it and keeps its
    current value otherwise, and a key of the patch that is no field is
    ignored; when the patch is no dictionary nothing changes. *)
Theorem section_merge (cls : dataclass) (current_obj : gmap string pyval) (patch : pyval)
    (name : string) :
  dom current_obj = list_to_set (field_names cls) ->
  dom (_safe_dataclass_update current_obj patch cls) = list_to_set (field_names cls) /\
  _safe_dataclass_update current_obj patch cls !! name
  = match patch with
    | VDict entries =>
        if decide (name ∈ field_names cls)
        then match entries !! name with
             | Some v => Some v
             | None => current_obj !! name
             end
        else None
    | _ => current_obj !! name
    end.
Proof.
  intros Hdom. split; [by apply update_dom|].
  destruct patch as [| | | | |l|d|]; try reflexivity.
  by apply update_lookup.
Qed.

Lemma section_merge_witness :
  dom (_safe_dataclass_update (new UIConfig)
         (VDict {[ "max_table_rows" := VInt 10; "colour" := VStr "red" ]}) UIConfig)
  = list_to_set (field_names UIConfig) /\
  _safe_dataclass_update (new UIConfig)
    (VDict {[ "max_table_rows" := VInt 10; "colour" := VStr "red" ]}) UIConfig !! "colour"
  = if decide ("colour" ∈ field_names UIConfig)
    then match ({[ "max_table_rows" := VInt 10; "colour" := VStr "red" ]}
                : gmap string pyval) !! "colour" with
         | Some v => Some v
         | None => new UIConfig !! "colour"
         end
    else None.
Proof.
  apply (section_merge UIConfig (new UIConfig)
           (VDict {[ "max_table_rows" := VInt 10; "colour" := VStr "red" ]}) "colour").
  vm_compute. reflexivity.
Defined.

(** ** What [load] returns *)

Lemma defaults_have_class_fields : has_class_fields defaults.
Proof. repeat split; apply new_dom. Qed.

(** X13. Whatever the configuration file contains, or when there is none,
    each section of the configuration that [load] of [config.py] returns has
    exactly the fields of its class. *)
Theorem load_has_class_fields (file : option file_content) :
  has_class_fields (load file).
Proof.
  destruct file as [[txt|raw]|]; try apply defaults_have_class_fields.
  destruct raw as [| | | | |l|raw|]; try apply defaults_have_class_fields.
  unfold load, _merge_inplace. cbv zeta.
  repeat split; cbn [serial protocol calib filt save ui defaults];
    apply update_dom, new_dom.
Qed.

(** ** [save_to] after [load] *)

(** X14. A file whose [filt] section gives [filter_type] a value that is no
    string (a number, [null], a list) loads with that value stored in the
    field, and [save_to] on the loaded configuration raises
    [AttributeError]. *)
Theorem save_fails_after_load (raw d : gmap string pyval) (v : pyval) :
  raw !! "filt" = Some (VDict d) ->
  d !! "filter_type" = Some v ->
  is_str v = false ->
  attribute (filt (load (Some (Json (VDict raw))))) "filter_type" = v /\
  save_to (load (Some (Json (VDict raw)))) = Raise AttributeError.
Proof.
  intros Hfilt Hft Hstr.
  assert (Hattr : attribute (filt (load (Some (Json (VDict raw))))) "filter_type" = v).
  { unfold attribute. rewrite load_filt. unfold dict_get at 1. rewrite Hfilt.
    cbn [from_option id]. unfold coerce_filt_raw, dict_get. rewrite Hft.
    cbn [from_option id]. rewrite Hstr.
    rewrite update_lookup by apply new_dom.
    destruct (decide ("filter_type" ∈ field_names FilterConfig)) as [_|Hno];
      [|by exfalso; apply Hno; compute_done].
    by rewrite Hft. }
  split; [exact Hattr|].
  unfold save_to. rewrite Hattr. by destruct v.
Qed.

Lemma save_fails_after_load_witness :
  attribute (filt (load (Some (Json (VDict
     {[ "filt" := VDict {[ "filter_type" := VInt 2 ]} ]}))))) "filter_type" = VInt 2 /\
  save_to (load (Some (Json (VDict {[ "filt" := VDict {[ "filter_type" := VInt 2 ]} ]}))))
  = Raise AttributeError.
Proof.
  apply (save_fails_after_load {[ "filt" := VDict {[ "filter_type" := VInt 2 ]} ]}
           {[ "filter_type" := VInt 2 ]} (VInt 2)); reflexivity.
Defined.

(** ** [load] after [save_to] *)

Lemma FilterType_call_value (member : FilterType) :
  FilterType_call (FilterType_value member) = Ok member.
Proof. by destruct member. Qed.

(** X15. [load] after [save_to], in [config.py]: when every section has the
    fields of its class and [save_to] succeeds, loading the document it wrote
    gives back the same configuration. *)
Theorem save_then_load (self : AppConfig) (d : gmap string (gmap string pyval)) :
  has_class_fields self ->
  save_to self = Ok d ->
  load (Some (document d)) = self.
Proof.
  intros (Hserial & Hprotocol & Hcalib & Hfilt & Hsave & Hui) Hsaved.
  unfold save_to, attribute in Hsaved.
  destruct (filt self !! "filter_type") as [ft|] eqn:Hft; [|discriminate Hsaved].
  cbn [from_option id] in Hsaved.
  destruct ft as [| | | | | | |member]; try discriminate Hsaved.
  injection Hsaved as <-.
  destruct self as [serial0 protocol0 calib0 filt0 save0 ui0].
  cbn [serial protocol calib filt save ui] in *.
  unfold document, load, _merge_inplace, dict_get. cbv zeta.
  rewrite !lookup_fmap.
  repeat (rewrite lookup_insert_eq || (rewrite lookup_insert_ne by done)).
  rewrite lookup_singleton_eq.
  cbn [fmap option_fmap option_map from_option id defaults
       serial protocol calib filt save ui].
  unfold coerce_filt_raw, dict_get. rewrite lookup_insert_eq.
  cbn [from_option id is_str coerce_filter_type].
  rewrite FilterType_call_value, insert_insert_eq, (insert_id _ _ _ Hft).
  rewrite !update_same by assumption. reflexivity.
Qed.

(** A configuration that differs from the default in five sections: the
    Kalman filter with a window of 9, another baud rate and reference
    voltage, saving switched on and a table of 100 rows. *)
Definition tuned : AppConfig :=
  {| serial := <["baudrate" := VInt 9600]> (new SerialConfig);
     protocol := new ProtocolConfig;
     calib := <["ref_volt" := VFloat 3.3]> (new CalibrationConfig);
     filt := <["filter_type" := VEnum KALMAN]> (<["window_size" := VInt 9]> (new FilterConfig));
     save := <["auto_save" := VBool true]> (new SaveConfig);
     ui := <["max_table_rows" := VInt 100]> (new UIConfig) |}.

Lemma save_then_load_witness :
  tuned <> defaults /\
  exists d,
    save_to tuned = Ok d /\
    d !! "filt" = Some (<["filter_type" := VStr (FilterType_value KALMAN)]> (filt tuned)) /\
    load (Some (document d)) = tuned.
Proof.
  split.
  - intros E. apply (f_equal (fun c => ui c !! "max_table_rows")) in E. discriminate E.
  - eexists. split; [reflexivity|]. split; [vm_compute; reflexivity|].
    apply (save_then_load tuned); [|reflexivity].
    unfold has_class_fields. repeat split; vm_compute; reflexivity.
Defined.

End LearnConfigFile.

(** * The configuration file of the monitor *)

Module MonitorConfigFile.

Import MonitorConfig.

(** The configuration with the key aliases of the defaults. *)
Definition with_default_keys (cfg : AppConfig) : AppConfig :=
  {| ui := ui cfg; filt := filt cfg; save := save cfg;
     proto := {| time_keys := time_keys (proto defaults);
                 voltage_keys := voltage_keys (proto defaults);
                 uric_keys := uric_keys (proto defaults);
                 ascorbic_keys := ascorbic_keys (proto defaults);
                 glucose_keys := glucose_keys (proto defaults);
                 time_unit := time_unit (proto cfg);
                 voltage_scale := voltage_scale (proto cfg);
                 uric_scale := uric_scale (proto cfg);
                 ascorbic_scale := ascorbic_scale (proto cfg);
                 glucose_scale := glucose_scale (proto cfg) |} |}.

(** X16. [load] after [save_to], in the monitor: loading the file that
    [save_to] wrote gives back the configuration, except that the five lists
    of key aliases are the default ones again; the file is left as it
    was. *)
Theorem load_after_save
    (int_of_str : string -> option Z) (float_of_str : string -> option float)
    (repr : pyval -> string) (cfg : AppConfig) :
  load int_of_str float_of_str repr (save_to cfg)
  = (Ok (with_default_keys cfg), save_to cfg).
Proof.
  destruct cfg as [[interval rows] [ft w q r] [auto every path]
                   [k1 k2 k3 k4 k5 unit vs us asc gs]].
  unfold load, save_to. f_equal.
  destruct ft; vm_compute; reflexivity.
Qed.

(** X17. A top-level key of the configuration file other than [ui], [filt],
    [save] and [proto] has no influence on what the monitor's [load] returns
    or raises, and the file is left as it was. *)
Theorem unknown_section_ignored
    (int_of_str : string -> option Z) (float_of_str : string -> option float)
    (repr : pyval -> string) (raw : gmap string pyval) (name : string) (v : pyval) :
  name ∉ ["ui"; "filt"; "save"; "proto"] ->
  load int_of_str float_of_str repr (Some (Json (VDict (<[name := v]> raw))))
  = (from_raw int_of_str float_of_str repr (VDict raw),
     Some (Json (VDict (<[name := v]> raw)))).
Proof.
  intros Hname. unfold load. f_equal.
  assert (Hget : forall key dflt, key ∈ ["ui"; "filt"; "save"; "proto"] ->
            get (VDict (<[name := v]> raw)) key dflt = get (VDict raw) key dflt).
  { intros key dflt Hkey. unfold get, dict_get.
    rewrite lookup_insert_ne; [done|]. by intros ->. }
  unfold from_raw. cbv zeta.
  rewrite !Hget by compute_done. reflexivity.
Qed.

Lemma unknown_section_ignored_witness :
  load decimal_int (fun _ => None) (fun _ => "")
       (Some (Json (VDict (<["theme" := VStr "dark"]> ∅))))
  = (from_raw decimal_int (fun _ => None) (fun _ => "") (VDict ∅),
     Some (Json (VDict (<["theme" := VStr "dark"]> ∅)))).
Proof.
  apply (unknown_section_ignored decimal_int (fun _ => None) (fun _ => "") ∅
           "theme" (VStr "dark")).
  compute_done.
Defined.

End MonitorConfigFile.

(** * The filter type, by value and by name *)

Module FilterTypeNames.



End FilterTypeNames.

(** * What [_build_cv_cycles] returns on any data *)

Module CVStretches.

Import CVCycles.

(** [c] is a run of consecutive points of [data]. *)
Definition stretch_of (data c : list point) : Prop := exists a b, data = a ++ c ++ b.

(** What holds of the loop variables once the points [seen] have been
    visited. *)
Definition walk_ok (min_points : nat) (seen : list point) (st : walk) : Prop :=
  (exists a, seen = a ++ current_cycle st) /\
  last seen = Some (prev st) /\
  Forall (fun c => (min_points <= length c)%nat /\ stretch_of seen c) (cycles st).

Lemma stretch_of_snoc (seen c : list point) (p : point) :
  stretch_of seen c -> stretch_of (seen ++ [p]) c.
Proof.
  intros (a & b & ->). exists a, (b ++ [p]). by rewrite <- !app_assoc.
Qed.

Lemma visit_ok (dv_threshold : float) (min_points : nat) (seen : list point)
    (st : walk) (p : point) :
  walk_ok min_points seen st ->
  walk_ok min_points (seen ++ [p]) (visit dv_threshold min_points st p).
Proof.
  intros ((a & Hcur) & Hlast & Hcycles).
  assert (Hkeep : Forall (fun c => (min_points <= length c)%nat /\
                                   stretch_of (seen ++ [p]) c) (cycles st)).
  { eapply Forall_impl; [exact Hcycles|]. intros c [Hlen Hc].
    split; [exact Hlen | by apply stretch_of_snoc]. }
  assert (Happend : walk_ok min_points (seen ++ [p])
            {| cycles := cycles st; current_cycle := current_cycle st ++ [p];
               prev := p; current_dir := current_dir st |}).
  { split; [|split]; cbn [cycles current_cycle prev].
    - exists a. by rewrite Hcur, <- app_assoc.
    - by rewrite last_snoc.
    - exact Hkeep. }
  assert (Hfirst : forall dir, walk_ok min_points (seen ++ [p])
            {| cycles := cycles st; current_cycle := current_cycle st ++ [p];
               prev := p; current_dir := Some dir |}).
  { intros dir. destruct Happend as (H1 & H2 & H3). by split. }
  unfold visit.
  destruct (abs (p.1 - (prev st).1) <? dv_threshold)%float; [exact Happend|].
  destruct (current_dir st) as [dir|]; [|apply Hfirst].
  destruct (_ =? dir); [exact Happend|].
  split; [|split]; cbn [cycles current_cycle prev].
  - apply last_Some in Hlast as [seen' ->]. exists seen'. by rewrite <- app_assoc.
  - by rewrite last_snoc.
  - destruct (Nat.leb_spec min_points (length (current_cycle st))); [|exact Hkeep].
    apply Forall_app. split; [exact Hkeep|].
    constructor; [|constructor]. split; [assumption|].
    exists a, [p]. by rewrite Hcur, <- app_assoc.
Qed.

Lemma foldl_visit_ok (dv_threshold : float) (min_points : nat) (rest : list point) :
  forall (seen : list point) (st : walk),
    walk_ok min_points seen st ->
    walk_ok min_points (seen ++ rest) (foldl (visit dv_threshold min_points) st rest).
Proof.
  induction rest as [|p rest IH]; intros seen st Hok; cbn [foldl].
  - by rewrite app_nil_r.
  - replace (seen ++ p :: rest) with ((seen ++ [p]) ++ rest)
      by (by rewrite <- app_assoc).
    apply IH. by apply visit_ok.
Qed.

(** X18. Whatever the data, every cycle [_build_cv_cycles] returns is a run
    of consecutive points of the data with at least [min_points] points;
    with fewer than two points, or fewer than [min_points], it returns no
    cycle. *)
Theorem cycles_are_long_stretches (dv_threshold : float) (min_points : nat)
    (data : list point) :
  Forall (fun c => (min_points <= length c)%nat /\ stretch_of data c)
         (_build_cv_cycles dv_threshold min_points data) /\
  ((length data < 2)%nat \/ (length data < min_points)%nat ->
   _build_cv_cycles dv_threshold min_points data = []).
Proof.
  assert (Hall : Forall (fun c => (min_points <= length c)%nat /\ stretch_of data c)
                        (_build_cv_cycles dv_threshold min_points data)).
  { destruct data as [|first [|second rest]]; [constructor..|].
    unfold _build_cv_cycles.
    set (st := foldl _ _ _).
    assert (Hok : walk_ok min_points ([first] ++ second :: rest) st).
    { apply foldl_visit_ok. split; [|split]; cbn [cycles current_cycle prev].
      - by exists [].
      - reflexivity.
      - constructor. }
    cbn [app] in Hok. destruct Hok as ((a & Hcur) & _ & Hcycles).
    destruct (Nat.leb_spec min_points (length (current_cycle st))); [|exact Hcycles].
    apply Forall_app. split; [exact Hcycles|].
    constructor; [|constructor]. split; [assumption|].
    exists a, []. by rewrite app_nil_r. }
  split; [exact Hall|].
  intros Hshort.
  destruct (_build_cv_cycles dv_threshold min_points data) as [|c cs] eqn:E; [reflexivity|].
  exfalso. apply Forall_cons in Hall as [[Hlen (a & b & Hdata)] _].
  destruct Hshort as [Hshort|Hshort].
  - destruct data as [|first [|second rest]]; [discriminate E..|]. cbn in Hshort. lia.
  - apply (f_equal length) in Hdata. rewrite !length_app in Hdata. lia.
Qed.

(** ** One sweep, with jitter *)

(** From [p] to [q] the voltage moves by less than the threshold. *)
Definition jitter (dv_threshold : float) (p q : point) : Prop :=
  (abs (q.1 - p.1) <? dv_threshold)%float = true.

(** Every step of the points [l], entered from [p], is a jitter or moves in
    direction [dir]. *)
Inductive one_way (dv_threshold : float) (dir : Z) : point -> list point -> Prop :=
| one_way_nil p : one_way dv_threshold dir p []
| one_way_cons p q l :
    jitter dv_threshold p q \/ moves dv_threshold dir p q ->
    one_way dv_threshold dir q l ->
    one_way dv_threshold dir p (q :: l).

Lemma foldl_visit_one_way (dv_threshold : float) (min_points : nat) (dir : Z)
    (l : list point) :
  forall (cur : list point) (p : point) (d : option Z),
    d = None \/ d = Some dir ->
    one_way dv_threshold dir p l ->
    let st := foldl (visit dv_threshold min_points)
                    {| cycles := []; current_cycle := cur; prev := p; current_dir := d |} l in
    cycles st = [] /\ current_cycle st = cur ++ l.
Proof.
  induction l as [|q l IH]; intros cur p d Hd Hway; cbn [foldl].
  - cbn. by rewrite app_nil_r.
  - inversion Hway as [|? ? ? Hstep Hrest]; subst.
    assert (Hvisit : exists d', (d' = None \/ d' = Some dir) /\
              visit dv_threshold min_points
                {| cycles := []; current_cycle := cur; prev := p; current_dir := d |} q
              = {| cycles := []; current_cycle := cur ++ [q]; prev := q;
                   current_dir := d' |}).
    { destruct Hstep as [Hsmall|Hmove].
      - exists d. split; [exact Hd|]. unfold visit, jitter in *.
        cbn [prev]. by rewrite Hsmall.
      - exists (Some dir). split; [by right|].
        destruct Hd as [->| ->].
        + by apply visit_first_dir.
        + by apply visit_same_dir. }
    destruct Hvisit as (d' & Hd' & ->).
    destruct (IH (cur ++ [q]) q d' Hd' Hrest) as [Hc Hcur].
    split; [exact Hc|]. by rewrite Hcur, <- app_assoc.
Qed.

(** X19. Jitter does not cut a sweep: when every step either stays below
    the threshold or moves in one and the same direction, the data come back
    as a single cycle (as none when they have fewer than [min_points]
    points). *)
Theorem one_sweep_is_one_cycle (dv_threshold : float) (min_points : nat) (dir : Z)
    (first second : point) (rest : list point) :
  one_way dv_threshold dir first (second :: rest) ->
  _build_cv_cycles dv_threshold min_points (first :: second :: rest)
  = if (min_points <=? length (first :: second :: rest))%nat
    then [first :: second :: rest] else [].
Proof.
  intros Hway. unfold _build_cv_cycles.
  destruct (foldl_visit_one_way dv_threshold min_points dir (second :: rest)
              [first] first None (or_introl eq_refl) Hway) as [Hc Hcur].
  cbv zeta in Hc, Hcur. rewrite Hc, Hcur. reflexivity.
Qed.

(** A rising sweep that steps back by one millivolt on the way. *)
Definition noisy_rise : list point :=
  [(0.0, 1.0); (0.1, 1.0); (0.099, 1.0); (0.2, 1.0)]%float.

Lemma one_sweep_is_one_cycle_witness :
  _build_cv_cycles 0.002 3 noisy_rise
  = if (3 <=? length noisy_rise)%nat then [noisy_rise] else [].
Proof.
  apply (one_sweep_is_one_cycle 0.002 3 1 (0.0, 1.0)%float (0.1, 1.0)%float
           [(0.099, 1.0); (0.2, 1.0)]%float).
  apply one_way_cons; [right; split; vm_compute; reflexivity|].
  apply one_way_cons; [left; vm_compute; reflexivity|].
  apply one_way_cons; [right; split; vm_compute; reflexivity|].
  apply one_way_nil.
Defined.

(** ** Two sweeps *)

(** X20. A sweep in one direction followed by a sweep in another is cut at
    the turning point, which ends the first cycle and starts the second; each
    of the two is returned if it has at least [min_points] points. *)
Theorem sweep_and_return (dv_threshold : float) (min_points : nat) (dir dir' : Z)
    (first q : point) (up : list point) (r : point) (down : list point) :
  dir' <> dir ->
  run dv_threshold dir first (q :: up) ->
  run dv_threshold dir' (default q (last (q :: up))) (r :: down) ->
  _build_cv_cycles dv_threshold min_points (first :: q :: up ++ r :: down)
  = (if (min_points <=? length (first :: q :: up))%nat then [first :: q :: up] else []) ++
    (if (min_points <=? length (default q (last (q :: up)) :: r :: down))%nat
     then [default q (last (q :: up)) :: r :: down] else []).
Proof.
  intros Hne Hup Hdown.
  inversion Hup as [|? ? ? Hmove Hup']; subst.
  inversion Hdown as [|? ? ? Hmove' Hdown']; subst.
  unfold _build_cv_cycles. cbn [foldl app].
  rewrite (visit_first_dir _ _ _ _ _ _ _ Hmove), foldl_app.
  rewrite (foldl_visit_run _ _ _ _ _ _ _ Hup'). cbn [foldl app].
  assert (Hlast : default q (last up) = default q (last (q :: up))).
  { destruct up as [|q' up']; [reflexivity|]. by rewrite last_cons_cons. }
  rewrite Hlast.
  rewrite (visit_reversal _ _ _ _ _ _ _ _ Hne Hmove').
  rewrite (foldl_visit_run _ _ _ _ _ _ _ Hdown').
  cbn [cycles current_cycle app length].
  destruct (min_points <=? S (S (length up)))%nat,
           (min_points <=? S (S (length down)))%nat; reflexivity.
Qed.

Lemma sweep_and_return_witness :
  _build_cv_cycles 0.002 3 ((0.0, 1.0) :: (0.1, 2.0) :: [(0.2, 3.0)] ++ (0.1, 4.0) :: [])%float
  = (if (3 <=? length [(0.0, 1.0); (0.1, 2.0); (0.2, 3.0)]%float)%nat
     then [[(0.0, 1.0); (0.1, 2.0); (0.2, 3.0)]%float] else []) ++
    (if (3 <=? length (default (0.1, 2.0)%float
                         (last [(0.1, 2.0); (0.2, 3.0)]%float) :: [(0.1, 4.0)%float]))%nat
     then [default (0.1, 2.0)%float (last [(0.1, 2.0); (0.2, 3.0)]%float)
           :: [(0.1, 4.0)%float]] else []).
Proof.
  apply (sweep_and_return 0.002 3 1 (-1) (0.0, 1.0)%float (0.1, 2.0)%float
           [(0.2, 3.0)%float] (0.1, 4.0)%float []).
  - lia.
  - apply run_cons; [split; vm_compute; reflexivity|].
    apply run_cons; [split; vm_compute; reflexivity|]. apply run_nil.
  - apply run_cons; [split; vm_compute; reflexivity|]. apply run_nil.
Defined.

End CVStretches.

(** * From a received dictionary to engineering values *)

Module Ingestion.

Import MonitorConfig.

(** The dictionary [parse_frame] returns. *)
Record frame : Type := {
  t : float;
  voltage : float;
  uric : float;
  ascorbic : float;
  glucose : float
}.

(** [_pick_first_key] *)
Fixpoint _pick_first_key (d : gmap string pyval) (keys : list string) : pyval :=
  match keys with
  | [] => VNone
  | k :: rest =>
      match d !! k with
      | Some v => v
      | None => _pick_first_key d rest
      end
  end.

Section Parse.
(** The interpreter's reading of a string as a float, as in [MonitorConfig]. *)
Variable float_of_str : string -> option float.

(** [_to_float] *)
Definition _to_float (x : pyval) (dflt : float) : float :=
  match x with
  | VNone => dflt
  | _ => try_except (py_float float_of_str x) dflt
  end.

(** [parse_frame] *)
Definition parse_frame (data : gmap string pyval) (cfg : AppConfig) : frame :=
  let pr := proto cfg in
  let t_raw := _pick_first_key data (time_keys pr) in
  let v_raw := _pick_first_key data (voltage_keys pr) in
  let u_raw := _pick_first_key data (uric_keys pr) in
  let a_raw := _pick_first_key data (ascorbic_keys pr) in
  let g_raw := _pick_first_key data (glucose_keys pr) in
  let t := _to_float t_raw 0 in
  let t_sec :=
    if String.eqb (time_unit pr) "ms" then (t / 1000)%float
    else if String.eqb (time_unit pr) "s" then t
    else if (10000 <? t)%float then (t / 1000)%float else t in
  {| t := t_sec;
     voltage := _to_float v_raw 0;
     uric := _to_float u_raw 0;
     ascorbic := _to_float a_raw 0;
     glucose := _to_float g_raw 0 |}.

(** [frame_to_engineering]: seconds, voltage, uric, ascorbic, glucose. *)
Definition frame_to_engineering (frame : frame) (cfg : AppConfig)
  : float * float * float * float * float :=
  let pr := proto cfg in
  let seconds := _to_float (VFloat (t frame)) 0 in
  let voltage := (_to_float (VFloat (voltage frame)) 0 * voltage_scale pr)%float in
  let uric := (_to_float (VFloat (uric frame)) 0 * uric_scale pr)%float in
  let ascorbic := (_to_float (VFloat (ascorbic frame)) 0 * ascorbic_scale pr)%float in
  let glucose := (_to_float (VFloat (glucose frame)) 0 * glucose_scale pr)%float in
  (seconds, voltage, uric, ascorbic, glucose).

End Parse.

(** The dictionary [process_binary_buffer] emits for a decoded frame. *)
Definition data_dict (f : BinaryFrame.page_frame) : gmap string pyval :=
  {[ "t" := VFloat (BinaryFrame.pt f);
     "voltage" := VFloat (BinaryFrame.pvoltage f);
     "uric" := VInt (BinaryFrame.puric f);
     "ascorbic" := VInt (BinaryFrame.pascorbic f);
     "glucose" := VInt (BinaryFrame.pglucose f);
     "receive_time" := VStr (BinaryFrame.receive_time f) ]}.

(** ** Keys that are not there *)

Lemma pick_absent (d : gmap string pyval) (keys : list string) :
  Forall (fun k => d !! k = None) keys -> _pick_first_key d keys = VNone.
Proof.
  induction 1 as [|k keys Hk _ IH]; [reflexivity|].
  cbn [_pick_first_key]. by rewrite Hk.
Qed.

Lemma pick_first (d : gmap string pyval) (before after : list string) (k : string)
    (v : pyval) :
  Forall (fun k' => d !! k' = None) before ->
  d !! k = Some v ->
  _pick_first_key d (before ++ k :: after) = v.
Proof.
  induction 1 as [|k' keys Hk' _ IH]; intros Hk; cbn [app _pick_first_key].
  - by rewrite Hk.
  - rewrite Hk'. by apply IH.
Qed.

(** X21. A dictionary that has none of the configured aliases parses to the
    frame with time and all four values zero, whatever the time unit, and
    raises nothing; the engineering values are these zeros times the
    scales. *)
Theorem frame_without_alias (float_of_str : string -> option float)
    (data : gmap string pyval) (cfg : AppConfig) :
  Forall (fun k => data !! k = None)
         (time_keys (proto cfg) ++ voltage_keys (proto cfg) ++ uric_keys (proto cfg) ++
          ascorbic_keys (proto cfg) ++ glucose_keys (proto cfg)) ->
  parse_frame float_of_str data cfg
  = {| t := 0; voltage := 0; uric := 0; ascorbic := 0; glucose := 0 |} /\
  frame_to_engineering float_of_str (parse_frame float_of_str data cfg) cfg
  = (0, 0 * voltage_scale (proto cfg), 0 * uric_scale (proto cfg),
     0 * ascorbic_scale (proto cfg), 0 * glucose_scale (proto cfg))%float.
Proof.
  intros Hall. rewrite !Forall_app in Hall.
  destruct Hall as (Ht & Hv & Hu & Ha & Hg).
  assert (Hparse : parse_frame float_of_str data cfg
                   = {| t := 0; voltage := 0; uric := 0; ascorbic := 0; glucose := 0 |}).
  { unfold parse_frame. cbv zeta.
    rewrite !pick_absent by assumption. cbn [_to_float].
    destruct (String.eqb _ "ms"); [reflexivity|].
    destruct (String.eqb _ "s"); reflexivity. }
  split; [exact Hparse|]. by rewrite Hparse.
Qed.

(** A line of the firmware that names its fields as [01_Learn/config.py]
    does. *)
Definition firmware_line (ms uric ascorbic glucose code12 : Z) : gmap string pyval :=
  {[ "Ms" := VInt ms; "Uric" := VInt uric; "Ascorbic" := VInt ascorbic;
     "Glucose" := VInt glucose; "Code12" := VInt code12 ]}.

Lemma firmware_line_no_alias (ms uric ascorbic glucose code12 : Z) :
  Forall (fun k => firmware_line ms uric ascorbic glucose code12 !! k = None)
         (time_keys (proto defaults) ++ voltage_keys (proto defaults) ++
          uric_keys (proto defaults) ++ ascorbic_keys (proto defaults) ++
          glucose_keys (proto defaults)).
Proof. cbn. repeat constructor. Qed.

Lemma frame_without_alias_witness :
  parse_frame (fun _ => None) (firmware_line 1500 10 20 30 2048) defaults
  = {| t := 0; voltage := 0; uric := 0; ascorbic := 0; glucose := 0 |} /\
  frame_to_engineering (fun _ => None)
    (parse_frame (fun _ => None) (firmware_line 1500 10 20 30 2048) defaults) defaults
  = (0, 0 * voltage_scale (proto defaults), 0 * uric_scale (proto defaults),
     0 * ascorbic_scale (proto defaults), 0 * glucose_scale (proto defaults))%float.
Proof.
  apply (frame_without_alias (fun _ => None) (firmware_line 1500 10 20 30 2048) defaults).
  vm_compute. repeat constructor.
Defined.

(** ** The time of a binary frame *)

(** X22. With the default configuration, the time of a dictionary that
    [process_binary_buffer] emitted, which is already in seconds, is divided
    by 1000 again by [parse_frame] as soon as it exceeds 10000 s; the voltage
    is passed on unchanged. *)
Theorem binary_frame_time (float_of_str : string -> option float)
    (f : BinaryFrame.page_frame) :
  t (parse_frame float_of_str (data_dict f) defaults)
  = (if 10000 <? BinaryFrame.pt f then BinaryFrame.pt f / 1000 else BinaryFrame.pt f)%float /\
  voltage (parse_frame float_of_str (data_dict f) defaults) = BinaryFrame.pvoltage f.
Proof.
  destruct f as [pt pvoltage puric pascorbic pglucose receive_time].
  split; vm_compute; reflexivity.
Qed.

(** Ten seconds apart on the device, three hours apart on the chart. *)
Example binary_time_jumps_back (float_of_str : string -> option float) (now : string) :
  let before := BinaryFrame.PageFrame 9995 0 0 0 0 now in
  let after := BinaryFrame.PageFrame 10005 0 0 0 0 now in
  t (parse_frame float_of_str (data_dict before) defaults) = 9995%float /\
  t (parse_frame float_of_str (data_dict after) defaults) = 10.005%float.
Proof. split; vm_compute; reflexivity. Qed.

End Ingestion.

(** * The queue between the serial page and the monitor page *)

Module Pending.

Section Queue.
(** [_process_single_data] on the state [St] of the page and one received
    dictionary [D]: the state it leaves, and the exception it raised, if
    any. *)
Context {St D : Type} (_process_single_data : St -> D -> St * option exn).

Record page : Type := {
  state : St;
  _pending_data : list D
}.

Definition MAX_PER_TICK : nat := 50.

(** [update_data] *)
Definition update_data (pg : page) (data : D) : page :=
  {| state := state pg; _pending_data := _pending_data pg ++ [data] |}.

(** The loop [for d in batch]: nothing catches an exception of
    [_process_single_data], so the loop ends at the first dictionary that
    raises. *)
Fixpoint process_all (st : St) (batch : list D) : St * option exn :=
  match batch with
  | [] => (st, None)
  | d :: rest =>
      match _process_single_data st d with
      | (st', None) => process_all st' rest
      | (st', Some e) => (st', Some e)
      end
  end.

(** [_flush_pending_data], up to the redrawing of the charts: the page it
    leaves, and the exception that left it, if any. The batch is taken off
    the queue before the loop. *)
Definition _flush_pending_data (pg : page) : page * option exn :=
  match _pending_data pg with
  | [] => (pg, None)
  | _ =>
      let batch := take MAX_PER_TICK (_pending_data pg) in
      let '(st, raised) := process_all (state pg) batch in
      ({| state := st; _pending_data := drop MAX_PER_TICK (_pending_data pg) |}, raised)
  end.

(** The dictionaries of a batch that reach [_process_single_data]: those
    before the first that raises, and that one. *)
Fixpoint handed (st : St) (batch : list D) : list D :=
  match batch with
  | [] => []
  | d :: rest =>
      match _process_single_data st d with
      | (st', None) => d :: handed st' rest
      | (_, Some _) => [d]
      end
  end.

(** The state that a dictionary leaves, raising or not. *)
Definition step (st : St) (d : D) : St := (_process_single_data st d).1.

(** What happens to the page: a dictionary arrives, or the timer ticks. *)
Inductive event : Type :=
| Arrive (data : D)
| Tick.

(** The page after the events, and the dictionaries that have reached
    [_process_single_data], in order. The timer calls [_flush_pending_data]
    as a slot; the event loop reports an exception that leaves a slot and
    goes on. *)
Fixpoint run (pg : page) (events : list event) : page * list D :=
  match events with
  | [] => (pg, [])
  | Arrive data :: rest => run (update_data pg data) rest
  | Tick :: rest =>
      let seen := handed (state pg) (take MAX_PER_TICK (_pending_data pg)) in
      let '(pg', log) := run (_flush_pending_data pg).1 rest in
      (pg', seen ++ log)
  end.

Definition arrivals (events : list event) : list D :=
  omap (fun e => match e with Arrive data => Some data | Tick => None end) events.

Fixpoint ticks (events : list event) : nat :=
  match events with
  | [] => 0
  | Arrive _ :: rest => ticks rest
  | Tick :: rest => S (ticks rest)
  end.

(** [_process_single_data] raises on no dictionary. *)
Definition never_raises : Prop :=
  forall st d, (_process_single_data st d).2 = None.

End Queue.

Arguments page : clear implicits.
Arguments event : clear implicits.

Section Facts.
Context {St D : Type} (process : St -> D -> St * option exn).

Lemma flush_spec (pg : page St D) :
  (_flush_pending_data process pg).1
  = {| state := (process_all process (state pg) (take MAX_PER_TICK (_pending_data pg))).1;
       _pending_data := drop MAX_PER_TICK (_pending_data pg) |}.
Proof.
  unfold _flush_pending_data. destruct pg as [st [|d l]]; [reflexivity|].
  cbv zeta. cbn [state _pending_data]. by destruct (process_all _ _ _).
Qed.

Lemma process_all_handed (batch : list D) :
  forall st, (process_all process st batch).1
             = foldl (step process) st (handed process st batch).
Proof.
  induction batch as [|d rest IH]; intros st; [reflexivity|].
  cbn [process_all handed].
  destruct (process st d) as [st' [e|]] eqn:E;
    (assert (Hs : step process st d = st') by (unfold step; by rewrite E));
    cbn [foldl fst]; rewrite Hs; [reflexivity | apply IH].
Qed.

Lemma handed_sublist (batch : list D) :
  forall st, handed process st batch `sublist_of` batch.
Proof.
  induction batch as [|d rest IH]; intros st; [constructor|].
  cbn [handed]. destruct (process st d) as [st' [e|]].
  - apply sublist_skip, sublist_nil_l.
  - apply sublist_skip, IH.
Qed.

Lemma handed_all (batch : list D) :
  never_raises process -> forall st, handed process st batch = batch.
Proof.
  intros Hok. induction batch as [|d rest IH]; intros st; [reflexivity|].
  cbn [handed]. pose proof (Hok st d) as H.
  destruct (process st d) as [st' [e|]]; [discriminate H|]. by rewrite IH.
Qed.

Lemma run_spec (events : list (event D)) :
  forall pg : page St D,
    state (run process pg events).1 = foldl (step process) (state pg) (run process pg events).2 /\
    (run process pg events).2 ++ _pending_data (run process pg events).1
      `sublist_of` _pending_data pg ++ arrivals events /\
    (length (run process pg events).2 <= MAX_PER_TICK * ticks events)%nat /\
    (never_raises process ->
       (run process pg events).2 ++ _pending_data (run process pg events).1
       = _pending_data pg ++ arrivals events).
Proof.
  induction events as [|e events IH]; intros pg.
  - cbn. rewrite app_nil_r. by repeat split.
  - destruct e as [data|].
    + cbn [run arrivals omap list_omap ticks].
      destruct (IH (update_data pg data)) as (Hstate & Hsub & Hlen & Hall).
      cbn [update_data state _pending_data] in *. rewrite <- app_assoc in Hsub, Hall.
      by repeat split.
    + cbn [run arrivals omap list_omap ticks].
      destruct (IH (_flush_pending_data process pg).1) as (Hstate & Hsub & Hlen & Hall).
      destruct (run process (_flush_pending_data process pg).1 events) as [pg' log].
      rewrite flush_spec in Hstate, Hsub, Hall. cbn [fst snd state _pending_data] in *.
      set (batch := take MAX_PER_TICK (_pending_data pg)) in *.
      split; [|split; [|split]].
      * by rewrite foldl_app, <- process_all_handed.
      * rewrite <- app_assoc, <- (take_drop MAX_PER_TICK (_pending_data pg)), <- app_assoc.
        fold batch. apply sublist_app; [apply handed_sublist | exact Hsub].
      * rewrite length_app.
        pose proof (sublist_length _ _ (handed_sublist batch (state pg))) as Hle.
        unfold batch in *. rewrite length_take in Hle. unfold MAX_PER_TICK in *. lia.
      * intros Hok. rewrite (handed_all batch Hok), <- app_assoc, (Hall Hok).
        unfold batch. by rewrite app_assoc, take_drop.
Qed.

Lemma queue_shrinks (pg : page St D) (n : nat) :
  _pending_data (Nat.iter n (fun pg => (_flush_pending_data process pg).1) pg)
  = drop (MAX_PER_TICK * n) (_pending_data pg).
Proof.
  induction n as [|n IH]; [by rewrite Nat.mul_0_r|].
  rewrite Nat.iter_succ, flush_spec. cbn [_pending_data]. rewrite IH, drop_drop.
  f_equal. lia.
Qed.

End Facts.

(** X23. Between [update_data] and [_flush_pending_data], after any sequence
    of arrivals and timer ticks: the state of the page is what the
    dictionaries that reached [_process_single_data] leave, in their order;
    these, followed by the ones still pending, are arrivals in the order of
    arrival, none repeated; at most 50 reached it per tick; and when
    [_process_single_data] never raises they are all the arrivals. When it
    raises on the first pending dictionary, the tick has taken the batch off
    the queue all the same: the rest of the batch is neither processed nor
    pending. *)
Theorem queue_in_order {St D} (process : St -> D -> St * option exn) (st : St)
    (events : list (event D)) :
  let '(pg, seen) := run process {| state := st; _pending_data := [] |} events in
  state pg = foldl (step process) st seen /\
  seen ++ _pending_data pg `sublist_of` arrivals events /\
  (length seen <= MAX_PER_TICK * ticks events)%nat /\
  (never_raises process -> seen ++ _pending_data pg = arrivals events) /\
  (forall d rest e,
     (process st d).2 = Some e ->
     run process {| state := st; _pending_data := d :: rest |} [Tick]
     = ({| state := step process st d; _pending_data := drop MAX_PER_TICK (d :: rest) |},
        [d])).
Proof.
  pose proof (run_spec process events {| state := st; _pending_data := [] |}) as H.
  destruct (run process _ events) as [pg seen]. cbn [fst snd state _pending_data] in H.
  destruct H as (Hstate & Hsub & Hlen & Hall).
  split; [exact Hstate|]. split; [exact Hsub|]. split; [exact Hlen|].
  split; [exact Hall|].
  intros d rest e He. cbn [run fst snd]. rewrite flush_spec.
  cbn [state _pending_data take MAX_PER_TICK process_all handed]. unfold step.
  destruct (process st d) as [st' [e'|]]; [|discriminate He].
  by rewrite app_nil_r.
Qed.

(** A page whose state is the list of the numbers processed; the number 3
    makes [_process_single_data] raise. *)
Definition raises_on_3 (st : list nat) (d : nat) : list nat * option exn :=
  if (d =? 3)%nat then (st, Some ZeroDivisionError) else (st ++ [d], None).

(** Five numbers arrive, then the timer ticks twice. *)
Definition five_then_ticks : list (event nat) :=
  [Arrive 1; Arrive 2; Arrive 3; Arrive 4; Arrive 5; Tick; Tick]%nat.

(** The page after these events: 1 and 2 have been processed, 3 has raised,
    and 4 and 5, taken off the queue with them, are gone. *)
Definition two_done : page (list nat) nat := {| state := [1; 2]%nat; _pending_data := [] |}.

Lemma queue_in_order_witness :
  run raises_on_3 {| state := []; _pending_data := [] |} five_then_ticks
    = (two_done, [1; 2; 3]%nat) /\
  arrivals five_then_ticks = [1; 2; 3; 4; 5]%nat /\
  [1; 2; 3]%nat ++ _pending_data two_done `sublist_of` arrivals five_then_ticks.
Proof.
  pose proof (queue_in_order raises_on_3 [] five_then_ticks) as H.
  assert (E : run raises_on_3 {| state := []; _pending_data := [] |} five_then_ticks
              = (two_done, [1; 2; 3]%nat)) by reflexivity.
  rewrite E in H. split; [exact E|]. split; [reflexivity|]. exact (proj1 (proj2 H)).
Defined.

(** X24. When [_process_single_data] never raises, [n] timer ticks without
    new arrivals process the first [50 * n] pending dictionaries, in order,
    and leave the others pending. *)
Theorem queue_drained {St D} (process : St -> D -> St * option exn) (st : St)
    (queue : list D) (n : nat) :
  never_raises process ->
  Nat.iter n (fun pg => (_flush_pending_data process pg).1)
           {| state := st; _pending_data := queue |}
  = {| state := foldl (step process) st (take (MAX_PER_TICK * n) queue);
       _pending_data := drop (MAX_PER_TICK * n) queue |}.
Proof.
  intros Hok. induction n as [|n IH].
  - rewrite Nat.mul_0_r. reflexivity.
  - rewrite Nat.iter_succ, IH, flush_spec. cbn [state _pending_data].
    rewrite process_all_handed, (handed_all process _ Hok).
    rewrite <- foldl_app, drop_drop, take_take_drop. unfold MAX_PER_TICK.
    replace (50 * S n)%nat with (50 * n + 50)%nat by lia. reflexivity.
Qed.

(** A page whose state is the sum of the numbers processed. *)
Definition sums (st d : nat) : nat * option exn := ((st + d)%nat, None).

Lemma queue_drained_witness :
  Nat.iter 2 (fun pg => (_flush_pending_data sums pg).1)
           {| state := 0%nat; _pending_data := seq 1 120 |}
  = {| state := foldl (step sums) 0%nat (take (MAX_PER_TICK * 2) (seq 1 120));
       _pending_data := drop (MAX_PER_TICK * 2) (seq 1 120) |} /\
  foldl (step sums) 0%nat (take (MAX_PER_TICK * 2) (seq 1 120)) = (50 * 101)%nat /\
  drop (MAX_PER_TICK * 2) (seq 1 120) = seq 101 20.
Proof.
  split; [|split; reflexivity].
  apply (queue_drained sums 0%nat (seq 1 120) 2). intros st d. reflexivity.
Defined.

End Pending.

(** * The receive worker over a run of polls *)

Module WorkerRuns.

Import Worker.

Lemma read_data_empty (n : nat) :
  forall w : worker,
    running w = true ->
    0 < current_interval w <= 500 ->
    read_data w (replicate n Empty)
    = ({| is_bluetooth := is_bluetooth w; base_interval := base_interval w;
          current_interval := Z.min (current_interval w * 2 ^ Z.of_nat n) 500;
          running := true |},
       (fun k => Z.min (current_interval w * 2 ^ Z.of_nat k) 500) <$> seq 1 n).
Proof.
  induction n as [|n IH]; intros w Hrun Hpos.
  - cbn. f_equal. destruct w; cbn in *. subst. f_equal. lia.
  - cbn [replicate read_data]. rewrite Hrun. cbn [poll_once].
    set (w' := {| is_bluetooth := _; base_interval := _; current_interval := _;
                  running := _ |}).
    assert (Hrun' : running w' = true) by exact Hrun.
    assert (Hpos' : 0 < current_interval w' <= 500) by (cbn; lia).
    rewrite (IH w' Hrun' Hpos').
    cbn [from_option app is_bluetooth base_interval current_interval w'].
    assert (Hstep : forall k, 0 <= k ->
              Z.min (Z.min (current_interval w * 2) 500 * 2 ^ k) 500
              = Z.min (current_interval w * 2 ^ (k + 1)) 500).
    { intros k Hk. rewrite Z.pow_add_r, Z.pow_1_r by lia.
      assert (0 < 2 ^ k) by (apply Z.pow_pos_nonneg; lia). nia. }
    f_equal.
    + f_equal. rewrite Hstep by lia. f_equal. f_equal. lia.
    + cbn [seq fmap list_fmap]. change (2 ^ Z.of_nat 1) with 2. apply (f_equal (cons _)).
      rewrite <- (fmap_S_seq 1 n), <- list_fmap_compose.
      apply list_fmap_ext. intros _ k _. cbn. rewrite Hstep by lia.
      f_equal. f_equal. lia.
Qed.

(** X25. After [n] polls in a row that find nothing, the polling interval is
    the base interval doubled [n] times, capped at 500 ms, and the loop has
    slept that long after each of these polls. *)
Theorem backoff_doubles (bt : bool) (n : nat) :
  let base := if bt then 20 else 5 in
  start (init bt) (replicate n Empty)
  = ({| is_bluetooth := bt; base_interval := base;
        current_interval := Z.min (base * 2 ^ Z.of_nat n) 500; running := true |},
     (fun k => Z.min (base * 2 ^ Z.of_nat k) 500) <$> seq 1 n).
Proof.
  cbv zeta. unfold start, init. cbv zeta.
  cbn [is_bluetooth base_interval current_interval].
  set (w := {| is_bluetooth := _; base_interval := _; current_interval := _;
               running := true |}).
  rewrite (read_data_empty n w); [reflexivity | reflexivity | cbn; destruct bt; lia].
Qed.

Lemma read_data_stopped (w : worker) (polls : list poll) :
  running w = false -> read_data w polls = (w, []).
Proof. intros H. destruct polls; cbn [read_data]; [reflexivity|]. by rewrite H. Qed.

(** [stop] *)
Definition stop (w : worker) : worker :=
  {| is_bluetooth := is_bluetooth w; base_interval := base_interval w;
     current_interval := current_interval w; running := false |}.

Lemma read_data_error (before after : list poll) :
  Forall (fun p => p <> ReadError) before ->
  forall w : worker,
    running w = true ->
    read_data w (before ++ ReadError :: after)
    = (stop (read_data w before).1, (read_data w before).2).
Proof.
  induction 1 as [|p before Hp _ IH]; intros w Hrun.
  - cbn [app read_data]. rewrite Hrun. cbn [poll_once].
    rewrite read_data_stopped by reflexivity. reflexivity.
  - cbn [app read_data]. rewrite Hrun.
    destruct p; [| |done]; cbn [poll_once];
      (set (w' := {| is_bluetooth := _; base_interval := _; current_interval := _;
                     running := running w |});
       rewrite (IH w' Hrun);
       destruct (read_data w' before) as [w1 sleeps1]; reflexivity).
Qed.

(** X26. The first poll that raises ends [read_data]: the worker has slept
    as for the polls before it, its interval is the one they left, [running]
    is false, and no later poll is made. *)
Theorem read_error_stops (w : worker) (before after : list poll) :
  Forall (fun p => p <> ReadError) before ->
  start w (before ++ ReadError :: after)
  = (stop (start w before).1, (start w before).2).
Proof. intros Hbefore. unfold start. by apply read_data_error. Qed.

Lemma read_error_stops_witness :
  start (init true) ([Empty; Data; Empty] ++ ReadError :: [Data; Data])
  = (stop (start (init true) [Empty; Data; Empty]).1,
     (start (init true) [Empty; Data; Empty]).2).
Proof.
  apply (read_error_stops (init true) [Empty; Data; Empty] [Data; Data]).
  repeat constructor; discriminate.
Defined.

End WorkerRuns.

(** * One received dictionary on the monitor page *)

Module MonitorPage.

Import Filters.

Section Process.
(** The reading of strings as floats, the built-in [sum], and the row of the
    table made of the rounded values and the receive time. *)
Context {Row : Type}.
Variable float_of_str : string -> option float.
Variable fsum : list float -> float.
Variable data_row : float -> float -> float -> float -> float -> pyval -> Row.

(** The fields of [DataMonitorPage] that [_process_single_data] reads and
    writes; [filters] carries [cfg.filt] with the filter histories. *)
Record monitor : Type := {
  cfg : MonitorConfig.AppConfig;
  filters : page;
  max_time_data : float;
  data_table : list Row;
  cached_data : list Row;
  glucose_time_data : list (float * float);
  voltage_uric_data : list (float * float);
  voltage_ascorbic_data : list (float * float);
  voltage_glucose_data : list (float * float)
}.

(** [_trim_table_rows]: [removeRow(0)] as many times as there are rows too
    many. *)
Definition _trim_table_rows (max_rows : Z) (rows : list Row) : list Row :=
  let rc := Z.of_nat (length rows) in
  if rc >? max_rows then drop (Z.to_nat (rc - max_rows)) rows else rows.

Definition max_volt_data : nat := 2000.

(** [_process_single_data] *)
Definition _process_single_data (self : monitor) (data : gmap string pyval)
  : result monitor :=
  let frame := Ingestion.parse_frame float_of_str data (cfg self) in
  let '(seconds, voltage, uric_uA, ascorbic_uA, glucose_mA) :=
    Ingestion.frame_to_engineering float_of_str frame (cfg self) in
  let receive_time := dict_get data "receive_time" (VStr "") in
  '(pg, uric_f) ← _apply_filter fsum (filters self) "uric" uric_uA;
  '(pg, ascorbic_f) ← _apply_filter fsum pg "ascorbic" ascorbic_uA;
  '(pg, glucose_f) ← _apply_filter fsum pg "glucose" glucose_mA;
  let voltage_f := voltage in
  let row := data_row seconds uric_f ascorbic_f glucose_f voltage_f receive_time in
  let table :=
    _trim_table_rows (MonitorConfig.max_table_rows (MonitorConfig.ui (cfg self)))
                     (data_table self ++ [row]) in
  let cached :=
    if MonitorConfig.auto_save (MonitorConfig.save (cfg self))
    then cached_data self ++ [row] else cached_data self in
  Ok {| cfg := cfg self;
        filters := pg;
        max_time_data := max_time_data self;
        data_table := table;
        cached_data := cached;
        glucose_time_data :=
          List.filter (fun '(t, g) => (seconds - max_time_data self <=? t)%float)
                      (glucose_time_data self ++ [(seconds, glucose_f)]);
        voltage_uric_data :=
          last_n max_volt_data (voltage_uric_data self ++ [(voltage_f, uric_f)]);
        voltage_ascorbic_data :=
          last_n max_volt_data (voltage_ascorbic_data self ++ [(voltage_f, ascorbic_f)]);
        voltage_glucose_data :=
          last_n max_volt_data (voltage_glucose_data self ++ [(voltage_f, glucose_f)]) |}.

(** The dictionaries of a batch, one after the other. *)
Fixpoint process_batch (self : monitor) (batch : list (gmap string pyval))
  : result monitor :=
  match batch with
  | [] => Ok self
  | data :: rest => self' ← _process_single_data self data; process_batch self' rest
  end.

(** The histories of the channels exist, as [__init__] makes them; and when
    the Kalman filter is chosen, the filters of the page are made with its
    [kalman_Q] and [kalman_R], which let no observation divide by zero. *)
Definition ready (pg : page) : Prop :=
  (forall key, key ∈ channels -> is_Some (filter_buffers pg !! key)) /\
  (filter_type pg = KALMAN ->
   FilterHistory.steady (kalman_Q pg) (kalman_R pg) /\
   forall key k,
     kalman_filters pg !! key = Some k ->
     FilterHistory.tracks (kalman_Q pg) (kalman_R pg) k).

(** What holds of the tables and series after a dictionary. *)
Definition bounded (self : monitor) : Prop :=
  Z.of_nat (length (data_table self))
    <= Z.max 0 (MonitorConfig.max_table_rows (MonitorConfig.ui (cfg self))) /\
  (length (voltage_uric_data self) <= max_volt_data)%nat /\
  (length (voltage_ascorbic_data self) <= max_volt_data)%nat /\
  (length (voltage_glucose_data self) <= max_volt_data)%nat.

(** The three series against the voltage hold the same voltages. *)
Definition aligned (self : monitor) : Prop :=
  (voltage_uric_data self).*1 = (voltage_glucose_data self).*1 /\
  (voltage_ascorbic_data self).*1 = (voltage_glucose_data self).*1.

End Process.

Arguments monitor : clear implicits.

Lemma init_kalman_lookup (pg : page) (key : string) :
  key ∈ channels ->
  kalman_filters (_init_kalman_filters pg) !! key
  = Some (kalman_init (kalman_Q pg) (kalman_R pg)).
Proof.
  intros Hin. unfold _init_kalman_filters. cbn [kalman_filters].
  unfold channels in *. set_unfold.
  destruct Hin as [->|[->|[->|[->|[]]]]]; reflexivity.
Qed.

Lemma init_kalman_only (pg : page) (key : string) (k : KalmanFilter) :
  kalman_filters (_init_kalman_filters pg) !! key = Some k ->
  k = kalman_init (kalman_Q pg) (kalman_R pg).
Proof.
  destruct (decide (key ∈ channels)) as [Hin|Hout].
  - rewrite init_kalman_lookup by exact Hin. intros H. by apply (inj Some) in H.
  - unfold _init_kalman_filters. cbn [kalman_filters].
    rewrite (not_elem_of_list_to_map_1 _ key); [done|].
    rewrite <- list_fmap_compose. by rewrite list_fmap_id.
Qed.

Lemma apply_filter_ok (fsum : list float -> float) (pg : page) (key : string)
    (raw_value : float) :
  ready pg -> key ∈ channels ->
  exists pg' out,
    _apply_filter fsum pg key raw_value = Ok (pg', out) /\ ready pg'.
Proof.
  intros [Hbufs Hkal] Hkey.
  destruct (decide (filter_type pg = KALMAN)) as [Hk|Hft].
  - destruct (Hkal Hk) as [Hs Htr].
    unfold _apply_filter. cbv zeta.
    destruct (decide (filter_type pg = KALMAN)) as [_|]; [|done].
    assert (Hstep : forall pg0 k,
               filter_buffers pg0 = filter_buffers pg ->
               kalman_Q pg0 = kalman_Q pg -> kalman_R pg0 = kalman_R pg ->
               (forall key' k', kalman_filters pg0 !! key' = Some k' ->
                                FilterHistory.tracks (kalman_Q pg) (kalman_R pg) k') ->
               FilterHistory.tracks (kalman_Q pg) (kalman_R pg) k ->
               exists pg' out,
                 (update k raw_value ≫= λ '(k', out), Ok (with_kalman pg0 key k', out))
                 = Ok (pg', out) /\ ready pg').
    { intros pg0 k Hb HQ HR Hall Hone.
      destruct (FilterHistory.update_tracks _ _ k raw_value Hs Hone)
        as (k' & out & -> & Htr' & _).
      cbn [mbind result_bind]. eexists _, _. split; [reflexivity|]. split.
      - cbn [with_kalman filter_buffers]. by rewrite Hb.
      - intros _. cbn [with_kalman kalman_Q kalman_R kalman_filters].
        rewrite HQ, HR. split; [exact Hs|]. intros key' k''.
        destruct (decide (key' = key)) as [->|Hne].
        + rewrite lookup_insert_eq. intros H. apply (inj Some) in H. by subst k''.
        + rewrite lookup_insert_ne by done. apply Hall. }
    destruct (decide (is_Some (kalman_filters pg !! key))) as [[k Hsome]|_].
    + rewrite Hsome. apply Hstep; try done. by apply (Htr key).
    + rewrite init_kalman_lookup by exact Hkey. apply Hstep; try done.
      * intros key' k' H. rewrite (init_kalman_only pg key' k' H).
        apply FilterHistory.kalman_init_tracks.
      * apply FilterHistory.kalman_init_tracks.
  - destruct (Hbufs key Hkey) as [buf Hbuf].
    destruct (FilterHistory.apply_filter_history fsum pg key raw_value buf Hft Hbuf)
      as [out ->].
    eexists _, _. split; [reflexivity|]. split.
    + intros other Hother. cbn [with_buffer filter_buffers].
      destruct (decide (other = key)) as [->|Hne].
      * rewrite lookup_insert_eq. by eexists.
      * rewrite lookup_insert_ne by done. by apply Hbufs.
    + cbn [with_buffer filter_type]. intros H. by destruct Hft.
Qed.

Lemma length_last_n {A} (n : nat) (l : list A) : length (last_n n l) = (length l `min` n)%nat.
Proof. unfold last_n. rewrite length_drop. lia. Qed.

Lemma fst_last_n {A B} (n : nat) (l : list (A * B)) : (last_n n l).*1 = last_n n l.*1.
Proof. unfold last_n. by rewrite fmap_drop, length_fmap. Qed.

(** One dictionary never makes [_process_single_data] raise; it leaves the
    table and the series within their bounds. *)
Lemma process_single_data_ok {Row} (float_of_str : string -> option float)
    (fsum : list float -> float)
    (data_row : float -> float -> float -> float -> float -> pyval -> Row)
    (self : monitor Row) (data : gmap string pyval) :
  ready (filters self) ->
  exists self',
    _process_single_data float_of_str fsum data_row self data = Ok self' /\
    ready (filters self') /\
    cfg self' = cfg self /\
    bounded self' /\
    (aligned self -> aligned self').
Proof.
  intros Hready. unfold _process_single_data. cbv zeta.
  destruct (Ingestion.frame_to_engineering _ _ _) as [[[[seconds voltage] u] a] g].
  destruct (apply_filter_ok fsum (filters self) "uric" u Hready)
    as (pg1 & uric_f & -> & Hready1); [compute_done|].
  cbn [mbind result_bind].
  destruct (apply_filter_ok fsum pg1 "ascorbic" a Hready1)
    as (pg2 & ascorbic_f & -> & Hready2); [compute_done|].
  cbn [mbind result_bind].
  destruct (apply_filter_ok fsum pg2 "glucose" g Hready2)
    as (pg3 & glucose_f & -> & Hready3); [compute_done|].
  cbn [mbind result_bind].
  eexists. split; [reflexivity|].
  cbn [filters cfg]. split; [exact Hready3|]. split; [reflexivity|]. split.
  - unfold bounded.
    cbn [data_table cfg voltage_uric_data voltage_ascorbic_data voltage_glucose_data].
    rewrite !length_last_n. repeat split; try lia.
    unfold _trim_table_rows. cbv zeta.
    destruct (Z.gtb_spec (Z.of_nat (length (data_table self ++ [data_row seconds uric_f
                ascorbic_f glucose_f voltage (dict_get data "receive_time" (VStr ""))])))
              (MonitorConfig.max_table_rows (MonitorConfig.ui (cfg self))));
      rewrite ?length_drop; lia.
  - intros [Hu Ha]. unfold aligned.
    cbn [voltage_uric_data voltage_ascorbic_data voltage_glucose_data].
    rewrite !fst_last_n, !fmap_app, Hu, Ha. by split.
Qed.

Lemma process_batch_ok {Row} (float_of_str : string -> option float)
    (fsum : list float -> float)
    (data_row : float -> float -> float -> float -> float -> pyval -> Row)
    (batch : list (gmap string pyval)) :
  forall self : monitor Row,
    ready (filters self) ->
    exists self',
      process_batch float_of_str fsum data_row self batch = Ok self' /\
      ready (filters self') /\
      cfg self' = cfg self /\
      (batch <> [] \/ bounded self -> bounded self') /\
      (aligned self -> aligned self').
Proof.
  induction batch as [|data rest IH]; intros self Hready.
  - exists self. split; [reflexivity|]. split; [exact Hready|]. split; [reflexivity|].
    split; [intros [H|H]; [done | exact H] | done].
  - cbn [process_batch].
    destruct (process_single_data_ok float_of_str fsum data_row self data Hready)
      as (self1 & -> & Hready1 & Hcfg1 & Hbounded1 & Haligned1).
    cbn [mbind result_bind].
    destruct (IH self1 Hready1) as (self' & -> & Hready' & Hcfg' & Hbounded' & Haligned').
    exists self'. split; [reflexivity|]. split; [exact Hready'|].
    split; [congruence|]. split.
    + intros _. apply Hbounded'. by right.
    + intros H. by apply Haligned', Haligned1.
Qed.

(** The page as [__init__] leaves it. *)
Definition monitor_init {Row} (cfg : MonitorConfig.AppConfig) : monitor Row :=
  {| cfg := cfg;
     filters := page_init (MonitorConfig.filter_type (MonitorConfig.filt cfg))
                          (MonitorConfig.window_size (MonitorConfig.filt cfg))
                          (MonitorConfig.kalman_Q (MonitorConfig.filt cfg))
                          (MonitorConfig.kalman_R (MonitorConfig.filt cfg));
     max_time_data := 300;
     data_table := []; cached_data := [];
     glucose_time_data := []; voltage_uric_data := [];
     voltage_ascorbic_data := []; voltage_glucose_data := [] |}.

Lemma monitor_init_ready {Row} (cfg0 : MonitorConfig.AppConfig) :
  MonitorConfig.filter_type (MonitorConfig.filt cfg0) <> KALMAN \/
  FilterHistory.steady (MonitorConfig.kalman_Q (MonitorConfig.filt cfg0))
                       (MonitorConfig.kalman_R (MonitorConfig.filt cfg0)) ->
  ready (filters (monitor_init (Row := Row) cfg0)).
Proof.
  intros Hcfg. cbn [filters monitor_init]. split.
  - intros key Hkey. rewrite FilterHistory.page_init_buffer by exact Hkey. by eexists.
  - destruct (FilterHistory.page_init_settings
                (MonitorConfig.filter_type (MonitorConfig.filt cfg0))
                (MonitorConfig.window_size (MonitorConfig.filt cfg0))
                (MonitorConfig.kalman_Q (MonitorConfig.filt cfg0))
                (MonitorConfig.kalman_R (MonitorConfig.filt cfg0))) as [-> _].
    intros Hk. destruct Hcfg as [Hno|Hs]; [done|]. rewrite Hk.
    unfold page_init. cbv zeta. destruct (decide (KALMAN = KALMAN)); [|done].
    cbn [_init_kalman_filters kalman_Q kalman_R]. split; [exact Hs|].
    intros key k H. rewrite (init_kalman_only _ key k H).
    apply FilterHistory.kalman_init_tracks.
Qed.

(** X27. On a new monitor page whose filter is not the Kalman filter, or
    whose [kalman_Q] and [kalman_R] let no observation divide by zero, a
    batch of any dictionaries is processed without an exception; afterwards
    the table has at most [max_table_rows] rows, each of the three series
    against the voltage has at most 2000 points, and the three hold the same
    voltages. *)
Theorem batch_never_raises {Row} (float_of_str : string -> option float)
    (fsum : list float -> float)
    (data_row : float -> float -> float -> float -> float -> pyval -> Row)
    (cfg0 : MonitorConfig.AppConfig) (batch : list (gmap string pyval)) :
  MonitorConfig.filter_type (MonitorConfig.filt cfg0) <> KALMAN \/
  FilterHistory.steady (MonitorConfig.kalman_Q (MonitorConfig.filt cfg0))
                       (MonitorConfig.kalman_R (MonitorConfig.filt cfg0)) ->
  exists self',
    process_batch float_of_str fsum data_row (monitor_init cfg0) batch = Ok self' /\
    cfg self' = cfg0 /\
    bounded self' /\
    aligned self'.
Proof.
  intros Hcfg.
  destruct (process_batch_ok float_of_str fsum data_row batch (monitor_init cfg0))
    as (self' & Hrun & _ & Hcfg' & Hbounded & Haligned).
  - by apply monitor_init_ready.
  - exists self'. split; [exact Hrun|]. split; [exact Hcfg'|]. split.
    + apply Hbounded. right. unfold bounded. cbn. lia.
    + by apply Haligned.
Qed.

(** The default configuration with the Kalman filter chosen. *)
Definition kalman_cfg : MonitorConfig.AppConfig :=
  {| MonitorConfig.ui := MonitorConfig.ui MonitorConfig.defaults;
     MonitorConfig.filt :=
       {| MonitorConfig.filter_type := KALMAN; MonitorConfig.window_size := 5;
          MonitorConfig.kalman_Q := 0.01; MonitorConfig.kalman_R := 0.1 |};
     MonitorConfig.save := MonitorConfig.save MonitorConfig.defaults;
     MonitorConfig.proto := MonitorConfig.proto MonitorConfig.defaults |}.

(** Three dictionaries as the firmware sends them. *)
Definition three_dictionaries : list (gmap string pyval) :=
  [Ingestion.firmware_line 1000 10 20 30 2048;
   Ingestion.firmware_line 2000 11 21 31 2048;
   Ingestion.firmware_line 3000 12 22 32 2048].

Lemma batch_never_raises_witness :
  exists self',
    process_batch (fun _ => None) (foldr PrimFloat.add 0%float)
                  (fun s u a g v r => (s, u, a, g, v, r))
                  (monitor_init kalman_cfg) three_dictionaries = Ok self' /\
    cfg self' = kalman_cfg /\
    bounded self' /\
    aligned self'.
Proof.
  apply (batch_never_raises (fun _ => None) (foldr PrimFloat.add 0%float)
           (fun s u a g v r => (s, u, a, g, v, r)) kalman_cfg three_dictionaries).
  right. apply FilterHistory.steady_default.
Defined.

(** With the Kalman filter and [kalman_Q = kalman_R = 0] the third
    dictionary of any batch makes [update] divide by zero: the second
    observation has brought the covariance of the [uric] filter to 0. *)
Lemma zero_noise_batch_raises {Row} (float_of_str : string -> option float)
    (fsum : list float -> float)
    (data_row : float -> float -> float -> float -> float -> pyval -> Row)
    (cfg0 : MonitorConfig.AppConfig) (d1 d2 d3 : gmap string pyval) :
  MonitorConfig.filter_type (MonitorConfig.filt cfg0) = KALMAN ->
  MonitorConfig.kalman_Q (MonitorConfig.filt cfg0) = 0%float ->
  MonitorConfig.kalman_R (MonitorConfig.filt cfg0) = 0%float ->
  process_batch float_of_str fsum data_row (monitor_init cfg0) [d1; d2; d3]
  = Raise ZeroDivisionError.
Proof.
  destruct cfg0 as [ui0 [ft w q r] save0 proto0]. cbn. intros -> -> ->.
  vm_compute. reflexivity.
Qed.

End MonitorPage.
